(** * Logiq212 AI chat dispatcher: key pool, windows, gate, cooldowns, trimming

    A shallow embedding of the core of [cogs/ai_chat.py], of
    [utils/ai_keys.py] and of [utils/logs.py], with the properties of the
    design document stated and settled against it.

    Modelling conventions:
    - a [datetime] is the instant it denotes, an integer number of
      microseconds counted from 0001-01-01T00:00:00 UTC ([datetime.min] made
      timezone aware); [_ensure_utc] only attaches the UTC zone to a naive
      value and therefore does not change the instant; the sum of a date
      and a duration raises [OverflowError] outside the years 1 to 9999,
      as does a duration outside the range of [timedelta];
    - Python [int] is [Z]; a Python [float] (a score, a reading of the
      monotonic clock, a [total_seconds()]) is a rational [Q]. The values
      that the properties speak of are the exact ones; where the code
      compares scores, in the sort of the candidates, the comparison is
      made on the binary64 numbers that the code computes, operation by
      operation ([Binary64], [binary64_score]);
    - a credential document is a record whose optional fields are [option]
      values, [None] standing for a key that is absent or holds [None]
      (for [enabled]: absent, which [doc.get("enabled", True)] reads as
      [True]);
    - values decoded from the upstream JSON body are dynamically typed and
      kept as [json];
    - dictionaries kept in memory by the cog are [gmap]s. *)

From Stdlib Require Import ZArith QArith Qround List Bool Ascii String Permutation Sorted Lia.
From stdpp Require Import gmap strings list pretty.

Set Warnings "-register-all".

Local Open Scope Z_scope.

(** ** Time *)

Module Datetime.

(** An instant, in microseconds since 0001-01-01T00:00:00 UTC. *)
Definition datetime := Z.

(** [datetime.min.replace(tzinfo=timezone.utc)] *)
Definition datetime_min_utc : datetime := 0.

(** [_ensure_utc]: a naive value is read as UTC, an aware one is kept. *)
Definition _ensure_utc (value : option datetime) : option datetime :=
  match value with
  | None => None
  | Some v => Some v
  end.

(** [timedelta.total_seconds()] of a difference of two instants. *)
Definition total_seconds (delta : Z) : Q := (delta # 1000000)%Q.

End Datetime.
Export Datetime.

(** ** Python values *)

(** A Python [float]: not-a-number, an infinity, or a finite value. *)
Inductive pyfloat :=
| FNan
| FInf (negative : bool)
| FFin (q : Q).

(** What [json.loads] produces; [JNull] is Python's [None]. A [JObj] lists
    the items of the resulting [dict], whose keys are pairwise distinct. *)
Inductive json :=
| JNull
| JBool (b : bool)
| JInt (z : Z)
| JFloat (f : pyfloat)
| JStr (s : string)
| JArr (l : list json)
| JObj (items : list (string * json)).

(** [x < y] on floats *)
Definition Qlt_bool (x y : Q) : bool := negb (Qle_bool y x).

(** [int(x)] on a finite float: truncation towards zero. *)
Definition int_of_Q (x : Q) : Z := Z.quot (Qnum x) (Z.pos (Qden x)).

(** ** Window tracker *)

(** [int(count or 0)] *)
Definition int_or_0 (count : option Z) : Z :=
  match count with
  | None => 0
  | Some c => if c =? 0 then 0 else c
  end.

(** [_window_state(start, count, window_seconds, now)] *)
Definition _window_state (start : option datetime) (count : option Z)
    (window_seconds : Z) (now : datetime) : datetime * Z :=
  let start := _ensure_utc start in
  let count := int_or_0 count in
  match start with
  | None => (now, 0)
  | Some s =>
      if Qle_bool (inject_Z window_seconds) (total_seconds (now - s))
      then (now, 0)
      else (s, count)
  end.

(** ** Credential documents and candidates *)

Module Doc.

(** One document of the credential collection. *)
Record t := {
  guild_id : Z;
  name : string;
  encrypted_api_key : option (gmap string string);
  enabled : option bool;
  cooldown_until : option datetime;
  rpm_limit : option Z;
  rpd_limit : option Z;
  minute_window_started_at : option datetime;
  minute_window_count : option Z;
  day_started_at : option datetime;
  day_count : option Z;
  last_used_at : option datetime;
  last_error : option json;
  last_error_code : option Z;
  last_error_at : option datetime;
  updated_at : option datetime
}.

End Doc.

Module Cand.

(** The dictionary built by [_build_key_candidate]. *)
Record t := {
  doc : Doc.t;
  score : Q;
  minute_start : datetime;
  minute_count : Z;
  day_start : datetime;
  day_count : Z;
  last_used_at : option datetime
}.

End Cand.

(** [_build_key_candidate(doc, now)] *)
Definition _build_key_candidate (doc : Doc.t) (now : datetime) : option Cand.t :=
  if negb (default true (Doc.enabled doc)) then None else
  let cooldown_until := _ensure_utc (Doc.cooldown_until doc) in
  if match cooldown_until with Some cu => now <? cu | None => false end
  then None else
  let rpm_limit := int_or_0 (Doc.rpm_limit doc) in
  let rpd_limit := int_or_0 (Doc.rpd_limit doc) in
  if (rpm_limit <=? 0) || (rpd_limit <=? 0) then None else
  let '(minute_start, minute_count) :=
    _window_state (Doc.minute_window_started_at doc)
                  (Doc.minute_window_count doc) 60 now in
  let '(day_start, day_count) :=
    _window_state (Doc.day_started_at doc) (Doc.day_count doc) 86400 now in
  if (rpm_limit <=? minute_count) || (rpd_limit <=? day_count) then None else
  let remaining_rpm := (inject_Z (rpm_limit - minute_count) / inject_Z rpm_limit)%Q in
  let remaining_rpd := (inject_Z (rpd_limit - day_count) / inject_Z rpd_limit)%Q in
  let score := (remaining_rpm * (4 # 10) + remaining_rpd * (6 # 10))%Q in
  Some {| Cand.doc := doc;
          Cand.score := score;
          Cand.minute_start := minute_start;
          Cand.minute_count := minute_count;
          Cand.day_start := day_start;
          Cand.day_count := day_count;
          Cand.last_used_at := _ensure_utc (Doc.last_used_at doc) |}.

(** ** Binary64 arithmetic

    The operations of Python's [float] that the score goes through, on
    the rationals that binary64 numbers are: each returns the binary64
    number nearest to the exact result, the one with an even significand
    of two that are equally near, subnormal numbers included. Results
    of [2^1024] and more are not represented: the integers of a stored
    document are 64-bit numbers, and their quotients are far below. *)

Module Binary64.

(** [2^e] for an integer [e]. *)
Definition pow2 (e : Z) : Q :=
  if 0 <=? e then inject_Z (2 ^ e) else 1 # Z.to_pos (2 ^ (- e)).

(** The integer [e] with [2^e <= q < 2^(e+1)], for a positive [q]. *)
Definition floor_log2 (q : Q) : Z :=
  let e := Z.log2 (Qnum q) - Z.log2 (Z.pos (Qden q)) in
  if Qle_bool (pow2 e) q then e else e - 1.

(** The integer nearest to a rational that is not negative, the even one
    of two that are equally near. *)
Definition round_half_even (q : Q) : Z :=
  let f := Qfloor q in
  match Qcompare (q - inject_Z f) (1 # 2) with
  | Lt => f
  | Gt => f + 1
  | Eq => if Z.even f then f else f + 1
  end.

(** The binary64 number nearest to a positive [q]: a significand of 53
    bits, and the exponent of the subnormal numbers at the least. *)
Definition nearest_positive (q : Q) : Q :=
  let p := Z.max (floor_log2 q - 52) (-1074) in
  (inject_Z (round_half_even (q / pow2 p)) * pow2 p)%Q.

(** The binary64 number nearest to [q]; also the value of a literal. *)
Definition nearest (q : Q) : Q :=
  match Qcompare q 0 with
  | Eq => 0%Q
  | Gt => nearest_positive q
  | Lt => (- nearest_positive (- q))%Q
  end.

(** [a / b] on two [int]s, [b] not zero: the quotient correctly rounded. *)
Definition true_divide (a b : Z) : Q := nearest (inject_Z a / inject_Z b).

(** [x * y] and [x + y] on two [float]s. *)
Definition multiply (x y : Q) : Q := nearest (x * y).

Definition add (x y : Q) : Q := nearest (x + y).

End Binary64.

(** ** Ordering of candidates *)

(** [candidate["score"]] as the code holds it: the binary64 evaluation of
    [(remaining_rpm * 0.4) + (remaining_rpd * 0.6)], the two ratios being
    the quotients of the integers of the candidate. [Cand.score] is the
    exact value of the same formula. *)
Definition binary64_score (item : Cand.t) : Q :=
  let rpm_limit := int_or_0 (Doc.rpm_limit (Cand.doc item)) in
  let rpd_limit := int_or_0 (Doc.rpd_limit (Cand.doc item)) in
  let remaining_rpm :=
    Binary64.true_divide (rpm_limit - Cand.minute_count item) rpm_limit in
  let remaining_rpd :=
    Binary64.true_divide (rpd_limit - Cand.day_count item) rpd_limit in
  Binary64.add (Binary64.multiply remaining_rpm (Binary64.nearest (4 # 10)))
               (Binary64.multiply remaining_rpd (Binary64.nearest (6 # 10))).

(** [a < b] on the tuples [(-score, last_used_at or datetime.min)]: the
    first components decide unless they are equal. *)
Definition key_lt (a b : Q * datetime) : bool :=
  if Qeq_bool (fst a) (fst b) then snd a <? snd b else Qlt_bool (fst a) (fst b).

(** The sort key of [candidates.sort(key=...)]. *)
Definition sort_key (item : Cand.t) : Q * datetime :=
  ((- binary64_score item)%Q, default datetime_min_utc (Cand.last_used_at item)).

(** [list.sort] is a stable comparison sort that only asks [x < y]; its
    result is the one of a stable insertion sort. [insert_by lt x l] puts
    [x], which came before the elements of [l], in front of the first
    element that is not smaller than it. *)
Fixpoint insert_by {A : Type} (lt : A -> A -> bool) (x : A) (l : list A) : list A :=
  match l with
  | [] => [x]
  | y :: l' => if lt y x then y :: insert_by lt x l' else x :: y :: l'
  end.

Definition stable_sort {A : Type} (lt : A -> A -> bool) (l : list A) : list A :=
  foldr (insert_by lt) [] l.

(** The body of [_select_key_candidates] once the pool [keys] and the
    current time are read. *)
Definition select_key_candidates (keys : list Doc.t) (now : datetime) : list Cand.t :=
  let candidates := omap (fun doc => _build_key_candidate doc now) keys in
  stable_sort (fun a b => key_lt (sort_key a) (sort_key b)) candidates.

(** ** Concurrency gate *)

(** [_acquire_guild_slot(guild_id, max_concurrent)], run while holding the
    guild's lock: the read-modify-write of [guild_inflight] is one step. *)
Definition _acquire_guild_slot (guild_id max_concurrent : Z)
    (guild_inflight : gmap Z Z) : bool * gmap Z Z :=
  let inflight := default 0 (guild_inflight !! guild_id) in
  if max_concurrent <=? inflight then (false, guild_inflight)
  else (true, <[guild_id := inflight + 1]> guild_inflight).

(** [_release_guild_slot(guild_id)], also under the guild's lock. *)
Definition _release_guild_slot (guild_id : Z) (guild_inflight : gmap Z Z) : gmap Z Z :=
  let inflight := Z.max 0 (default 0 (guild_inflight !! guild_id) - 1) in
  if inflight =? 0 then delete guild_id guild_inflight
  else <[guild_id := inflight]> guild_inflight.

(** The calls made on the gate, in the order in which the locks serialize
    them. *)
Inductive gate_op :=
| Acquire (guild_id max_concurrent : Z)
| Release (guild_id : Z).

Definition gate_step (guild_inflight : gmap Z Z) (op : gate_op) : gmap Z Z :=
  match op with
  | Acquire g c => snd (_acquire_guild_slot g c guild_inflight)
  | Release g => _release_guild_slot g guild_inflight
  end.

Definition gate_run (ops : list gate_op) (guild_inflight : gmap Z Z) : gmap Z Z :=
  fold_left gate_step ops guild_inflight.

(** The in-flight count of a guild: [guild_inflight.get(guild_id, 0)]. *)
Definition inflight_of (guild_inflight : gmap Z Z) (guild_id : Z) : Z :=
  default 0 (guild_inflight !! guild_id).

(** Every acquisition for [guild_id] in [ops] asks for the ceiling [c]. *)
Definition uses_ceiling (guild_id c : Z) (ops : list gate_op) : Prop :=
  Forall (fun op => match op with
                    | Acquire g c' => g = guild_id -> c' = c
                    | Release _ => True
                    end) ops.

(** ** Cooldown tracker *)

(** [_cooldown_remaining(last_ts, cooldown_seconds)]; [monotonic] is the
    value read from [time.monotonic()]. [max(0.0, remaining)] is
    [remaining] only when [remaining > 0.0]. *)
Definition _cooldown_remaining (last_ts : option Q) (cooldown_seconds : Z)
    (monotonic : Q) : Q :=
  match last_ts with
  | None => 0%Q
  | Some ts =>
      let remaining := (inject_Z cooldown_seconds - (monotonic - ts))%Q in
      if Qlt_bool 0 remaining then remaining else 0%Q
  end.

Definition user_cooldown_message (remaining : Q) : string :=
  "Cooldown active. Try again in " +:+ pretty (int_of_Q remaining) +:+ "s.".

Definition channel_cooldown_message (remaining : Q) : string :=
  "Channel cooldown active. Try again in " +:+ pretty (int_of_Q remaining) +:+ "s.".

(** [_check_cooldowns(guild_id, user_id, channel_id, user_cooldown,
    channel_cooldown)]; [t_user] and [t_channel] are the two readings of
    the monotonic clock, the second being taken only when the first check
    passes. *)
Definition _check_cooldowns (user_cooldowns channel_cooldowns : gmap (Z * Z) Q)
    (guild_id user_id channel_id user_cooldown channel_cooldown : Z)
    (t_user t_channel : Q) : option string :=
  let user_key := (guild_id, user_id) in
  let channel_key := (guild_id, channel_id) in
  let user_remaining :=
    _cooldown_remaining (user_cooldowns !! user_key) user_cooldown t_user in
  if Qlt_bool 0 user_remaining then Some (user_cooldown_message user_remaining)
  else
    let channel_remaining :=
      _cooldown_remaining (channel_cooldowns !! channel_key) channel_cooldown t_channel in
    if Qlt_bool 0 channel_remaining
    then Some (channel_cooldown_message channel_remaining)
    else None.



(** ** Session trimming *)

Module Msg.

(** One turn of a session. *)
Record t := {
  role : option string;
  content : string;
  ts : datetime
}.

End Msg.

(** [msg.get("role") == "user"] *)
Definition is_user (msg : Msg.t) : bool :=
  match Msg.role msg with
  | Some r => String.eqb r "user"
  | None => false
  end.

(** The [for] loop of [_trim_messages] over the reversed messages, with its
    two variables [trimmed] and [user_turns]; [break] returns. *)
Fixpoint trim_loop (msgs : list Msg.t) (max_turns : Z)
    (trimmed : list Msg.t) (user_turns : Z) : list Msg.t :=
  match msgs with
  | [] => trimmed
  | msg :: rest =>
      let user_turns := if is_user msg then user_turns + 1 else user_turns in
      let trimmed := trimmed ++ [msg] in
      if max_turns <=? user_turns then trimmed
      else trim_loop rest max_turns trimmed user_turns
  end.

(** [_trim_messages(messages, max_turns)] *)
Definition _trim_messages (messages : list Msg.t) (max_turns : Z) : list Msg.t :=
  if max_turns <=? 0 then []
  else rev (trim_loop (rev messages) max_turns [] 0).

(** The number of user-authored turns of a sequence. *)
Definition user_turns_of (msgs : list Msg.t) : Z :=
  Z.of_nat (length (List.filter is_user msgs)).

(** ** Exceptions *)

(** The exception classes that the modelled code can meet. [BinasciiError]
    is [binascii.Error], [NaclValueError] is [nacl.exceptions.ValueError],
    [CryptoError] is [nacl.exceptions.CryptoError], [ClientError] stands for
    the transport failures of the HTTP client (connection errors and
    timeouts). *)
Inductive exc_class :=
| ValueError
| BinasciiError
| UnicodeDecodeError
| NaclValueError
| CryptoError
| KeyError
| IndexError
| TypeError
| OverflowError
| ClientError.

(** [isinstance(exc, ValueError)]: [binascii.Error], [UnicodeDecodeError]
    and [nacl.exceptions.ValueError] are subclasses of [ValueError]. *)
Definition is_ValueError (c : exc_class) : bool :=
  match c with
  | ValueError | BinasciiError | UnicodeDecodeError | NaclValueError => true
  | _ => false
  end.

(** An exception object: its class and [str(exc)]. *)
Record exc := { exc_class_of : exc_class; exc_str : string }.

Inductive result (A : Type) :=
| Ok (a : A)
| Raise (e : exc).

Arguments Ok {A} a.
Arguments Raise {A} e.

Definition raise_ {A : Type} (c : exc_class) (msg : string) : result A :=
  Raise {| exc_class_of := c; exc_str := msg |}.

Definition bind_result {A B : Type} (r : result A) (k : A -> result B) : result B :=
  match r with
  | Ok a => k a
  | Raise e => Raise e
  end.

Notation "'try!' x ':=' r 'in' k" := (bind_result r (fun x => k))
  (at level 10, x name, r at level 100, k at level 200).

(** ** Date arithmetic

    Durations and dates have a range, and leaving it raises
    [OverflowError]. *)

(** [datetime.max.replace(tzinfo=timezone.utc)], the last microsecond of
    the year 9999. *)
Definition datetime_max_utc : datetime := 315537897599999999.

(** [timedelta(seconds=n)] for an integer [n], in microseconds. The number
    of days of the duration, [n // 86400], is first converted to a C [int]
    and then checked against the range of [timedelta]. *)
Definition timedelta_seconds (n : Z) : result Z :=
  let days := n / 86400 in
  if (days <? -2147483648) || (2147483647 <? days)
  then raise_ OverflowError "Python int too large to convert to C int"
  else if 999999999 <? Z.abs days
  then raise_ OverflowError
         ("days=" +:+ pretty days +:+ "; must have magnitude <= 999999999")
  else Ok (n * 1000000).

(** [value + delta] for an aware [datetime] and a [timedelta]. *)
Definition datetime_add (value : datetime) (delta : Z) : result datetime :=
  let sum := value + delta in
  if (sum <? datetime_min_utc) || (datetime_max_utc <? sum)
  then raise_ OverflowError "date value out of range"
  else Ok sum.

(** ** Operations on decoded JSON values *)

(** Truth value of a Python object. *)
Definition truthy (v : json) : bool :=
  match v with
  | JNull => false
  | JBool b => b
  | JInt z => negb (z =? 0)
  | JFloat FNan => true
  | JFloat (FInf _) => true
  | JFloat (FFin q) => negb (Qeq_bool q 0)
  | JStr s => negb (String.eqb s "")
  | JArr l => match l with [] => false | _ => true end
  | JObj items => match items with [] => false | _ => true end
  end.

(** [d.get(key)] on the items of a dictionary *)
Fixpoint dict_get (key : string) (items : list (string * json)) : json :=
  match items with
  | [] => JNull
  | (k, v) :: rest => if String.eqb k key then v else dict_get key rest
  end.

Fixpoint dict_mem (key : string) (items : list (string * json)) : bool :=
  match items with
  | [] => false
  | (k, _) :: rest => String.eqb k key || dict_mem key rest
  end.

(** [type(v).__name__] *)
Definition type_name (v : json) : string :=
  match v with
  | JNull => "NoneType"
  | JBool _ => "bool"
  | JInt _ => "int"
  | JFloat _ => "float"
  | JStr _ => "str"
  | JArr _ => "list"
  | JObj _ => "dict"
  end.

Definition not_subscriptable {A : Type} (v : json) : result A :=
  raise_ TypeError ("'" +:+ type_name v +:+ "' object is not subscriptable").

(** [v[key]] for a string [key] *)
Definition subscript_key (v : json) (key : string) : result json :=
  match v with
  | JObj items =>
      if dict_mem key items then Ok (dict_get key items)
      else raise_ KeyError ("'" +:+ key +:+ "'")
  | JArr _ => raise_ TypeError "list indices must be integers or slices, not str"
  | JStr _ => raise_ TypeError "string indices must be integers"
  | _ => not_subscriptable v
  end.

(** [v[0]]; the keys of a decoded JSON object are strings, so [0] is never
    one of them. *)
Definition subscript_0 (v : json) : result json :=
  match v with
  | JObj _ => raise_ KeyError "0"
  | JArr (x :: _) => Ok x
  | JArr [] => raise_ IndexError "list index out of range"
  | JStr (String c _) => Ok (JStr (String c EmptyString))
  | JStr EmptyString => raise_ IndexError "string index out of range"
  | _ => not_subscriptable v
  end.

Definition MAX_STATUS_TEXT : nat := 600.

(** [v[:MAX_STATUS_TEXT]]: strings and lists can be sliced; a slice is
    not a key that a dictionary accepts; the other values have no
    subscript. *)
Definition slice_status_text (v : json) : result json :=
  match v with
  | JStr s => Ok (JStr (String.substring 0 MAX_STATUS_TEXT s))
  | JArr l => Ok (JArr (take MAX_STATUS_TEXT l))
  | JObj _ => raise_ TypeError "unhashable type: 'slice'"
  | _ => not_subscriptable v
  end.

(** [data["choices"][0]["message"]["content"]] *)
Definition completion_content (data : json) : result json :=
  try! choices := subscript_key data "choices" in
  try! choice := subscript_0 choices in
  try! message := subscript_key choice "message" in
  subscript_key message "content".

(** The exceptions caught by [except (KeyError, IndexError, TypeError)]. *)
Definition is_lookup_error (c : exc_class) : bool :=
  match c with
  | KeyError | IndexError | TypeError => true
  | _ => false
  end.

(** The error message that [_call_openrouter] derives from a response that
    is not a completion: [data["error"]["message"]], [data["error"]] when
    it is a string, else the start of the body text, else a fixed text. *)
Definition extract_error_message (data : json) (text : string) : json :=
  let error_message :=
    match data with
    | JObj items =>
        let error_info :=
          let e := dict_get "error" items in
          if truthy e then e else JObj [] in
        match error_info with
        | JObj info => dict_get "message" info
        | JStr s => JStr s
        | _ => JNull
        end
    | _ => JNull
    end in
  if negb (truthy error_message)
  then (if negb (String.eqb text "")
        then JStr (String.substring 0 MAX_STATUS_TEXT text)
        else JStr "OpenRouter error")
  else error_message.

(** [int(f)] on a float *)
Definition int_of_float (f : pyfloat) : result Z :=
  match f with
  | FNan => raise_ ValueError "cannot convert float NaN to integer"
  | FInf _ => raise_ OverflowError "cannot convert float infinity to integer"
  | FFin q => Ok (int_of_Q q)
  end.

(** ** The world around the dispatcher *)

(** [(status, data, text, headers)] as returned by [request_json]; of the
    headers only [headers.get("Retry-After")] is read. *)
Record response := {
  status : Z;
  data : json;
  text : string;
  retry_after : option string
}.

(** ** The chat platform, as the notification of a disabled key sees it *)

(** What [await channel.send(embed=embed)] does: it returns, it raises
    [discord.Forbidden], or it raises another exception. *)
Inductive send_outcome :=
| Sent
| Send_forbidden
| Send_raises (e : exc).

(** A channel: what sending an embed to it does, an embed being given by
    the key name and the status that its text is made of. *)
Record channel := {
  channel_id : Z;
  channel_send : string * Z -> send_outcome
}.

(** What [await guild.fetch_channel(channel_id)] does: it returns a
    channel, it raises [discord.HTTPException] (or a subclass of it), or
    it raises another exception. *)
Inductive fetch_outcome :=
| Fetched (c : channel)
| Fetch_http_exception
| Fetch_raises (e : exc).

(** A guild: [guild.get_channel(channel_id)], which reads the cache, and
    [guild.fetch_channel(channel_id)]. *)
Record guild := {
  guild_get_channel : Z -> option channel;
  guild_fetch_channel : Z -> fetch_outcome
}.

(** The configuration document of a guild, as far as
    [resolve_log_channel] reads it: the map under ["log_channels"] and the
    id under ["log_channel"], [None] standing for a key that is absent or
    holds [None], and an entry missing from the map for a purpose that is
    absent or holds [None]. Channel ids are integers. *)
Record guild_config := {
  log_channels : option (gmap string Z);
  log_channel : option Z
}.

(** What the dispatcher cannot compute by itself: the process environment,
    the library functions used by [decrypt_api_key] and by the parsing of
    [Retry-After], the wall clock, the upstream service, and the chat
    platform and the guild configuration read for a notification. *)
Record world := {
  (** [os.getenv(name)] *)
  getenv : string -> option string;
  (** [hashlib.sha256(s.encode("utf-8")).digest()] *)
  sha256 : string -> list Byte.byte;
  (** [base64.b64decode(s)] *)
  b64decode : string -> result (list Byte.byte);
  (** [SecretBox(key).decrypt(ciphertext, nonce)] *)
  secretbox_decrypt : list Byte.byte -> list Byte.byte -> list Byte.byte ->
                      result (list Byte.byte);
  (** [b.decode("utf-8")] *)
  utf8_decode : list Byte.byte -> result string;
  (** [float(s)] on a string; [None] when it raises [ValueError] *)
  float_of_str : string -> option pyfloat;
  (** the value of the n-th reading of [datetime.now(timezone.utc)] *)
  clock : nat -> datetime;
  (** the outcome of the n-th call of
      [request_json("POST", "/chat/completions", api_key, payload)] *)
  request_json : nat -> string -> json -> result response;
  (** [bot.get_guild(guild_id)] after [n] upstream calls: the guild, if
      it is in the cache *)
  bot_get_guild : nat -> Z -> option guild;
  (** [await db.get_guild(guild_id)] after [n] upstream calls. Modelled
      from its use in [utils/logs.py], [database/db_manager.py] not being
      among the sources: the configuration document of the guild, [None]
      when there is none, or an exception of the database driver *)
  db_get_guild : nat -> Z -> result (option guild_config)
}.

(** The mutable state: the credential collection, the number of clock
    readings so far, the API keys sent upstream so far (oldest first) and
    the operator notifications emitted so far (key name and status). *)
Record state := {
  store : list Doc.t;
  ticks : nat;
  calls : list string;
  notices : list (string * Z)
}.

(** Computations that read and change the state and may raise. *)
Definition M (A : Type) : Type := state -> result A * state.

Definition ret {A : Type} (a : A) : M A := fun st => (Ok a, st).

Definition throw {A : Type} (e : exc) : M A := fun st => (Raise e, st).

Definition bind {A B : Type} (m : M A) (k : A -> M B) : M B :=
  fun st =>
    match m st with
    | (Ok a, st') => k a st'
    | (Raise e, st') => (Raise e, st')
    end.

Definition lift {A : Type} (r : result A) : M A := fun st => (r, st).

Notation "'let!' x ':=' m 'in' k" := (bind m (fun x => k))
  (at level 10, x name, m at level 100, k at level 200).
Notation "'do!' m 'in' k" := (bind m (fun _ => k))
  (at level 10, m at level 100, k at level 200).

(** ** [utils/ai_keys.py] *)

Definition ENC_SECRET_ENV : string := "LOGIQ_AI_KEY_ENC_SECRET".

(** [_derive_key(secret_value)] *)
Definition _derive_key (W : world) (secret_value : string) : list Byte.byte :=
  sha256 W secret_value.

(** [_get_secret_key()] *)
Definition _get_secret_key (W : world) : result (list Byte.byte) :=
  match getenv W ENC_SECRET_ENV with
  | None => raise_ ValueError (ENC_SECRET_ENV +:+ " is not set")
  | Some secret_value =>
      if String.eqb secret_value ""
      then raise_ ValueError (ENC_SECRET_ENV +:+ " is not set")
      else Ok (_derive_key W secret_value)
  end.

(** [payload[key]] on the stored [Dict[str, str]] *)
Definition payload_item (payload : gmap string string) (key : string) : result string :=
  match payload !! key with
  | Some v => Ok v
  | None => raise_ KeyError ("'" +:+ key +:+ "'")
  end.

(** [decrypt_api_key(payload)] *)
Definition decrypt_api_key (W : world) (payload : gmap string string) : result string :=
  try! box_key := _get_secret_key W in
  try! nonce_text := payload_item payload "nonce" in
  try! nonce := b64decode W nonce_text in
  try! ciphertext_text := payload_item payload "ciphertext" in
  try! ciphertext := b64decode W ciphertext_text in
  try! plain := secretbox_decrypt W box_key ciphertext nonce in
  utf8_decode W plain.

(** [decrypt_api_key(doc["encrypted_api_key"])] *)
Definition decrypt_doc_key (W : world) (doc : Doc.t) : result string :=
  match Doc.encrypted_api_key doc with
  | None => raise_ KeyError "'encrypted_api_key'"
  | Some payload => decrypt_api_key W payload
  end.

(** ** Credential store *)

(** One entry [key: value] of the dictionary passed to
    [update_ai_api_key]; the value [None] is Python's [None]. *)
Inductive field_update :=
| Set_enabled (v : option bool)
| Set_cooldown_until (v : option datetime)
| Set_minute_window_started_at (v : option datetime)
| Set_minute_window_count (v : option Z)
| Set_day_started_at (v : option datetime)
| Set_day_count (v : option Z)
| Set_last_used_at (v : option datetime)
| Set_last_error (v : option json)
| Set_last_error_code (v : option Z)
| Set_last_error_at (v : option datetime)
| Set_updated_at (v : option datetime).

(** The document with one field replaced. *)
Definition set_field (d : Doc.t) (u : field_update) : Doc.t :=
  match u with
  | Set_enabled v =>
      {| Doc.guild_id := Doc.guild_id d; Doc.name := Doc.name d;
         Doc.encrypted_api_key := Doc.encrypted_api_key d; Doc.enabled := v;
         Doc.cooldown_until := Doc.cooldown_until d;
         Doc.rpm_limit := Doc.rpm_limit d; Doc.rpd_limit := Doc.rpd_limit d;
         Doc.minute_window_started_at := Doc.minute_window_started_at d;
         Doc.minute_window_count := Doc.minute_window_count d;
         Doc.day_started_at := Doc.day_started_at d;
         Doc.day_count := Doc.day_count d;
         Doc.last_used_at := Doc.last_used_at d;
         Doc.last_error := Doc.last_error d;
         Doc.last_error_code := Doc.last_error_code d;
         Doc.last_error_at := Doc.last_error_at d;
         Doc.updated_at := Doc.updated_at d |}
  | Set_cooldown_until v =>
      {| Doc.guild_id := Doc.guild_id d; Doc.name := Doc.name d;
         Doc.encrypted_api_key := Doc.encrypted_api_key d;
         Doc.enabled := Doc.enabled d; Doc.cooldown_until := v;
         Doc.rpm_limit := Doc.rpm_limit d; Doc.rpd_limit := Doc.rpd_limit d;
         Doc.minute_window_started_at := Doc.minute_window_started_at d;
         Doc.minute_window_count := Doc.minute_window_count d;
         Doc.day_started_at := Doc.day_started_at d;
         Doc.day_count := Doc.day_count d;
         Doc.last_used_at := Doc.last_used_at d;
         Doc.last_error := Doc.last_error d;
         Doc.last_error_code := Doc.last_error_code d;
         Doc.last_error_at := Doc.last_error_at d;
         Doc.updated_at := Doc.updated_at d |}
  | Set_minute_window_started_at v =>
      {| Doc.guild_id := Doc.guild_id d; Doc.name := Doc.name d;
         Doc.encrypted_api_key := Doc.encrypted_api_key d;
         Doc.enabled := Doc.enabled d;
         Doc.cooldown_until := Doc.cooldown_until d;
         Doc.rpm_limit := Doc.rpm_limit d; Doc.rpd_limit := Doc.rpd_limit d;
         Doc.minute_window_started_at := v;
         Doc.minute_window_count := Doc.minute_window_count d;
         Doc.day_started_at := Doc.day_started_at d;
         Doc.day_count := Doc.day_count d;
         Doc.last_used_at := Doc.last_used_at d;
         Doc.last_error := Doc.last_error d;
         Doc.last_error_code := Doc.last_error_code d;
         Doc.last_error_at := Doc.last_error_at d;
         Doc.updated_at := Doc.updated_at d |}
  | Set_minute_window_count v =>
      {| Doc.guild_id := Doc.guild_id d; Doc.name := Doc.name d;
         Doc.encrypted_api_key := Doc.encrypted_api_key d;
         Doc.enabled := Doc.enabled d;
         Doc.cooldown_until := Doc.cooldown_until d;
         Doc.rpm_limit := Doc.rpm_limit d; Doc.rpd_limit := Doc.rpd_limit d;
         Doc.minute_window_started_at := Doc.minute_window_started_at d;
         Doc.minute_window_count := v;
         Doc.day_started_at := Doc.day_started_at d;
         Doc.day_count := Doc.day_count d;
         Doc.last_used_at := Doc.last_used_at d;
         Doc.last_error := Doc.last_error d;
         Doc.last_error_code := Doc.last_error_code d;
         Doc.last_error_at := Doc.last_error_at d;
         Doc.updated_at := Doc.updated_at d |}
  | Set_day_started_at v =>
      {| Doc.guild_id := Doc.guild_id d; Doc.name := Doc.name d;
         Doc.encrypted_api_key := Doc.encrypted_api_key d;
         Doc.enabled := Doc.enabled d;
         Doc.cooldown_until := Doc.cooldown_until d;
         Doc.rpm_limit := Doc.rpm_limit d; Doc.rpd_limit := Doc.rpd_limit d;
         Doc.minute_window_started_at := Doc.minute_window_started_at d;
         Doc.minute_window_count := Doc.minute_window_count d;
         Doc.day_started_at := v; Doc.day_count := Doc.day_count d;
         Doc.last_used_at := Doc.last_used_at d;
         Doc.last_error := Doc.last_error d;
         Doc.last_error_code := Doc.last_error_code d;
         Doc.last_error_at := Doc.last_error_at d;
         Doc.updated_at := Doc.updated_at d |}
  | Set_day_count v =>
      {| Doc.guild_id := Doc.guild_id d; Doc.name := Doc.name d;
         Doc.encrypted_api_key := Doc.encrypted_api_key d;
         Doc.enabled := Doc.enabled d;
         Doc.cooldown_until := Doc.cooldown_until d;
         Doc.rpm_limit := Doc.rpm_limit d; Doc.rpd_limit := Doc.rpd_limit d;
         Doc.minute_window_started_at := Doc.minute_window_started_at d;
         Doc.minute_window_count := Doc.minute_window_count d;
         Doc.day_started_at := Doc.day_started_at d; Doc.day_count := v;
         Doc.last_used_at := Doc.last_used_at d;
         Doc.last_error := Doc.last_error d;
         Doc.last_error_code := Doc.last_error_code d;
         Doc.last_error_at := Doc.last_error_at d;
         Doc.updated_at := Doc.updated_at d |}
  | Set_last_used_at v =>
      {| Doc.guild_id := Doc.guild_id d; Doc.name := Doc.name d;
         Doc.encrypted_api_key := Doc.encrypted_api_key d;
         Doc.enabled := Doc.enabled d;
         Doc.cooldown_until := Doc.cooldown_until d;
         Doc.rpm_limit := Doc.rpm_limit d; Doc.rpd_limit := Doc.rpd_limit d;
         Doc.minute_window_started_at := Doc.minute_window_started_at d;
         Doc.minute_window_count := Doc.minute_window_count d;
         Doc.day_started_at := Doc.day_started_at d;
         Doc.day_count := Doc.day_count d; Doc.last_used_at := v;
         Doc.last_error := Doc.last_error d;
         Doc.last_error_code := Doc.last_error_code d;
         Doc.last_error_at := Doc.last_error_at d;
         Doc.updated_at := Doc.updated_at d |}
  | Set_last_error v =>
      {| Doc.guild_id := Doc.guild_id d; Doc.name := Doc.name d;
         Doc.encrypted_api_key := Doc.encrypted_api_key d;
         Doc.enabled := Doc.enabled d;
         Doc.cooldown_until := Doc.cooldown_until d;
         Doc.rpm_limit := Doc.rpm_limit d; Doc.rpd_limit := Doc.rpd_limit d;
         Doc.minute_window_started_at := Doc.minute_window_started_at d;
         Doc.minute_window_count := Doc.minute_window_count d;
         Doc.day_started_at := Doc.day_started_at d;
         Doc.day_count := Doc.day_count d;
         Doc.last_used_at := Doc.last_used_at d; Doc.last_error := v;
         Doc.last_error_code := Doc.last_error_code d;
         Doc.last_error_at := Doc.last_error_at d;
         Doc.updated_at := Doc.updated_at d |}
  | Set_last_error_code v =>
      {| Doc.guild_id := Doc.guild_id d; Doc.name := Doc.name d;
         Doc.encrypted_api_key := Doc.encrypted_api_key d;
         Doc.enabled := Doc.enabled d;
         Doc.cooldown_until := Doc.cooldown_until d;
         Doc.rpm_limit := Doc.rpm_limit d; Doc.rpd_limit := Doc.rpd_limit d;
         Doc.minute_window_started_at := Doc.minute_window_started_at d;
         Doc.minute_window_count := Doc.minute_window_count d;
         Doc.day_started_at := Doc.day_started_at d;
         Doc.day_count := Doc.day_count d;
         Doc.last_used_at := Doc.last_used_at d;
         Doc.last_error := Doc.last_error d; Doc.last_error_code := v;
         Doc.last_error_at := Doc.last_error_at d;
         Doc.updated_at := Doc.updated_at d |}
  | Set_last_error_at v =>
      {| Doc.guild_id := Doc.guild_id d; Doc.name := Doc.name d;
         Doc.encrypted_api_key := Doc.encrypted_api_key d;
         Doc.enabled := Doc.enabled d;
         Doc.cooldown_until := Doc.cooldown_until d;
         Doc.rpm_limit := Doc.rpm_limit d; Doc.rpd_limit := Doc.rpd_limit d;
         Doc.minute_window_started_at := Doc.minute_window_started_at d;
         Doc.minute_window_count := Doc.minute_window_count d;
         Doc.day_started_at := Doc.day_started_at d;
         Doc.day_count := Doc.day_count d;
         Doc.last_used_at := Doc.last_used_at d;
         Doc.last_error := Doc.last_error d;
         Doc.last_error_code := Doc.last_error_code d; Doc.last_error_at := v;
         Doc.updated_at := Doc.updated_at d |}
  | Set_updated_at v =>
      {| Doc.guild_id := Doc.guild_id d; Doc.name := Doc.name d;
         Doc.encrypted_api_key := Doc.encrypted_api_key d;
         Doc.enabled := Doc.enabled d;
         Doc.cooldown_until := Doc.cooldown_until d;
         Doc.rpm_limit := Doc.rpm_limit d; Doc.rpd_limit := Doc.rpd_limit d;
         Doc.minute_window_started_at := Doc.minute_window_started_at d;
         Doc.minute_window_count := Doc.minute_window_count d;
         Doc.day_started_at := Doc.day_started_at d;
         Doc.day_count := Doc.day_count d;
         Doc.last_used_at := Doc.last_used_at d;
         Doc.last_error := Doc.last_error d;
         Doc.last_error_code := Doc.last_error_code d;
         Doc.last_error_at := Doc.last_error_at d; Doc.updated_at := v |}
  end.

(** The document after all the entries of an update, in order. *)
Definition apply_update (update : list field_update) (d : Doc.t) : Doc.t :=
  fold_left set_field update d.

(** Whether a document is the one with this tenant and name. *)
Definition has_key (guild_id : Z) (name : string) (d : Doc.t) : bool :=
  (Doc.guild_id d =? guild_id) && String.eqb (Doc.name d) name.

(** Modelled from the spec: [db.list_ai_api_keys(guild_id)] of
    [database/db_manager.py], which is not among the sources; it lists the
    credentials of a tenant. *)
Definition list_ai_api_keys (guild_id : Z) : M (list Doc.t) :=
  fun st => (Ok (List.filter (fun d => Doc.guild_id d =? guild_id) (store st)), st).

(** Modelled from the spec: [db.update_ai_api_key(guild_id, name, update)]
    of [database/db_manager.py], which is not among the sources; it updates
    the named fields on the credential of that tenant with that name and
    leaves every other field and every other credential as they are. *)
Definition update_ai_api_key (guild_id : Z) (name : string)
    (update : list field_update) : M unit :=
  fun st =>
    (Ok tt,
     {| store := List.map (fun d => if has_key guild_id name d
                                    then apply_update update d else d) (store st);
        ticks := ticks st;
        calls := calls st;
        notices := notices st |}).

(** [self._now()] *)
Definition _now (W : world) : M datetime :=
  fun st =>
    (Ok (clock W (ticks st)),
     {| store := store st; ticks := S (ticks st);
        calls := calls st; notices := notices st |}).

(** [await request_json("POST", "/chat/completions", api_key, payload)] *)
Definition call_request_json (W : world) (api_key : string) (payload : json)
    : M (result response) :=
  fun st =>
    (Ok (request_json W (length (calls st)) api_key payload),
     {| store := store st; ticks := ticks st;
        calls := calls st ++ [api_key]; notices := notices st |}).

(** ** [utils/logs.py] and the notification of a disabled key *)

(** [resolve_log_channel(db, guild, purpose)] after [n] upstream calls:
    the channel named for the purpose, else the one of the older
    [log_channel] key; a channel that is in the cache, else one that can
    be fetched. An id that is absent, [None] or 0 is not an id. *)
Definition resolve_log_channel (W : world) (n : nat) (guild_id : Z) (g : guild)
    (purpose : string) : result (option channel) :=
  try! guild_config := db_get_guild W n guild_id in
  match guild_config with
  | None => Ok None
  | Some config =>
      let purposes := default ∅ (log_channels config) in
      let channel_id :=
        match purposes !! purpose with
        | Some id => if id =? 0 then log_channel config else Some id
        | None => log_channel config
        end in
      match channel_id with
      | None => Ok None
      | Some id =>
          if id =? 0 then Ok None
          else match guild_get_channel g id with
               | Some c => Ok (Some c)
               | None =>
                   match guild_fetch_channel g id with
                   | Fetched c => Ok (Some c)
                   | Fetch_http_exception => Ok None
                   | Fetch_raises e => Raise e
                   end
               end
      end
  end.

(** The state after an embed about [key_name] and [code] was sent. *)
Definition notified (key_name : string) (code : Z) (st : state) : state :=
  {| store := store st; ticks := ticks st; calls := calls st;
     notices := notices st ++ [(key_name, code)] |}.

(** [_log_to_ai_channel(guild, embed)]: nothing is sent when no channel is
    resolved; [discord.Forbidden] raised by the sending is caught. *)
Definition _log_to_ai_channel (W : world) (guild_id : Z) (g : guild)
    (embed : string * Z) : M unit :=
  fun st =>
    match resolve_log_channel W (length (calls st)) guild_id g "ai" with
    | Raise e => (Raise e, st)
    | Ok None => (Ok tt, st)
    | Ok (Some c) =>
        match channel_send c embed with
        | Sent => (Ok tt, notified (fst embed) (snd embed) st)
        | Send_forbidden => (Ok tt, st)
        | Send_raises e => (Raise e, st)
        end
    end.

(** The operator notification of the 401/402 branch, under [if guild_id:]:
    the embed is built, and sent through [_log_to_ai_channel] when
    [bot.get_guild(guild_id)] returns a guild. *)
Definition notify_key_disabled (W : world) (guild_id : Z) (key_name : string)
    (status : Z) : M unit :=
  fun st =>
    match bot_get_guild W (length (calls st)) guild_id with
    | None => (Ok tt, st)
    | Some g => _log_to_ai_channel W guild_id g (key_name, status) st
    end.

(** ** Dispatcher *)

Definition MAX_KEY_ATTEMPTS : nat := 3.
Definition DEFAULT_RATE_LIMIT_COOLDOWN_SECONDS : Z := 30.
Definition DEFAULT_SERVER_ERROR_COOLDOWN_SECONDS : Z := 20.

(** [_select_key_candidates(guild_id)] *)
Definition _select_key_candidates (W : world) (guild_id : Z) : M (list Cand.t) :=
  let! keys := list_ai_api_keys guild_id in
  let! now := _now W in
  ret (select_key_candidates keys now).

(** The update dictionary of [_update_key_usage]. *)
Definition usage_update (candidate : Cand.t) (now : datetime) : list field_update :=
  [ Set_minute_window_started_at (Some (Cand.minute_start candidate));
    Set_minute_window_count (Some (Cand.minute_count candidate + 1));
    Set_day_started_at (Some (Cand.day_start candidate));
    Set_day_count (Some (Cand.day_count candidate + 1));
    Set_last_used_at (Some now);
    Set_last_error None;
    Set_last_error_code None;
    Set_last_error_at None;
    Set_updated_at (Some now) ].

(** [_update_key_usage(doc, candidate)] *)
Definition _update_key_usage (W : world) (doc : Doc.t) (candidate : Cand.t) : M unit :=
  let! now := _now W in
  update_ai_api_key (Doc.guild_id doc) (Doc.name doc) (usage_update candidate now).

(** [if cooldown_seconds:] on an [Optional[int]] *)
Definition cooldown_given (cooldown_seconds : option Z) : option Z :=
  match cooldown_seconds with
  | None => None
  | Some n => if n =? 0 then None else Some n
  end.

(** The value that [_set_key_error] writes to [cooldown_until], if any:
    [now + timedelta(seconds=cooldown_seconds)] under
    [if cooldown_seconds:]. *)
Definition cooldown_end (now : datetime) (cooldown_seconds : option Z)
    : result (option datetime) :=
  match cooldown_given cooldown_seconds with
  | None => Ok None
  | Some n =>
      try! delta := timedelta_seconds n in
      try! cooldown_until := datetime_add now delta in
      Ok (Some cooldown_until)
  end.

(** The update dictionary of [_set_key_error], [text] being
    [message[:MAX_STATUS_TEXT]] and [cooldown_until] the value computed for
    that key, if there is one. *)
Definition error_update (code : Z) (text : json) (cooldown_until : option datetime)
    (disable : bool) (now : datetime) : list field_update :=
  [ Set_last_error_code (Some code);
    Set_last_error (Some text);
    Set_last_error_at (Some now);
    Set_updated_at (Some now) ]
  ++ match cooldown_until with
     | Some t => [ Set_cooldown_until (Some t) ]
     | None => []
     end
  ++ (if disable then [ Set_enabled (Some false) ] else []).

(** [_set_key_error(doc, code, message, cooldown_seconds, disable)]: the
    dictionary is built, entry by entry, before the store is touched. *)
Definition _set_key_error (W : world) (doc : Doc.t) (code : Z) (message : json)
    (cooldown_seconds : option Z) (disable : bool) : M unit :=
  let! now := _now W in
  let! text := lift (slice_status_text message) in
  let! cooldown_until := lift (cooldown_end now cooldown_seconds) in
  update_ai_api_key (Doc.guild_id doc) (Doc.name doc)
    (error_update code text cooldown_until disable now).

(** The cooldown of the 429 branch: the default, replaced by
    [int(float(retry_after))] when the header is present and not empty,
    and kept when the conversion raises [ValueError]. *)
Definition rate_limit_cooldown (W : world) (retry_after : option string) : result Z :=
  match retry_after with
  | None => Ok DEFAULT_RATE_LIMIT_COOLDOWN_SECONDS
  | Some s =>
      if String.eqb s "" then Ok DEFAULT_RATE_LIMIT_COOLDOWN_SECONDS
      else match float_of_str W s with
           | None => Ok DEFAULT_RATE_LIMIT_COOLDOWN_SECONDS
           | Some f =>
               match int_of_float f with
               | Ok n => Ok n
               | Raise e =>
                   if is_ValueError (exc_class_of e)
                   then Ok DEFAULT_RATE_LIMIT_COOLDOWN_SECONDS
                   else Raise e
               end
           end
  end.

(** How one iteration of the [for] loop ends: [continue] with the new
    [last_error], [break] with it, or [return]. *)
Inductive step :=
| Continue (last_error : json)
| Break (last_error : json)
| Return (r : json * json).

(** The part of an iteration that follows a response which is not taken as
    a completion. *)
Definition handle_error_response (W : world) (guild_id : Z) (doc : Doc.t)
    (r : response) : M step :=
  let error_message := extract_error_message (data r) (text r) in
  if status r =? 429 then
    let! cooldown := lift (rate_limit_cooldown W (retry_after r)) in
    do! _set_key_error W doc (status r) error_message (Some cooldown) false in
    ret (Continue (JStr "AI rate limit reached. Retrying with another key."))
  else if (status r =? 401) || (status r =? 402) then
    do! _set_key_error W doc (status r) error_message None true in
    do! (if guild_id =? 0 then ret tt
         else notify_key_disabled W guild_id (Doc.name doc) (status r)) in
    ret (Continue (JStr "AI key disabled due to authorization or credit error."))
  else if 500 <=? status r then
    do! _set_key_error W doc (status r) error_message
          (Some DEFAULT_SERVER_ERROR_COOLDOWN_SECONDS) false in
    ret (Continue (JStr "OpenRouter server error. Retrying with another key."))
  else
    do! _set_key_error W doc (status r) error_message
          (Some DEFAULT_RATE_LIMIT_COOLDOWN_SECONDS) false in
    ret (Break error_message).

(** The part of an iteration that follows the update of the usage: the
    upstream call and the handling of its outcome. *)
Definition after_reservation (W : world) (guild_id : Z) (payload : json)
    (candidate : Cand.t) (api_key : string) : M step :=
  let doc := Cand.doc candidate in
  let! outcome := call_request_json W api_key payload in
  match outcome with
  | Raise _ =>
      do! _set_key_error W doc 0 (JStr "OpenRouter request failed")
            (Some DEFAULT_SERVER_ERROR_COOLDOWN_SECONDS) false in
      ret (Continue (JStr "OpenRouter request failed. Please try again."))
  | Ok r =>
      if (status r =? 200) && truthy (data r) then
        match completion_content (data r) with
        | Ok content => ret (Return (content, JNull))
        | Raise e =>
            if is_lookup_error (exc_class_of e) then
              let last_error := JStr "OpenRouter response missing completion content." in
              do! _set_key_error W doc (status r) last_error
                    (Some DEFAULT_SERVER_ERROR_COOLDOWN_SECONDS) false in
              ret (Continue last_error)
            else throw e
        end
      else handle_error_response W guild_id doc r
  end.

(** The part of an iteration that follows a successful decryption. *)
Definition attempt_with_key (W : world) (guild_id : Z) (payload : json)
    (candidate : Cand.t) (api_key : string) : M step :=
  do! _update_key_usage W (Cand.doc candidate) candidate in
  after_reservation W guild_id payload candidate api_key.

(** One iteration of the [for] loop of [_call_openrouter]. *)
Definition attempt (W : world) (guild_id : Z) (payload : json)
    (candidate : Cand.t) : M step :=
  let doc := Cand.doc candidate in
  match decrypt_doc_key W doc with
  | Raise e =>
      if is_ValueError (exc_class_of e)
      then ret (Return (JNull, JStr (exc_str e)))
      else
        do! _set_key_error W doc 0 (JStr "Key decryption failed") None true in
        ret (Continue (JStr "AI key decryption failed."))
  | Ok api_key => attempt_with_key W guild_id payload candidate api_key
  end.

(** The [for] loop of [_call_openrouter] and the [return] after it. *)
Fixpoint failover_loop (W : world) (guild_id : Z) (payload : json)
    (candidates : list Cand.t) (last_error : json) : M (json * json) :=
  match candidates with
  | [] => ret (JNull, last_error)
  | candidate :: rest =>
      let! s := attempt W guild_id payload candidate in
      match s with
      | Continue e => failover_loop W guild_id payload rest e
      | Break e => ret (JNull, e)
      | Return r => ret r
      end
  end.

(** [_call_openrouter(guild_id, payload)]; the pair returned is
    [(text, error)], [JNull] being [None]. *)
Definition _call_openrouter (W : world) (guild_id : Z) (payload : json)
    : M (json * json) :=
  let! candidates := _select_key_candidates W guild_id in
  match candidates with
  | [] => ret (JNull, JStr "No available AI keys. Ask an admin to add or enable keys.")
  | _ => failover_loop W guild_id payload (take MAX_KEY_ATTEMPTS candidates)
           (JStr "OpenRouter request failed.")
  end.

(** The stored document of a tenant with a given name, if any. *)
Definition find_key (guild_id : Z) (name : string) (docs : list Doc.t) : option Doc.t :=
  List.find (has_key guild_id name) docs.

(** ** An executable world

    Concrete versions of the library functions, to run the dispatcher on
    concrete inputs. [b64decode] follows the decoder of CPython's
    [binascii.a2b_base64] in its default, non-strict mode. The other
    functions keep the checks of the real ones that raise and replace
    the cryptography by placeholders: they serve the closed examples only,
    the theorems are stated for every world. *)

Module PyRef.

Definition byte_of_N (n : N) : Byte.byte := default Byte.x00 (Byte.of_N n).

(** The value of a character of the base64 alphabet. *)
Definition b64_digit (c : ascii) : option N :=
  let n := N_of_ascii c in
  if (65 <=? n)%N && (n <=? 90)%N then Some (n - 65)%N
  else if (97 <=? n)%N && (n <=? 122)%N then Some (n - 71)%N
  else if (48 <=? n)%N && (n <=? 57)%N then Some (n + 4)%N
  else if (n =? 43)%N then Some 62%N
  else if (n =? 47)%N then Some 63%N
  else None.

(** The decoding loop: [quad_pos] is the position in the current group of
    four characters, [leftchar] the bits not yet written, [pads] the number
    of padding characters just seen, [out] the bytes written. Characters
    outside the alphabet are skipped; a complete padding ends the decoding;
    an incomplete group at the end is an error. *)
Fixpoint a2b_base64 (input : list ascii) (quad_pos leftchar pads : N)
    (out : list Byte.byte) : result (list Byte.byte) :=
  match input with
  | [] =>
      if (quad_pos =? 0)%N then Ok out
      else if (quad_pos =? 1)%N then
        raise_ BinasciiError
          ("Invalid base64-encoded string: number of data characters ("
           +:+ pretty (N.of_nat (length out) / 3 * 4 + 1)%N
           +:+ ") cannot be 1 more than a multiple of 4")
      else raise_ BinasciiError "Incorrect padding"
  | c :: rest =>
      if Ascii.eqb c "="%char then
        if (2 <=? quad_pos)%N then
          if (4 <=? quad_pos + (pads + 1))%N then Ok out
          else a2b_base64 rest quad_pos leftchar (pads + 1)%N out
        else a2b_base64 rest quad_pos leftchar pads out
      else
        match b64_digit c with
        | None => a2b_base64 rest quad_pos leftchar pads out
        | Some v =>
            if (quad_pos =? 0)%N then a2b_base64 rest 1%N v 0%N out
            else if (quad_pos =? 1)%N then
              a2b_base64 rest 2%N (N.land v 15) 0%N
                (out ++ [byte_of_N (N.lor (N.shiftl leftchar 2) (N.shiftr v 4))])
            else if (quad_pos =? 2)%N then
              a2b_base64 rest 3%N (N.land v 3) 0%N
                (out ++ [byte_of_N (N.lor (N.shiftl leftchar 4) (N.shiftr v 2))])
            else
              a2b_base64 rest 0%N 0%N 0%N
                (out ++ [byte_of_N (N.lor (N.shiftl leftchar 6) v)])
        end
  end.

Definition is_ascii (c : ascii) : bool := (N_of_ascii c <? 128)%N.

(** [base64.b64decode(s)] for a [str]: the text is first encoded as ASCII. *)
Definition ref_b64decode (s : string) : result (list Byte.byte) :=
  let chars := list_ascii_of_string s in
  if forallb is_ascii chars then a2b_base64 chars 0%N 0%N 0%N []
  else raise_ ValueError "string argument should contain only ASCII characters".

(** Placeholder for SHA-256: 32 bytes taken from the text, padded with
    zeros. *)
Definition ref_sha256 (s : string) : list Byte.byte :=
  take 32 (list_byte_of_string s ++ repeat Byte.x00 32).

Definition NONCE_SIZE : nat := 24.
Definition MACBYTES : nat := 16.

(** Placeholder for [SecretBox.decrypt]: the nonce must have
    [NONCE_SIZE] bytes ([nacl.exceptions.ValueError] otherwise), the
    ciphertext must start with an authenticator of [MACBYTES] bytes, here
    the start of the key ([CryptoError] otherwise); the rest is returned. *)
Definition ref_secretbox_decrypt (key ciphertext nonce : list Byte.byte)
    : result (list Byte.byte) :=
  if negb (Nat.eqb (length nonce) NONCE_SIZE)
  then raise_ NaclValueError "The nonce must be exactly 24 bytes long"
  else if String.eqb (string_of_list_byte (take MACBYTES ciphertext))
                     (string_of_list_byte (take MACBYTES key))
  then Ok (drop MACBYTES ciphertext)
  else raise_ CryptoError "Decryption failed. Ciphertext failed verification".

(** [b.decode("utf-8")] on its ASCII fragment; other bytes are refused. *)
Definition ref_utf8_decode (b : list Byte.byte) : result string :=
  let s := string_of_list_byte b in
  if forallb is_ascii (list_ascii_of_string s) then Ok s
  else raise_ UnicodeDecodeError "'utf-8' codec can't decode byte".

Definition digit_value (c : ascii) : option Z :=
  let n := N_of_ascii c in
  if (48 <=? n)%N && (n <=? 57)%N then Some (Z.of_N n - 48) else None.

(** The value of a string of decimal digits read after [acc]. *)
Fixpoint digits_value (acc : Z) (cs : list ascii) : option Z :=
  match cs with
  | [] => Some acc
  | c :: rest =>
      match digit_value c with
      | Some d => digits_value (10 * acc + d) rest
      | None => None
      end
  end.

(** The characters before the first point, and those after it if any. *)
Fixpoint split_point (cs : list ascii) : list ascii * option (list ascii) :=
  match cs with
  | [] => ([], None)
  | c :: rest =>
      if Ascii.eqb c "."%char then ([], Some rest)
      else let '(a, b) := split_point rest in (c :: a, b)
  end.

(** An unsigned decimal numeral [digits], [digits.digits], [digits.] or
    [.digits]. *)
Definition unsigned_decimal (cs : list ascii) : option Q :=
  let '(int_part, frac_part) := split_point cs in
  let frac := default [] frac_part in
  match int_part, frac with
  | [], [] => None
  | _, _ =>
      match digits_value 0 int_part, digits_value 0 frac with
      | Some i, Some f =>
          Some (inject_Z i + (f # Pos.pow 10 (Pos.of_nat (length frac))))%Q
      | _, _ => None
      end
  end.

(** [float(s)] on signed decimal numerals without exponent, [nan] and
    [inf]; any other text is refused. *)
Definition ref_float_of_str (s : string) : option pyfloat :=
  if String.eqb s "nan" then Some FNan
  else if String.eqb s "inf" then Some (FInf false)
  else if String.eqb s "-inf" then Some (FInf true)
  else
    match list_ascii_of_string s with
    | "-"%char :: cs => (fun q => FFin (- q)%Q) <$> unsigned_decimal cs
    | "+"%char :: cs => FFin <$> unsigned_decimal cs
    | cs => FFin <$> unsigned_decimal cs
    end.

(** A world built on these functions, with a given environment, clock and
    upstream service. *)
(** A channel that accepts every embed. *)
Definition open_channel (id : Z) : channel :=
  {| channel_id := id; channel_send := fun _ => Sent |}.

(** A guild with the channel 77 in its cache and no other channel. *)
Definition ref_guild : guild :=
  {| guild_get_channel := fun id => if id =? 77 then Some (open_channel 77) else None;
     guild_fetch_channel := fun _ => Fetch_http_exception |}.

(** A configuration that names the channel 77 for the purpose ["ai"]. *)
Definition ref_guild_config : guild_config :=
  {| log_channels := Some {[ "ai" := 77 ]}; log_channel := None |}.

(** A world with the library functions above, in which every guild is in
    the cache and is configured with a log channel that can be written
    to. *)
Definition make_world (env : string -> option string) (clock : nat -> datetime)
    (upstream : nat -> string -> json -> result response) : world :=
  {| getenv := env;
     sha256 := ref_sha256;
     b64decode := ref_b64decode;
     secretbox_decrypt := ref_secretbox_decrypt;
     utf8_decode := ref_utf8_decode;
     float_of_str := ref_float_of_str;
     clock := clock;
     request_json := upstream;
     bot_get_guild := fun _ _ => Some ref_guild;
     db_get_guild := fun _ _ => Ok (Some ref_guild_config) |}.

End PyRef.

(** ** Vocabulary of the properties *)

(** What makes a credential unusable at [now], on the limits read from the
    document and the counts of the advanced windows. *)
Definition ineligible (doc : Doc.t) (now : datetime) : Prop :=
  let rpm_limit := int_or_0 (Doc.rpm_limit doc) in
  let rpd_limit := int_or_0 (Doc.rpd_limit doc) in
  let minute := _window_state (Doc.minute_window_started_at doc)
                  (Doc.minute_window_count doc) 60 now in
  let day := _window_state (Doc.day_started_at doc) (Doc.day_count doc) 86400 now in
  Doc.enabled doc = Some false \/
  (exists cu, Doc.cooldown_until doc = Some cu /\ now < cu) \/
  rpm_limit <= 0 \/ rpd_limit <= 0 \/
  rpm_limit <= snd minute \/ rpd_limit <= snd day.

(** The second component of the sort key: [last_used_at or datetime.min]. *)
Definition last_used_key (c : Cand.t) : datetime :=
  default datetime_min_utc (Cand.last_used_at c).

(** [a] may stand before [b]: its score, as the code compares it, is not
    smaller, and with equal scores its last use is not later. *)
Definition ranked_before (a b : Cand.t) : Prop :=
  (binary64_score b <= binary64_score a)%Q /\
  ((binary64_score a == binary64_score b)%Q -> last_used_key a <= last_used_key b).

(** Among candidates of equal score, one that was never used stands before
    every one that has a recorded last use. *)
Definition never_used_first (result : list Cand.t) : Prop :=
  forall (i j : nat) (a b : Cand.t) (t : datetime),
    result !! i = Some a -> result !! j = Some b ->
    (binary64_score a == binary64_score b)%Q ->
    Cand.last_used_at a = None -> Cand.last_used_at b = Some t ->
    (i < j)%nat.

(** Every last use recorded in the pool is later than [datetime.min], as
    is every reading of the clock, the only value that the program writes
    to [last_used_at]. *)
Definition last_uses_recorded_by_clock (keys : list Doc.t) : Prop :=
  forall (doc : Doc.t) (t : datetime),
    In doc keys -> Doc.last_used_at doc = Some t -> datetime_min_utc < t.




(** What the reservation makes of the stored record [d]: the advanced
    windows [minute] and [day] with their counts plus one, the time of use,
    no error; the identity, the secret, the flags, the limits and the
    cooldown of [d] are kept. *)
Definition reserved (minute day : datetime * Z) (now : datetime)
    (d d' : Doc.t) : Prop :=
  Doc.minute_window_started_at d' = Some (fst minute) /\
  Doc.minute_window_count d' = Some (snd minute + 1) /\
  Doc.day_started_at d' = Some (fst day) /\
  Doc.day_count d' = Some (snd day + 1) /\
  Doc.last_used_at d' = Some now /\
  Doc.last_error d' = None /\
  Doc.last_error_code d' = None /\
  Doc.last_error_at d' = None /\
  Doc.updated_at d' = Some now /\
  Doc.guild_id d' = Doc.guild_id d /\
  Doc.name d' = Doc.name d /\
  Doc.encrypted_api_key d' = Doc.encrypted_api_key d /\
  Doc.enabled d' = Doc.enabled d /\
  Doc.cooldown_until d' = Doc.cooldown_until d /\
  Doc.rpm_limit d' = Doc.rpm_limit d /\
  Doc.rpd_limit d' = Doc.rpd_limit d.

(** The state after a reading of the clock followed by an update of the
    credential store, as in [_update_key_usage] and [_set_key_error]. *)
Definition updated (guild_id : Z) (name : string) (update : list field_update)
    (st : state) : state :=
  {| store := List.map (fun d => if has_key guild_id name d
                                 then apply_update update d else d) (store st);
     ticks := S (ticks st);
     calls := calls st;
     notices := notices st |}.

(** The duration [n] seconds can be added to [now]: it is in the range
    of [timedelta] and the sum is a date of the years 1 to 9999. *)
Definition cooldown_representable (now : datetime) (n : Z) : Prop :=
  -999999999 <= n / 86400 <= 999999999 /\
  datetime_min_utc <= now + n * 1000000 <= datetime_max_utc.

(** What the recording of an error makes of the stored record [d]: the
    error fields; the cooldown end [cooldown_until] when one is written;
    the disabled flag only when asked; the rest is kept. *)
Definition error_recorded (code : Z) (text : json) (cooldown_until : option datetime)
    (disable : bool) (now : datetime) (d d' : Doc.t) : Prop :=
  Doc.last_error_code d' = Some code /\
  Doc.last_error d' = Some text /\
  Doc.last_error_at d' = Some now /\
  Doc.updated_at d' = Some now /\
  Doc.cooldown_until d' =
    match cooldown_until with
    | None => Doc.cooldown_until d
    | Some t => Some t
    end /\
  Doc.enabled d' = (if disable then Some false else Doc.enabled d) /\
  Doc.guild_id d' = Doc.guild_id d /\
  Doc.name d' = Doc.name d /\
  Doc.encrypted_api_key d' = Doc.encrypted_api_key d /\
  Doc.rpm_limit d' = Doc.rpm_limit d /\
  Doc.rpd_limit d' = Doc.rpd_limit d /\
  Doc.minute_window_started_at d' = Doc.minute_window_started_at d /\
  Doc.minute_window_count d' = Doc.minute_window_count d /\
  Doc.day_started_at d' = Doc.day_started_at d /\
  Doc.day_count d' = Doc.day_count d /\
  Doc.last_used_at d' = Doc.last_used_at d.

(** The state after an upstream call with [api_key]. *)
Definition called (api_key : string) (st : state) : state :=
  {| store := store st; ticks := ticks st;
     calls := calls st ++ [api_key]; notices := notices st |}.

(** ** Concrete inputs *)

Module Fixtures.

(** A stored secret whose nonce decodes to 24 bytes. *)
Definition stored_secret (ciphertext : string) : gmap string string :=
  {[ "nonce" := "AAAAAAAAAAAAAAAAAAAAAAAAAAAAAAAA"; "ciphertext" := ciphertext ]}.

(** A credential of tenant 1 with limits 10 per minute and 100 per day and
    no recorded usage window. *)
Definition key_doc (name : string) (secret : gmap string string)
    (last_used cooldown : option datetime) : Doc.t :=
  {| Doc.guild_id := 1; Doc.name := name;
     Doc.encrypted_api_key := Some secret;
     Doc.enabled := Some true; Doc.cooldown_until := cooldown;
     Doc.rpm_limit := Some 10; Doc.rpd_limit := Some 100;
     Doc.minute_window_started_at := None; Doc.minute_window_count := None;
     Doc.day_started_at := None; Doc.day_count := None;
     Doc.last_used_at := last_used;
     Doc.last_error := None; Doc.last_error_code := None;
     Doc.last_error_at := None; Doc.updated_at := None |}.

(** Some instant of the year 2026. *)
Definition t2026 : datetime := 63900000000000000.

(** A credential of tenant 1 with the given limits, whose two windows
    started five seconds before [t2026] and count [used] requests. *)
Definition quota_doc (name : string) (rpm_limit rpd_limit used : Z) : Doc.t :=
  {| Doc.guild_id := 1; Doc.name := name;
     Doc.encrypted_api_key := Some (stored_secret "c2VjcmV0AAAAAAAAAAAAAHNrLWxpdmUtMQ==");
     Doc.enabled := Some true; Doc.cooldown_until := None;
     Doc.rpm_limit := Some rpm_limit; Doc.rpd_limit := Some rpd_limit;
     Doc.minute_window_started_at := Some (t2026 - 5000000);
     Doc.minute_window_count := Some used;
     Doc.day_started_at := Some (t2026 - 5000000); Doc.day_count := Some used;
     Doc.last_used_at := Some (t2026 - 5000000);
     Doc.last_error := None; Doc.last_error_code := None;
     Doc.last_error_at := None; Doc.updated_at := None |}.

(** A key used in 2026 listed before a key never used. *)
Definition pool_used : list Doc.t :=
  [ key_doc "used" (stored_secret "c2VjcmV0AAAAAAAAAAAAAHNrLWxpdmUtMQ==")
      (Some (t2026 - 5000000)) None;
    key_doc "fresh" (stored_secret "c2VjcmV0AAAAAAAAAAAAAHNrLWxpdmUtMg==")
      None None ].

(** A key whose cooldown ended a minute before [t2026]. *)
Definition cooled_key : Doc.t :=
  key_doc "cooled" (stored_secret "c2VjcmV0AAAAAAAAAAAAAHNrLWxpdmUtMQ==")
    None (Some (t2026 - 60000000)).

(** A key whose stored nonce is not valid base64, listed before a sound
    key. *)
Definition pool_corrupt : list Doc.t :=
  [ key_doc "corrupt"
      {[ "nonce" := "abc"; "ciphertext" := "c2VjcmV0AAAAAAAAAAAAAHNrLWxpdmUtMQ==" ]}
      None None;
    key_doc "fresh" (stored_secret "c2VjcmV0AAAAAAAAAAAAAHNrLWxpdmUtMg==")
      None None ].

(** Two sound keys. *)
Definition pool_two : list Doc.t :=
  [ key_doc "first" (stored_secret "c2VjcmV0AAAAAAAAAAAAAHNrLWxpdmUtMQ==")
      None None;
    key_doc "second" (stored_secret "c2VjcmV0AAAAAAAAAAAAAHNrLWxpdmUtMg==")
      None None ].

(** The environment with the encryption secret set. *)
Definition env_set (name : string) : option string :=
  if String.eqb name ENC_SECRET_ENV then Some "secret" else None.

(** A clock that advances by one second at each reading, from [t2026]. *)
Definition clock_2026 (n : nat) : datetime := t2026 + Z.of_nat n * 1000000.

(** An upstream service that answers its n-th call with the n-th outcome
    of a list, and cannot be reached afterwards. *)
Definition scripted (outcomes : list (result response)) (n : nat)
    (api_key : string) (payload : json) : result response :=
  nth n outcomes (raise_ ClientError "Cannot connect to host").

Definition world_with (outcomes : list (result response)) : world :=
  PyRef.make_world env_set clock_2026 (scripted outcomes).

Definition state_of (docs : list Doc.t) : state :=
  {| store := docs; ticks := 0; calls := []; notices := [] |}.

Definition chat_payload : json :=
  JObj [("model", JStr "some/model"); ("messages", JArr [])].

(** A completion. *)
Definition completion (answer : string) : response :=
  {| status := 200;
     data := JObj [("choices",
               JArr [JObj [("message", JObj [("content", JStr answer)])]])];
     text := "(body)";
     retry_after := None |}.

(** An error response whose body is [{"error": {"message": message}}]. *)
Definition error_response (code : Z) (message : json)
    (retry : option string) : response :=
  {| status := code;
     data := JObj [("error", JObj [("message", message)])];
     text := "(body)";
     retry_after := retry |}.

(** A session of five exchanges: user turn 1, answer 1, ..., user turn 5,
    answer 5. *)
Definition turn (who : string) (n : Z) : Msg.t :=
  {| Msg.role := Some who; Msg.content := who +:+ " " +:+ pretty n; Msg.ts := t2026 + n |}.

Definition five_exchanges : list Msg.t :=
  flat_map (fun n => [turn "user" n; turn "assistant" n]) [1; 2; 3; 4; 5].

End Fixtures.

(** ** Further functions of the cog *)

(** *** Splitting a response into chunks *)

Definition EMBED_CHUNK_SIZE : Z := 3800.

(** The position that Python gives to the bound [n] of a slice of a
    sequence of length [len]: a negative bound counts from the end, and
    the result is kept within [0, len]. *)
Definition slice_bound (n len : Z) : Z :=
  if n <? 0 then Z.max 0 (n + len) else Z.min n len.

(** [text[lo:hi]] *)
Definition py_slice {C : Type} (text : list C) (lo hi : Z) : list C :=
  let len := Z.of_nat (length text) in
  let lo' := slice_bound lo len in
  let hi' := slice_bound hi len in
  take (Z.to_nat (hi' - lo')) (drop (Z.to_nat lo') text).

(** The [while] loop of [_chunk_text], with its variables [start] and
    [chunks]; [fuel] bounds the number of iterations, and [None] says that
    the loop has not ended within that bound. *)
Fixpoint chunk_loop {C : Type} (fuel : nat) (text : list C) (limit start : Z)
    (chunks : list (list C)) : option (list (list C)) :=
  if start <? Z.of_nat (length text) then
    match fuel with
    | O => None
    | S fuel' =>
        chunk_loop fuel' text limit (start + limit)
          (chunks ++ [py_slice text start (start + limit)])
    end
  else Some chunks.

(** [_chunk_text(text, limit)]; a text is the sequence of its characters. *)
Definition _chunk_text {C : Type} (fuel : nat) (text : list C) (limit : Z)
    : option (list (list C)) :=
  if Z.of_nat (length text) <=? limit then Some [text]
  else chunk_loop fuel text limit 0 [].

(** An embed as [_send_ai_response] asks [EmbedFactory] for it:
    [EmbedFactory.ai_response(description, model)] or
    [EmbedFactory.create(title=..., description=..., color=EmbedColor.AI,
    footer=...)]. *)
Inductive embed (C : Type) :=
| Ai_response (description : list C) (model : string)
| Created (title : string) (description : list C) (footer : string).

Arguments Ai_response {C} description model.
Arguments Created {C} title description footer.

Definition embed_description {C : Type} (e : embed C) : list C :=
  match e with
  | Ai_response d _ => d
  | Created _ d _ => d
  end.

(** The embeds of the numbered messages, [idx] counting from [start]. *)
Fixpoint numbered_embeds {C : Type} (start total : Z) (model : string)
    (chunks : list (list C)) : list (embed C) :=
  match chunks with
  | [] => []
  | chunk :: rest =>
      Created ("AI Response (" +:+ pretty start +:+ "/" +:+ pretty total +:+ ")")
        chunk ("Powered by " +:+ model)
      :: numbered_embeds (start + 1) total model rest
  end.

(** [_send_ai_response(interaction, response_text, model, private)]: the
    list of the embeds passed to [interaction.followup.send], each with
    the [ephemeral] flag it is sent with. *)
Definition _send_ai_response {C : Type} (fuel : nat) (response_text : list C)
    (model : string) (private : bool) : option (list (embed C * bool)) :=
  match _chunk_text fuel response_text EMBED_CHUNK_SIZE with
  | None => None
  | Some chunks =>
      match chunks with
      | [chunk] => Some [(Ai_response chunk model, private)]
      | _ =>
          let total := Z.of_nat (length chunks) in
          Some (List.map (fun e => (e, private))
                  (numbered_embeds 1 total model chunks))
      end
  end.

(** *** Vocabulary of the further properties *)

(** No tenant is recorded with a count below one: a tenant without a
    request in flight has no entry in the table. *)
Definition no_idle_entry (guild_inflight : gmap Z Z) : Prop :=
  forall g n, guild_inflight !! g = Some n -> 1 <= n.

(** The tenant that a call on the gate is made for. *)
Definition gate_op_guild (op : gate_op) : Z :=
  match op with
  | Acquire g _ => g
  | Release g => g
  end.

(** *** Sample credentials *)

Module Samples.

(** An enabled credential of tenant 1 with the given limits and usage
    windows, no cooldown and no recorded error. *)
Definition limited_key (rpm_limit rpd_limit : Z)
    (minute_start : option datetime) (minute_count : option Z)
    (day_start : option datetime) (day_count : option Z) : Doc.t :=
  {| Doc.guild_id := 1; Doc.name := "limited";
     Doc.encrypted_api_key :=
       Some (Fixtures.stored_secret "c2VjcmV0AAAAAAAAAAAAAHNrLWxpdmUtMQ==");
     Doc.enabled := Some true; Doc.cooldown_until := None;
     Doc.rpm_limit := Some rpm_limit; Doc.rpd_limit := Some rpd_limit;
     Doc.minute_window_started_at := minute_start;
     Doc.minute_window_count := minute_count;
     Doc.day_started_at := day_start; Doc.day_count := day_count;
     Doc.last_used_at := None;
     Doc.last_error := None; Doc.last_error_code := None;
     Doc.last_error_at := None; Doc.updated_at := None |}.

(** The candidate built at [now] for a credential whose two windows have
    not started. *)
Definition fresh_candidate (doc : Doc.t) (now : datetime) : Cand.t :=
  {| Cand.doc := doc; Cand.score := 1;
     Cand.minute_start := now; Cand.minute_count := 0;
     Cand.day_start := now; Cand.day_count := 0;
     Cand.last_used_at := Doc.last_used_at doc |}.

(** The first key of [Fixtures.pool_two] as a candidate. *)
Definition first_candidate : Cand.t :=
  fresh_candidate
    (Fixtures.key_doc "first"
       (Fixtures.stored_secret "c2VjcmV0AAAAAAAAAAAAAHNrLWxpdmUtMQ==") None None)
    Fixtures.t2026.

(** A response with a body that is not JSON. *)
Definition plain_response (code : Z) (body : string) : response :=
  {| status := code; data := JNull; text := body; retry_after := None |}.

(** The world of [Fixtures.world_with] with another chat platform and
    another guild configuration. *)
Definition world_on_platform (outcomes : list (result response))
    (get_guild : nat -> Z -> option guild)
    (get_config : nat -> Z -> result (option guild_config)) : world :=
  {| getenv := Fixtures.env_set;
     sha256 := PyRef.ref_sha256;
     b64decode := PyRef.ref_b64decode;
     secretbox_decrypt := PyRef.ref_secretbox_decrypt;
     utf8_decode := PyRef.ref_utf8_decode;
     float_of_str := PyRef.ref_float_of_str;
     clock := Fixtures.clock_2026;
     request_json := Fixtures.scripted outcomes;
     bot_get_guild := get_guild;
     db_get_guild := get_config |}.

End Samples.

(** *** Effects of the dispatcher on the state *)

(** The fields of a credential that no update of the dispatcher names:
    its identity, its secret and its limits. *)
Definition same_credential (d d' : Doc.t) : Prop :=
  Doc.guild_id d' = Doc.guild_id d /\
  Doc.name d' = Doc.name d /\
  Doc.encrypted_api_key d' = Doc.encrypted_api_key d /\
  Doc.rpm_limit d' = Doc.rpm_limit d /\
  Doc.rpd_limit d' = Doc.rpd_limit d.

(** The store [docs'] holds the records of [docs], in the same order, each
    with its identity, secret and limits, and the records of the tenants
    other than [guild_id] as they were. *)
Definition store_frame (guild_id : Z) (docs docs' : list Doc.t) : Prop :=
  Forall2 (fun d d' => same_credential d d' /\
                       (Doc.guild_id d <> guild_id -> d' = d)) docs docs'.

(** The list [l'] is [l] followed by at most [n] more entries. *)
Definition extended_by {A : Type} (n : nat) (l l' : list A) : Prop :=
  exists extra, l' = l ++ extra /\ (length extra <= n)%nat.

(** What a computation made for the tenant [guild_id] may do to the state:
    at most [n] upstream calls and [k] notifications more, a clock that
    does not go back, and a store within the frame. *)
Definition effect (guild_id : Z) (n k : nat) (st st' : state) : Prop :=
  store_frame guild_id (store st) (store st') /\
  extended_by n (calls st) (calls st') /\
  extended_by k (notices st) (notices st') /\
  (ticks st <= ticks st')%nat.

(** Every run of [m] takes a state to one that [R] relates to it. *)
Definition run_within {A : Type} (R : state -> state -> Prop) (m : M A) : Prop :=
  forall st, R st (snd (m st)).

(** ** [utils/ai_keys.py]: encryption and fingerprint *)

(** What [encrypt_api_key] and [fingerprint_api_key] use besides the
    functions of [world]. *)
Record encoder := {
  (** [nacl.utils.random(size)] *)
  random_bytes : nat -> list Byte.byte;
  (** [SecretBox(key).encrypt(plaintext, nonce).ciphertext] *)
  secretbox_encrypt : list Byte.byte -> list Byte.byte -> list Byte.byte ->
                      result (list Byte.byte);
  (** [base64.b64encode(b).decode("ascii")] *)
  b64encode : list Byte.byte -> string;
  (** [s.encode("utf-8")] *)
  utf8_encode : string -> list Byte.byte
}.

(** [encrypt_api_key(api_key)] *)
Definition encrypt_api_key (W : world) (E : encoder) (api_key : string)
    : result (gmap string string) :=
  try! box_key := _get_secret_key W in
  let nonce := random_bytes E PyRef.NONCE_SIZE in
  try! ciphertext := secretbox_encrypt E box_key (utf8_encode E api_key) nonce in
  Ok ({[ "nonce" := b64encode E nonce;
         "ciphertext" := b64encode E ciphertext ]} : gmap string string).

(** One hexadecimal digit, in lower case. *)
Definition hex_digit (n : N) : ascii :=
  if (n <? 10)%N then ascii_of_N (n + 48) else ascii_of_N (n + 87).

(** [b.hex()] *)
Definition hex_of_bytes (b : list Byte.byte) : string :=
  string_of_list_ascii
    (flat_map (fun x => [hex_digit (Byte.to_N x / 16); hex_digit (Byte.to_N x mod 16)]) b).

(** [fingerprint_api_key(api_key)] *)
Definition fingerprint_api_key (W : world) (api_key : string) : string :=
  let last4 :=
    if (4 <=? String.length api_key)%nat
    then String.substring (String.length api_key - 4) 4 api_key
    else api_key in
  let digest := String.substring 0 8 (hex_of_bytes (sha256 W api_key)) in
  digest +:+ ":" +:+ last4.

(** Concrete versions of the functions of [encoder], the counterparts of
    those of [PyRef]. *)
Module PyRefEncode.

(** The character of a value of the base64 alphabet. *)
Definition b64_char (n : N) : ascii :=
  if (n <? 26)%N then ascii_of_N (n + 65)
  else if (n <? 52)%N then ascii_of_N (n + 71)
  else if (n <? 62)%N then ascii_of_N (n - 4)
  else if (n =? 62)%N then "+"%char
  else "/"%char.

(** The encoding loop of [binascii.b2a_base64], without the newline. *)
Fixpoint b2a_base64 (input : list Byte.byte) : list ascii :=
  match input with
  | [] => []
  | [a] =>
      let x := Byte.to_N a in
      [b64_char (N.shiftr x 2); b64_char (N.shiftl (N.land x 3) 4);
       "="%char; "="%char]
  | [a; b] =>
      let x := Byte.to_N a in
      let y := Byte.to_N b in
      [b64_char (N.shiftr x 2);
       b64_char (N.lor (N.shiftl (N.land x 3) 4) (N.shiftr y 4));
       b64_char (N.shiftl (N.land y 15) 2); "="%char]
  | a :: b :: c :: rest =>
      let x := Byte.to_N a in
      let y := Byte.to_N b in
      let z := Byte.to_N c in
      b64_char (N.shiftr x 2)
      :: b64_char (N.lor (N.shiftl (N.land x 3) 4) (N.shiftr y 4))
      :: b64_char (N.lor (N.shiftl (N.land y 15) 2) (N.shiftr z 6))
      :: b64_char (N.land z 63)
      :: b2a_base64 rest
  end.

Definition ref_b64encode (b : list Byte.byte) : string :=
  string_of_list_ascii (b2a_base64 b).

(** Placeholder for [SecretBox.encrypt], the counterpart of
    [PyRef.ref_secretbox_decrypt]. *)
Definition ref_secretbox_encrypt (key plaintext nonce : list Byte.byte)
    : result (list Byte.byte) :=
  if negb (Nat.eqb (length nonce) PyRef.NONCE_SIZE)
  then raise_ NaclValueError "The nonce must be exactly 24 bytes long"
  else Ok (take PyRef.MACBYTES key ++ plaintext).

Definition make_encoder : encoder :=
  {| random_bytes := fun size => repeat Byte.x00 size;
     secretbox_encrypt := ref_secretbox_encrypt;
     b64encode := ref_b64encode;
     utf8_encode := list_byte_of_string |}.

End PyRefEncode.

(** ** Thread archive duration *)

(** The loop of [min(iterable, key=key)] after the first element: a later
    element replaces the best one only when its key is smaller. *)
Fixpoint min_by (key : Z -> Z) (best : Z) (rest : list Z) : Z :=
  match rest with
  | [] => best
  | value :: rest' =>
      if key value <? key best then min_by key value rest'
      else min_by key best rest'
  end.

(** [min(iterable, key=key)]; [None] stands for the [ValueError] raised on
    an empty iterable. *)
Definition py_min (key : Z -> Z) (values : list Z) : option Z :=
  match values with
  | [] => None
  | value :: rest => Some (min_by key value rest)
  end.

(** The elements of the set [supported] built by
    [_resolve_auto_archive_duration]. *)
Definition supported_durations (features : list string) : list Z :=
  [60; 1440]
  ++ (if existsb (String.eqb "THREE_DAY_THREAD_ARCHIVE") features then [4320] else [])
  ++ (if existsb (String.eqb "SEVEN_DAY_THREAD_ARCHIVE") features then [10080] else []).

(** [_resolve_auto_archive_duration(guild, target_minutes)]; [iteration]
    gives the order in which Python iterates over a set with the given
    elements, [features] is [guild.features]. *)
Definition _resolve_auto_archive_duration (iteration : list Z -> list Z)
    (features : list string) (target_minutes : Z) : option Z :=
  py_min (fun value => Z.abs (value - target_minutes))
    (iteration (supported_durations features)).

(** * Properties *)

(** ** Window tracker *)

Lemma int_or_0_Some (c : Z) : int_or_0 (Some c) = c.
Proof. unfold int_or_0. destruct (Z.eqb_spec c 0); congruence. Qed.

(** The comparison of [total_seconds()] with a whole number of seconds is
    the comparison of the microseconds. *)
Lemma window_expired_iff (window_seconds delta : Z) :
  Qle_bool (inject_Z window_seconds) (total_seconds delta) = true <->
  window_seconds * 1000000 <= delta.
Proof.
  rewrite Qle_bool_iff. unfold Qle, total_seconds, inject_Z. simpl. lia.
Qed.

(** C6. The window advance returns [(now, 0)] when the window start is
    absent or at least [window_seconds] old, and otherwise returns the
    window start and count it was given. *)
Theorem window_state_advance (start : option datetime) (count : option Z)
    (window_seconds : Z) (now : datetime) :
  ((start = None \/
    exists s, start = Some s /\ window_seconds * 1000000 <= now - s) /\
   _window_state start count window_seconds now = (now, 0))
  \/
  (exists s, start = Some s /\ now - s < window_seconds * 1000000 /\
     _window_state start count window_seconds now =
       (s, match count with Some c => c | None => 0 end)).
Proof.
  unfold _window_state. destruct start as [s|]; simpl.
  - destruct (Qle_bool (inject_Z window_seconds) (total_seconds (now - s))) eqn:E.
    + left. split; [right; exists s; split; [reflexivity|]|reflexivity].
      now apply window_expired_iff.
    + right. exists s. split; [reflexivity|]. split.
      * destruct (Z.lt_ge_cases (now - s) (window_seconds * 1000000)) as [H|H];
          [exact H|]. apply window_expired_iff in H. congruence.
      * destruct count as [c|]; [now rewrite int_or_0_Some | reflexivity].
  - left. split; [now left | reflexivity].
Qed.

(** ** Eligibility filter *)

(** The filter refuses exactly the credentials that are not usable. *)
Lemma build_key_candidate_None (doc : Doc.t) (now : datetime) :
  _build_key_candidate doc now = None <-> ineligible doc now.
Proof.
  unfold _build_key_candidate, ineligible.
  set (rpm_limit := int_or_0 (Doc.rpm_limit doc)).
  set (rpd_limit := int_or_0 (Doc.rpd_limit doc)).
  destruct (_window_state (Doc.minute_window_started_at doc)
              (Doc.minute_window_count doc) 60 now) as [ms mc].
  destruct (_window_state (Doc.day_started_at doc) (Doc.day_count doc) 86400 now)
    as [ds dc].
  cbn [snd].
  destruct (Doc.enabled doc) as [[|]|]; cbn [default negb];
    try (split; [intros _; now left | reflexivity]).
  all: destruct (Doc.cooldown_until doc) as [cu|]; cbn [_ensure_utc].
  all: try (destruct (Z.ltb_spec now cu) as [Hcu|Hcu];
            [split; [intros _; right; left; now exists cu | reflexivity]|]).
  all: destruct (Z.leb_spec rpm_limit 0) as [Hm|Hm]; cbn [orb];
         [split; [intros _; tauto | reflexivity]|].
  all: destruct (Z.leb_spec rpd_limit 0) as [Hd|Hd];
         [split; [intros _; tauto | reflexivity]|].
  all: destruct (Z.leb_spec rpm_limit mc) as [Hmc|Hmc]; cbn [orb];
         [split; [intros _; tauto | reflexivity]|].
  all: destruct (Z.leb_spec rpd_limit dc) as [Hdc|Hdc];
         [split; [intros _; tauto | reflexivity]|].
  all: split; [discriminate|].
  all: intros [H|[[cu' [H1 H2]]|[H|[H|[H|H]]]]]; try discriminate; try lia.
  all: inversion H1; subst; lia.
Qed.

(** What a candidate returned by the filter carries. *)
Lemma build_key_candidate_Some (doc : Doc.t) (now : datetime) (c : Cand.t) :
  _build_key_candidate doc now = Some c ->
  let rpm_limit := int_or_0 (Doc.rpm_limit doc) in
  let rpd_limit := int_or_0 (Doc.rpd_limit doc) in
  let minute := _window_state (Doc.minute_window_started_at doc)
                  (Doc.minute_window_count doc) 60 now in
  let day := _window_state (Doc.day_started_at doc) (Doc.day_count doc) 86400 now in
  Cand.doc c = doc /\
  (Cand.minute_start c, Cand.minute_count c) = minute /\
  (Cand.day_start c, Cand.day_count c) = day /\
  Cand.last_used_at c = Doc.last_used_at doc /\
  (Cand.score c ==
     (4 # 10) * inject_Z (rpm_limit - snd minute) / inject_Z rpm_limit
     + (6 # 10) * inject_Z (rpd_limit - snd day) / inject_Z rpd_limit)%Q.
Proof.
  intros H rpm_limit rpd_limit minute day. unfold _build_key_candidate in H.
  fold rpm_limit rpd_limit minute day in H.
  destruct (negb (default true (Doc.enabled doc))); [discriminate|].
  destruct (match _ensure_utc (Doc.cooldown_until doc) with
            | Some cu => now <? cu | None => false end); [discriminate|].
  destruct ((rpm_limit <=? 0) || (rpd_limit <=? 0)); [discriminate|].
  destruct minute as [ms mc]. destruct day as [ds dc].
  destruct ((rpm_limit <=? mc) || (rpd_limit <=? dc)); [discriminate|].
  inversion H; subst c; clear H. cbn.
  repeat split; try reflexivity.
  - unfold _ensure_utc. now destruct (Doc.last_used_at doc).
  - unfold Qdiv. ring.
Qed.


(** ** Stable sorting *)

Section StableSort.

Context {A : Type} (lt : A -> A -> bool).

Lemma insert_by_perm (x : A) (l : list A) : Permutation (x :: l) (insert_by lt x l).
Proof.
  induction l as [|y l IH]; simpl; [reflexivity|].
  destruct (lt y x); [|reflexivity].
  rewrite perm_swap. now apply perm_skip.
Qed.

Lemma stable_sort_perm (l : list A) : Permutation l (stable_sort lt l).
Proof.
  induction l as [|x l IH]; simpl; [reflexivity|].
  etransitivity; [apply perm_skip, IH | apply insert_by_perm].
Qed.

(** [lt] is the strict part of a total preorder. *)
Hypothesis lt_asym : forall a b, lt a b = true -> lt b a = false.
Hypothesis nlt_trans : forall a b c, lt b a = false -> lt c b = false -> lt c a = false.

Lemma insert_by_sorted (x : A) (l : list A) :
  StronglySorted (fun a b => lt b a = false) l ->
  StronglySorted (fun a b => lt b a = false) (insert_by lt x l).
Proof.
  induction 1 as [|y l Hs IH Hy]; simpl.
  - constructor; constructor.
  - destruct (lt y x) eqn:E.
    + constructor; [exact IH|].
      rewrite <- (insert_by_perm x l). constructor; [|exact Hy].
      now apply lt_asym.
    + constructor; [now constructor|].
      constructor; [exact E|].
      eapply Forall_impl; [exact Hy|]. intros z Hz.
      now apply (nlt_trans x y z).
Qed.

Lemma stable_sort_sorted (l : list A) :
  StronglySorted (fun a b => lt b a = false) (stable_sort lt l).
Proof.
  induction l as [|x l IH]; simpl; [constructor | now apply insert_by_sorted].
Qed.

End StableSort.

(** ** Key pool scheduler *)

Lemma Qlt_bool_iff (x y : Q) : Qlt_bool x y = true <-> (x < y)%Q.
Proof.
  unfold Qlt_bool. rewrite negb_true_iff. split.
  - intros H. apply Qnot_le_lt. intros Hle. apply Qle_bool_iff in Hle. congruence.
  - intros H. destruct (Qle_bool y x) eqn:E; [|reflexivity].
    apply Qle_bool_iff in E. exfalso. exact (Qlt_not_le _ _ H E).
Qed.

Lemma Qlt_bool_false_iff (x y : Q) : Qlt_bool x y = false <-> (y <= x)%Q.
Proof.
  unfold Qlt_bool. rewrite negb_false_iff. apply Qle_bool_iff.
Qed.

Lemma Qeq_bool_false_iff (x y : Q) : Qeq_bool x y = false <-> ~ (x == y)%Q.
Proof.
  split.
  - apply Qeq_bool_neq.
  - intros H. destruct (Qeq_bool x y) eqn:E; [|reflexivity].
    apply Qeq_bool_iff in E. contradiction.
Qed.

(** [b]'s key is not smaller than [a]'s exactly when [a] may stand before
    [b]. *)
Lemma key_nlt_ranked (a b : Cand.t) :
  key_lt (sort_key b) (sort_key a) = false <-> ranked_before a b.
Proof.
  unfold key_lt, sort_key, ranked_before, last_used_key. simpl.
  destruct (Qeq_bool (- binary64_score b) (- binary64_score a)) eqn:E.
  - apply Qeq_bool_iff in E.
    assert (Hs : (binary64_score b == binary64_score a)%Q).
    { rewrite <- (Qopp_involutive (binary64_score b)), E. apply Qopp_involutive. }
    rewrite Z.ltb_ge. split.
    + intros H. split; [rewrite Hs; apply Qle_refl | intros _; exact H].
    + intros [_ H]. apply H. now symmetry.
  - apply Qeq_bool_false_iff in E.
    rewrite Qlt_bool_false_iff. split.
    + intros H. apply Qopp_le_compat in H. rewrite !Qopp_involutive in H.
      split; [exact H|]. intros Hs. exfalso. apply E. now rewrite Hs.
    + intros [H _]. now apply Qopp_le_compat.
Qed.

Lemma ranked_before_total (a b : Cand.t) :
  ~ ranked_before b a -> ranked_before a b.
Proof.
  unfold ranked_before. intros H.
  destruct (Qlt_le_dec (binary64_score a) (binary64_score b)) as [Hlt|Hle].
  - exfalso. apply H. split; [now apply Qlt_le_weak|].
    intros Heq. rewrite Heq in Hlt. now apply Qlt_irrefl in Hlt.
  - split; [exact Hle|]. intros Heq.
    destruct (Z.le_gt_cases (last_used_key a) (last_used_key b)) as [Hk|Hk];
      [exact Hk|].
    exfalso. apply H. split; [rewrite Heq; apply Qle_refl | intros _; lia].
Qed.

Lemma ranked_before_trans (a b c : Cand.t) :
  ranked_before a b -> ranked_before b c -> ranked_before a c.
Proof.
  unfold ranked_before. intros [Hab Hab'] [Hbc Hbc']. split.
  - now apply Qle_trans with (binary64_score b).
  - intros Hac.
    assert (Hba : (binary64_score a == binary64_score b)%Q).
    { apply Qle_antisym; [rewrite Hac; exact Hbc | exact Hab]. }
    assert (Hcb : (binary64_score b == binary64_score c)%Q) by now rewrite <- Hba.
    specialize (Hab' Hba). specialize (Hbc' Hcb). lia.
Qed.

Lemma candidate_key_lt_asym (a b : Cand.t) :
  key_lt (sort_key a) (sort_key b) = true ->
  key_lt (sort_key b) (sort_key a) = false.
Proof.
  intros H. apply key_nlt_ranked. apply ranked_before_total.
  intros Hr. apply key_nlt_ranked in Hr. congruence.
Qed.

Lemma candidate_key_nlt_trans (a b c : Cand.t) :
  key_lt (sort_key b) (sort_key a) = false ->
  key_lt (sort_key c) (sort_key b) = false ->
  key_lt (sort_key c) (sort_key a) = false.
Proof.
  rewrite !key_nlt_ranked. apply ranked_before_trans.
Qed.

Lemma StronglySorted_lookup {A : Type} (R : A -> A -> Prop) (l : list A) :
  StronglySorted R l ->
  forall (i j : nat) (a b : A),
    (i < j)%nat -> l !! i = Some a -> l !! j = Some b -> R a b.
Proof.
  induction 1 as [|x l Hs IH Hx]; intros i j a b Hij Ha Hb.
  - discriminate.
  - destruct j as [|j]; [lia|]. destruct i as [|i]; simpl in *.
    + inversion Ha; subst. rewrite Forall_forall in Hx. apply Hx.
      eapply list_elem_of_lookup_2. exact Hb.
    + apply (IH i j); [lia | exact Ha | exact Hb].
Qed.

Lemma StronglySorted_weaken {A : Type} (R S : A -> A -> Prop) (l : list A) :
  (forall a b, R a b -> S a b) -> StronglySorted R l -> StronglySorted S l.
Proof.
  intros HRS. induction 1 as [|x l Hs IH Hx]; constructor; [exact IH|].
  eapply Forall_impl; [exact Hx|]. intros y. apply HRS.
Qed.

Lemma select_key_candidates_sorted (keys : list Doc.t) (now : datetime) :
  StronglySorted ranked_before (select_key_candidates keys now).
Proof.
  unfold select_key_candidates.
  eapply StronglySorted_weaken;
    [| apply (stable_sort_sorted (fun a b => key_lt (sort_key a) (sort_key b)));
       [exact candidate_key_lt_asym | exact candidate_key_nlt_trans] ].
  intros a b H. now apply key_nlt_ranked.
Qed.

Lemma build_key_candidate_doc (doc : Doc.t) (now : datetime) (c : Cand.t) :
  _build_key_candidate doc now = Some c -> Cand.doc c = doc /\ ~ ineligible doc now.
Proof.
  intros H. split.
  - now destruct (build_key_candidate_Some doc now c H) as [Hd _].
  - intros Hi. apply build_key_candidate_None in Hi. congruence.
Qed.

(** The candidates are the eligible documents of the pool. *)
Lemma select_key_candidates_eligible (keys : list Doc.t) (now : datetime) (doc : Doc.t) :
  (exists c, In c (select_key_candidates keys now) /\ Cand.doc c = doc) <->
  In doc keys /\ ~ ineligible doc now.
Proof.
  unfold select_key_candidates. split.
  - intros [c [Hin Hdoc]].
    apply list_elem_of_In in Hin.
    rewrite <- (stable_sort_perm _ _) in Hin.
    apply list_elem_of_omap in Hin. destruct Hin as [d [Hd Hb]].
    apply build_key_candidate_doc in Hb. destruct Hb as [Hcd Hne].
    rewrite Hcd in Hdoc. rewrite <- Hdoc.
    split; [apply list_elem_of_In; exact Hd | exact Hne].
  - intros [Hin Hne].
    destruct (_build_key_candidate doc now) as [c|] eqn:E;
      [|exfalso; apply Hne; now apply build_key_candidate_None].
    assert (Hd : Cand.doc c = doc)
      by now destruct (build_key_candidate_Some doc now c E) as [Hd _].
    exists c. split; [|exact Hd].
    apply list_elem_of_In. rewrite <- (stable_sort_perm _ _).
    apply list_elem_of_omap. exists doc. split; [apply list_elem_of_In; exact Hin | exact E].
Qed.

Lemma sorted_never_used_first (result : list Cand.t) :
  (forall b t, In b result -> Cand.last_used_at b = Some t -> datetime_min_utc < t) ->
  StronglySorted ranked_before result -> never_used_first result.
Proof.
  intros Hmin Hs i j a b t Ha Hb Heq Hna Hub.
  destruct (Nat.lt_trichotomy i j) as [H|[H|H]]; [exact H| |].
  - subst j. rewrite Ha in Hb. inversion Hb; subst. congruence.
  - exfalso.
    assert (Ht : datetime_min_utc < t).
    { apply (Hmin b t); [|exact Hub]. apply list_elem_of_In.
      eapply list_elem_of_lookup_2. exact Hb. }
    destruct (StronglySorted_lookup _ _ Hs j i b a H Hb Ha) as [_ Hk].
    assert (Hk' : last_used_key b <= last_used_key a) by (apply Hk; now symmetry).
    unfold last_used_key in Hk'. rewrite Hna, Hub in Hk'. simpl in Hk'. lia.
Qed.

(** The last use that a candidate carries is the one recorded in a
    document of the pool. *)
Lemma select_key_candidates_last_used (keys : list Doc.t) (now : datetime)
    (c : Cand.t) :
  In c (select_key_candidates keys now) ->
  exists doc, In doc keys /\ Cand.last_used_at c = Doc.last_used_at doc.
Proof.
  unfold select_key_candidates. intros Hin.
  apply list_elem_of_In in Hin. rewrite <- (stable_sort_perm _ _) in Hin.
  apply list_elem_of_omap in Hin. destruct Hin as [d [Hd Hb]].
  exists d. split; [apply list_elem_of_In; exact Hd|].
  now destruct (build_key_candidate_Some d now c Hb) as [_ [_ [_ [Hl _]]]].
Qed.

(** C1. The candidate list is the eligible credentials of the pool,
    ordered by descending score, as the code computes and compares it, and
    among equal scores by ascending last use, a credential never used
    counting as used at [datetime.min]. For a pool whose recorded last
    uses are readings of the clock, a credential never used stands, among
    equal scores, before every credential that has a recorded last use. *)
Theorem select_key_candidates_ranked (keys : list Doc.t) (now : datetime) :
  let result := select_key_candidates keys now in
  Permutation (omap (fun doc => _build_key_candidate doc now) keys) result /\
  (forall doc, (exists c, In c result /\ Cand.doc c = doc) <->
               In doc keys /\ ~ ineligible doc now) /\
  StronglySorted ranked_before result /\
  (last_uses_recorded_by_clock keys -> never_used_first result).
Proof.
  intros result. split; [apply stable_sort_perm|].
  split; [apply select_key_candidates_eligible|].
  split; [apply select_key_candidates_sorted|].
  intros Hclock.
  apply sorted_never_used_first; [|apply select_key_candidates_sorted].
  intros b t Hin Hb.
  destruct (select_key_candidates_last_used keys now b Hin) as [doc [Hd Hl]].
  apply (Hclock doc t Hd). congruence.
Qed.

(** On a pool with a key used in 2026 listed before a key never used, of
    equal score, the key never used comes first. *)
Lemma select_key_candidates_ranked_witness :
  last_uses_recorded_by_clock Fixtures.pool_used /\
  exists (i j : nat) (a b : Cand.t) (t : datetime),
    select_key_candidates Fixtures.pool_used Fixtures.t2026 !! i = Some a /\
    select_key_candidates Fixtures.pool_used Fixtures.t2026 !! j = Some b /\
    Doc.name (Cand.doc a) = "fresh" /\ Doc.name (Cand.doc b) = "used" /\
    (binary64_score a == binary64_score b)%Q /\
    Cand.last_used_at a = None /\ Cand.last_used_at b = Some t /\
    (i < j)%nat.
Proof.
  assert (Hclock : last_uses_recorded_by_clock Fixtures.pool_used).
  { intros doc t [<-|[<-|[]]] Ht; simpl in Ht; [|discriminate].
    injection Ht as <-. reflexivity. }
  split; [exact Hclock|].
  destruct (select_key_candidates_ranked Fixtures.pool_used Fixtures.t2026)
    as [_ [_ [_ H]]].
  specialize (H Hclock).
  destruct (select_key_candidates Fixtures.pool_used Fixtures.t2026)
    as [|a [|b [|? ?]]] eqn:E; try (vm_compute in E; discriminate).
  assert (Hna : Doc.name (Cand.doc a) = "fresh").
  { change a with (hd a [a; b]). rewrite <- E. vm_compute. reflexivity. }
  assert (Hnb : Doc.name (Cand.doc b) = "used").
  { change b with (hd b (tl [a; b])). rewrite <- E. vm_compute. reflexivity. }
  assert (Ha : Cand.last_used_at a = None).
  { change a with (hd a [a; b]). rewrite <- E. vm_compute. reflexivity. }
  assert (Hb : Cand.last_used_at b = Some (Fixtures.t2026 - 5000000)).
  { change b with (hd b (tl [a; b])). rewrite <- E. vm_compute. reflexivity. }
  assert (Hs : (binary64_score a == binary64_score b)%Q).
  { change b with (hd b (tl [a; b])). change a with (hd a [a; b]) at 1.
    rewrite <- E. vm_compute. reflexivity. }
  exists 0%nat, 1%nat, a, b, (Fixtures.t2026 - 5000000).
  repeat split; try assumption; try reflexivity.
  exact (H 0%nat 1%nat a b _ eq_refl eq_refl Hs Ha Hb).
Defined.

(** The model of binary64 on values that Python prints: the literals
    [0.4] and [0.6], the quotients [1 / 3] and [11 / 12], and a quotient
    that is a subnormal number. *)
Example binary64_values :
  (Binary64.nearest (4 # 10) == 3602879701896397 # 9007199254740992)%Q /\
  (Binary64.nearest (6 # 10) == 5404319552844595 # 9007199254740992)%Q /\
  (Binary64.true_divide 1 3 == 6004799503160661 # 18014398509481984)%Q /\
  (Binary64.true_divide 11 12 == 8256599316845909 # 9007199254740992)%Q /\
  (Binary64.true_divide 3 (2 ^ 1075) == Binary64.pow2 (-1073))%Q /\
  (Binary64.true_divide 1 (2 ^ 1075) == 0)%Q.
Proof. repeat split; vm_compute; reflexivity. Qed.

(** The scores of two credentials used once, with limits 8 and 12 for the
    first and 10 and 10 for the second, are both 9/10 as exact values; the
    code computes 0.8999999999999999 for the first and 0.9000000000000001
    for the second, and tries the second one first. *)
Example binary64_scores_order :
  let pool := [ Fixtures.quota_doc "eight-twelve" 8 12 1;
                Fixtures.quota_doc "ten-ten" 10 10 1 ] in
  let result := select_key_candidates pool Fixtures.t2026 in
  List.map (fun c => Doc.name (Cand.doc c)) result = ["ten-ten"; "eight-twelve"] /\
  List.map (fun c => Qred (Cand.score c)) result = [9 # 10; 9 # 10]%Q /\
  List.map (fun c => Qred (binary64_score c)) result =
    [4053239664633447 # 4503599627370496; 2026619832316723 # 2251799813685248]%Q.
Proof. vm_compute. repeat split; reflexivity. Qed.

(** ** Concurrency gate *)

Lemma acquire_guild_slot_cases (guild_id max_concurrent : Z) (m : gmap Z Z) :
  (max_concurrent <= inflight_of m guild_id /\
   _acquire_guild_slot guild_id max_concurrent m = (false, m))
  \/
  (inflight_of m guild_id < max_concurrent /\
   exists m', _acquire_guild_slot guild_id max_concurrent m = (true, m') /\
     inflight_of m' guild_id = inflight_of m guild_id + 1 /\
     forall g, g <> guild_id -> m' !! g = m !! g).
Proof.
  unfold _acquire_guild_slot, inflight_of.
  destruct (Z.leb_spec max_concurrent (default 0 (m !! guild_id))) as [H|H].
  - left. now split.
  - right. split; [exact H|]. eexists. split; [reflexivity|]. split.
    + now rewrite lookup_insert_eq.
    + intros g Hg. now rewrite lookup_insert_ne.
Qed.

Lemma release_guild_slot_effect (guild_id : Z) (m : gmap Z Z) :
  inflight_of (_release_guild_slot guild_id m) guild_id =
    Z.max 0 (inflight_of m guild_id - 1) /\
  (Z.max 0 (inflight_of m guild_id - 1) = 0 ->
   _release_guild_slot guild_id m !! guild_id = None) /\
  forall g, g <> guild_id -> _release_guild_slot guild_id m !! g = m !! g.
Proof.
  unfold _release_guild_slot, inflight_of.
  destruct (Z.eqb_spec (Z.max 0 (default 0 (m !! guild_id) - 1)) 0) as [H|H].
  - rewrite lookup_delete_eq. simpl. split; [lia|]. split; [reflexivity|].
    intros g Hg. now rewrite lookup_delete_ne.
  - rewrite lookup_insert_eq. simpl. split; [reflexivity|].
    split; [contradiction|].
    intros g Hg. now rewrite lookup_insert_ne.
Qed.

Lemma gate_step_other (g : Z) (op : gate_op) (m : gmap Z Z) :
  match op with Acquire g' _ => g' | Release g' => g' end <> g ->
  inflight_of (gate_step m op) g = inflight_of m g.
Proof.
  intros Hne. unfold inflight_of. f_equal. destruct op as [g' c|g']; simpl.
  - destruct (acquire_guild_slot_cases g' c m) as [[_ E]|[_ [m' [E [_ Hf]]]]];
      rewrite E; simpl; [reflexivity|]. apply Hf. congruence.
  - apply release_guild_slot_effect. congruence.
Qed.

Lemma gate_run_bounded (g c : Z) (ops : list gate_op) :
  uses_ceiling g c ops ->
  forall m, 0 <= inflight_of m g <= c ->
            0 <= inflight_of (gate_run ops m) g <= c.
Proof.
  unfold gate_run. induction 1 as [|op ops Hop Hops IH]; intros m Hm; simpl;
    [exact Hm|].
  apply IH. destruct op as [g' c'|g'].
  - destruct (Z.eq_dec g' g) as [->|Hne];
      [|now rewrite gate_step_other]. rewrite (Hop eq_refl). simpl.
    destruct (acquire_guild_slot_cases g c m) as [[_ E]|[Hlt [m' [E [Hn _]]]]];
      rewrite E; simpl; lia.
  - destruct (Z.eq_dec g' g) as [->|Hne];
      [|now rewrite gate_step_other]. simpl.
    destruct (release_guild_slot_effect g m) as [E _]. rewrite E. lia.
Qed.

(** C7. With the calls for a tenant serialized: an acquisition is refused
    without any change when the in-flight count has reached the ceiling
    and otherwise adds one to it and succeeds; a release takes one off the
    count, not going below zero, and removes the tenant's entry when the
    count comes to zero; so, from the empty table, the count of a tenant
    stays between zero and its ceiling. *)
Theorem guild_slot_gate (guild_id max_concurrent : Z) :
  (forall m : gmap Z Z,
     (max_concurrent <= inflight_of m guild_id /\
      _acquire_guild_slot guild_id max_concurrent m = (false, m))
     \/
     (inflight_of m guild_id < max_concurrent /\
      exists m', _acquire_guild_slot guild_id max_concurrent m = (true, m') /\
        inflight_of m' guild_id = inflight_of m guild_id + 1 /\
        forall g, g <> guild_id -> m' !! g = m !! g))
  /\
  (forall m : gmap Z Z,
     inflight_of (_release_guild_slot guild_id m) guild_id =
       Z.max 0 (inflight_of m guild_id - 1) /\
     (Z.max 0 (inflight_of m guild_id - 1) = 0 ->
      _release_guild_slot guild_id m !! guild_id = None) /\
     forall g, g <> guild_id -> _release_guild_slot guild_id m !! g = m !! g)
  /\
  (forall ops : list gate_op,
     0 <= max_concurrent -> uses_ceiling guild_id max_concurrent ops ->
     0 <= inflight_of (gate_run ops ∅) guild_id <= max_concurrent).
Proof.
  split; [apply acquire_guild_slot_cases|].
  split; [apply release_guild_slot_effect|].
  intros ops Hc Hops. apply gate_run_bounded; [exact Hops|].
  unfold inflight_of. rewrite lookup_empty. simpl. lia.
Qed.

(** Three acquisitions with ceiling 2 and no release: two succeed, the
    third is refused, and the count is 2. *)
Lemma guild_slot_gate_witness :
  let m1 := _acquire_guild_slot 7 2 ∅ in
  let m2 := _acquire_guild_slot 7 2 (snd m1) in
  let m3 := _acquire_guild_slot 7 2 (snd m2) in
  (fst m1, fst m2, fst m3) = (true, true, false) /\
  0 <= inflight_of (gate_run [Acquire 7 2; Acquire 7 2; Acquire 7 2] ∅) 7 <= 2 /\
  inflight_of (gate_run [Acquire 7 2; Acquire 7 2; Acquire 7 2] ∅) 7 = 2 /\
  gate_run [Acquire 7 2; Acquire 7 2; Acquire 7 2; Release 7; Release 7] ∅ !! 7 = None.
Proof.
  split; [vm_compute; reflexivity|]. split.
  - destruct (guild_slot_gate 7 2) as [_ [_ H]]. apply H; [lia|].
    unfold uses_ceiling. repeat constructor.
  - split; vm_compute; reflexivity.
Defined.

(** ** Cooldown tracker *)


Lemma int_of_Q_nonneg (r : Q) : (0 < r)%Q -> 0 <= int_of_Q r.
Proof.
  unfold Qlt, int_of_Q. simpl. intros H. apply Z.quot_pos; lia.
Qed.



(** An actor whose last request was 5 seconds ago, under a cooldown of 10
    seconds, is told to wait 5 seconds; 10 seconds after the request the
    check passes. *)
Example check_cooldowns_five_seconds :
  _check_cooldowns {[ (1, 2) := 100%Q ]} ∅ 1 2 3 10 10 105 105
    = Some "Cooldown active. Try again in 5s." /\
  _check_cooldowns {[ (1, 2) := 100%Q ]} ∅ 1 2 3 10 10 110 110 = None.
Proof. split; vm_compute; reflexivity. Qed.

(** ** Session trimming *)

Lemma user_turns_of_app (l1 l2 : list Msg.t) :
  user_turns_of (l1 ++ l2) = user_turns_of l1 + user_turns_of l2.
Proof.
  unfold user_turns_of. rewrite List.filter_app, length_app. lia.
Qed.

Lemma user_turns_of_cons (m : Msg.t) (l : list Msg.t) :
  user_turns_of (m :: l) = (if is_user m then 1 else 0) + user_turns_of l.
Proof.
  unfold user_turns_of. simpl. destruct (is_user m); simpl; lia.
Qed.

Lemma user_turns_of_rev (l : list Msg.t) :
  user_turns_of (rev l) = user_turns_of l.
Proof.
  induction l as [|m l IH]; [reflexivity|]. simpl.
  rewrite user_turns_of_app, IH, !user_turns_of_cons.
  unfold user_turns_of at 2. simpl. lia.
Qed.

(** The loop appends to [trimmed] the shortest prefix of [msgs] that brings
    the number of user turns to [max_turns], or all of [msgs] if there is
    none. *)
Lemma trim_loop_spec (max_turns : Z) (msgs : list Msg.t) :
  forall (trimmed : list Msg.t) (user_turns : Z),
    user_turns < max_turns ->
    exists taken rest,
      msgs = taken ++ rest /\
      trim_loop msgs max_turns trimmed user_turns = trimmed ++ taken /\
      ((user_turns + user_turns_of taken = max_turns /\
        exists pre m, taken = pre ++ [m] /\ is_user m = true)
       \/ (rest = [] /\ user_turns + user_turns_of taken < max_turns)).
Proof.
  induction msgs as [|m msgs IH]; intros trimmed user_turns Hlt; simpl.
  - exists [], []. split; [reflexivity|]. split; [now rewrite app_nil_r|].
    right. split; [reflexivity|]. unfold user_turns_of. simpl. lia.
  - destruct (Z.leb_spec max_turns (if is_user m then user_turns + 1 else user_turns))
      as [Hge|Hlt'].
    + exists [m], msgs. split; [reflexivity|]. split; [reflexivity|]. left.
      destruct (is_user m) eqn:Em; [|lia].
      split; [rewrite user_turns_of_cons, Em; unfold user_turns_of; simpl; lia|].
      exists [], m. now split.
    + destruct (IH (trimmed ++ [m]) _ Hlt') as [taken [rest [E [Et Hc]]]].
      exists (m :: taken), rest. split; [simpl; congruence|].
      split; [rewrite Et, <- app_assoc; reflexivity|].
      rewrite user_turns_of_cons.
      destruct Hc as [[Hn [pre [m' [Ep Hm']]]]|[Hr Hn]].
      * left. split; [destruct (is_user m); lia|].
        exists (m :: pre), m'. split; [simpl; congruence | exact Hm'].
      * right. split; [exact Hr | destruct (is_user m); lia].
Qed.

(** C9. With a cap that is not positive the trim returns the empty list.
    Otherwise it returns an end part of the sequence, in the original
    order: the one that starts at the user turn with which, counting from
    the most recent turn, the number of user turns reaches the cap, or the
    whole sequence when it has fewer user turns than the cap. *)
Theorem trim_messages_spec (messages : list Msg.t) (max_turns : Z) :
  (max_turns <= 0 /\ _trim_messages messages max_turns = [])
  \/
  (0 < max_turns /\
   exists dropped,
     messages = dropped ++ _trim_messages messages max_turns /\
     ((user_turns_of (_trim_messages messages max_turns) = max_turns /\
       exists first rest,
         _trim_messages messages max_turns = first :: rest /\
         is_user first = true)
      \/
      (dropped = [] /\ user_turns_of messages < max_turns))).
Proof.
  unfold _trim_messages. destruct (Z.leb_spec max_turns 0) as [H|H].
  - left. now split.
  - right. split; [exact H|].
    destruct (trim_loop_spec max_turns (rev messages) [] 0 H)
      as [taken [rest [E [Et Hc]]]].
    rewrite Et. simpl.
    assert (Em : messages = rev rest ++ rev taken).
    { rewrite <- rev_app_distr, <- E. symmetry. apply rev_involutive. }
    exists (rev rest). split; [exact Em|].
    destruct Hc as [[Hn [pre [m [Ep Hm]]]]|[Hr Hn]].
    + left. split; [rewrite user_turns_of_rev; lia|].
      exists m, (rev pre). split; [|exact Hm].
      rewrite Ep, rev_app_distr. reflexivity.
    + right. split; [now rewrite Hr|].
      rewrite Em, Hr. simpl. rewrite user_turns_of_rev. lia.
Qed.

(** ** Dispatcher: the reservation before the upstream call *)

(** An update changes the records with the given key as [apply_update]
    says and no other record. *)
Lemma update_store_Forall2 (P : Doc.t -> Doc.t -> Prop) (guild_id : Z)
    (name : string) (update : list field_update) (docs : list Doc.t) :
  (forall d, P d (apply_update update d)) ->
  Forall2 (fun d d' => if has_key guild_id name d then P d d' else d' = d)
    docs
    (List.map (fun d => if has_key guild_id name d
                        then apply_update update d else d) docs).
Proof.
  intros HP. induction docs as [|d l IH]; simpl; constructor.
  - destruct (has_key guild_id name d); [apply HP | reflexivity].
  - exact IH.
Qed.

Lemma update_key_usage_run (W : world) (doc : Doc.t) (candidate : Cand.t) (st : state) :
  _update_key_usage W doc candidate st =
    (Ok tt, updated (Doc.guild_id doc) (Doc.name doc)
              (usage_update candidate (clock W (ticks st))) st).
Proof. reflexivity. Qed.

Lemma build_key_candidate_windows (doc : Doc.t) (now : datetime) (c : Cand.t) :
  _build_key_candidate doc now = Some c ->
  Cand.doc c = doc /\
  (Cand.minute_start c, Cand.minute_count c) =
    _window_state (Doc.minute_window_started_at doc)
      (Doc.minute_window_count doc) 60 now /\
  (Cand.day_start c, Cand.day_count c) =
    _window_state (Doc.day_started_at doc) (Doc.day_count doc) 86400 now.
Proof.
  intros H.
  destruct (build_key_candidate_Some doc now c H) as [Hd [Hm [Hday _]]].
  now repeat split.
Qed.

(** C4, as stated, fails: the reservation does not touch [cooldown_until];
    a key whose cooldown ended a minute ago keeps that timestamp. *)
Lemma update_key_usage_counterexample :
  exists candidate st' d',
    _build_key_candidate Fixtures.cooled_key Fixtures.t2026 = Some candidate /\
    _update_key_usage (Fixtures.world_with []) Fixtures.cooled_key candidate
      (Fixtures.state_of [Fixtures.cooled_key]) = (Ok tt, st') /\
    find_key 1 "cooled" (store st') = Some d' /\
    Doc.last_used_at d' = Some Fixtures.t2026 /\
    Doc.cooldown_until d' = Some (Fixtures.t2026 - 60000000) /\
    Doc.cooldown_until d' <> None.
Proof.
  eexists. eexists. eexists.
  split; [vm_compute; reflexivity|].
  split; [vm_compute; reflexivity|].
  split; [vm_compute; reflexivity|].
  split; [vm_compute; reflexivity|].
  split; [vm_compute; reflexivity|].
  vm_compute. discriminate.
Qed.

(** C4, amended. A candidate whose secret decrypts is attempted by first
    writing the reservation and then calling upstream from the state so
    reached: on the record of the credential, the advanced minute and day
    windows with both counts plus one, [last_used_at] and [updated_at] set
    to the time of the reservation, and the three error fields cleared.
    The cooldown, the flags, the limits, the secret and the identity of the
    record, and all other records, stay as they were, and no upstream call
    is made by the reservation. *)
Theorem update_key_usage_reservation (W : world) (guild_id : Z) (payload : json)
    (doc : Doc.t) (selected_at : datetime) (candidate : Cand.t)
    (api_key : string) (st : state) :
  _build_key_candidate doc selected_at = Some candidate ->
  decrypt_doc_key W doc = Ok api_key ->
  let minute := _window_state (Doc.minute_window_started_at doc)
                  (Doc.minute_window_count doc) 60 selected_at in
  let day := _window_state (Doc.day_started_at doc) (Doc.day_count doc)
               86400 selected_at in
  let st' := snd (_update_key_usage W doc candidate st) in
  attempt W guild_id payload candidate st =
    after_reservation W guild_id payload candidate api_key st' /\
  fst (_update_key_usage W doc candidate st) = Ok tt /\
  calls st' = calls st /\
  Forall2 (fun d d' =>
             if has_key (Doc.guild_id doc) (Doc.name doc) d
             then reserved minute day (clock W (ticks st)) d d'
             else d' = d)
    (store st) (store st').
Proof.
  intros Hb Hk minute day st'.
  destruct (build_key_candidate_windows doc selected_at candidate Hb)
    as [Hd [Hm Hday]].
  fold minute in Hm. fold day in Hday.
  split.
  { unfold attempt, attempt_with_key. rewrite Hd, Hk. reflexivity. }
  split; [reflexivity|]. split; [reflexivity|].
  unfold st'. rewrite update_key_usage_run. unfold updated. cbn [snd store].
  apply (update_store_Forall2
           (reserved minute day (clock W (ticks st)))
           (Doc.guild_id doc) (Doc.name doc)).
  intros d. rewrite <- Hm, <- Hday. unfold reserved. simpl.
  repeat split; reflexivity.
Qed.

(** The reservation at work on the key whose cooldown ended a minute ago. *)
Lemma update_key_usage_reservation_witness :
  exists candidate,
    _build_key_candidate Fixtures.cooled_key Fixtures.t2026 = Some candidate /\
    decrypt_doc_key (Fixtures.world_with []) Fixtures.cooled_key = Ok "sk-live-1" /\
    let W := Fixtures.world_with [] in
    let st := Fixtures.state_of [Fixtures.cooled_key] in
    let st' := snd (_update_key_usage W Fixtures.cooled_key candidate st) in
    attempt W 1 Fixtures.chat_payload candidate st =
      after_reservation W 1 Fixtures.chat_payload candidate "sk-live-1" st' /\
    fst (_update_key_usage W Fixtures.cooled_key candidate st) = Ok tt /\
    calls st' = calls st /\
    Forall2 (fun d d' =>
               if has_key 1 "cooled" d
               then reserved (Fixtures.t2026, 0) (Fixtures.t2026, 0)
                      Fixtures.t2026 d d'
               else d' = d)
      (store st) (store st').
Proof.
  eexists.
  split; [vm_compute; reflexivity|].
  split; [vm_compute; reflexivity|].
  apply (update_key_usage_reservation (Fixtures.world_with []) 1
           Fixtures.chat_payload Fixtures.cooled_key Fixtures.t2026).
  - vm_compute. reflexivity.
  - vm_compute. reflexivity.
Defined.

(** ** Dispatcher: recording an error *)

Lemma cooldown_end_absent (now : datetime) (cooldown_seconds : option Z) :
  cooldown_seconds = None \/ cooldown_seconds = Some 0 ->
  cooldown_end now cooldown_seconds = Ok None.
Proof. intros [-> | ->]; reflexivity. Qed.

Lemma cooldown_end_representable (now : datetime) (n : Z) :
  n <> 0 -> cooldown_representable now n ->
  cooldown_end now (Some n) = Ok (Some (now + n * 1000000)).
Proof.
  intros Hn [Hd Hs]. unfold cooldown_end, cooldown_given.
  apply Z.eqb_neq in Hn. rewrite Hn. unfold timedelta_seconds.
  replace ((n / 86400 <? -2147483648) || (2147483647 <? n / 86400)) with false
    by (symmetry; apply orb_false_intro; apply Z.ltb_ge; lia).
  replace (999999999 <? Z.abs (n / 86400)) with false
    by (symmetry; apply Z.ltb_ge; lia).
  cbn [bind_result]. unfold datetime_add.
  replace ((now + n * 1000000 <? datetime_min_utc)
           || (datetime_max_utc <? now + n * 1000000)) with false
    by (symmetry; apply orb_false_intro; apply Z.ltb_ge; lia).
  reflexivity.
Qed.

Lemma cooldown_end_overflow (now : datetime) (n : Z) :
  n <> 0 -> ~ cooldown_representable now n ->
  exists e, cooldown_end now (Some n) = Raise e /\ exc_class_of e = OverflowError.
Proof.
  intros Hn Hr. unfold cooldown_end, cooldown_given.
  apply Z.eqb_neq in Hn. rewrite Hn. unfold timedelta_seconds.
  destruct ((n / 86400 <? -2147483648) || (2147483647 <? n / 86400)) eqn:E1;
    [eexists; split; reflexivity|].
  destruct (999999999 <? Z.abs (n / 86400)) eqn:E2;
    [eexists; split; reflexivity|].
  cbn [bind_result]. unfold datetime_add.
  destruct ((now + n * 1000000 <? datetime_min_utc)
            || (datetime_max_utc <? now + n * 1000000)) eqn:E3;
    [eexists; split; reflexivity|].
  exfalso. apply Hr. apply Z.ltb_ge in E2. apply orb_false_elim in E3.
  destruct E3 as [E3 E4]. apply Z.ltb_ge in E3, E4.
  split; lia.
Qed.

(** A cooldown end that is written is the time of the error plus a
    duration that is given and not zero. *)
Lemma cooldown_end_Some (now : datetime) (cooldown_seconds : option Z)
    (cooldown_until : datetime) :
  cooldown_end now cooldown_seconds = Ok (Some cooldown_until) ->
  exists n, cooldown_seconds = Some n /\ n <> 0 /\
            cooldown_until = now + n * 1000000.
Proof.
  unfold cooldown_end, cooldown_given. destruct cooldown_seconds as [n|];
    [|discriminate].
  destruct (Z.eqb_spec n 0) as [|Hn]; [discriminate|].
  unfold timedelta_seconds.
  destruct ((n / 86400 <? -2147483648) || (2147483647 <? n / 86400));
    [discriminate|].
  destruct (999999999 <? Z.abs (n / 86400)); [discriminate|].
  cbn [bind_result]. unfold datetime_add.
  destruct ((now + n * 1000000 <? datetime_min_utc)
            || (datetime_max_utc <? now + n * 1000000)); [discriminate|].
  intros [= <-]. exists n. repeat split. exact Hn.
Qed.

Lemma set_key_error_run (W : world) (doc : Doc.t) (code : Z) (message text : json)
    (cooldown_seconds : option Z) (cooldown_until : option datetime)
    (disable : bool) (st : state) :
  slice_status_text message = Ok text ->
  cooldown_end (clock W (ticks st)) cooldown_seconds = Ok cooldown_until ->
  _set_key_error W doc code message cooldown_seconds disable st =
    (Ok tt, updated (Doc.guild_id doc) (Doc.name doc)
              (error_update code text cooldown_until disable (clock W (ticks st)))
              st).
Proof.
  intros H Hc. unfold _set_key_error, bind, _now, lift. cbn [ticks].
  rewrite H, Hc. reflexivity.
Qed.

(** A cooldown end that cannot be computed: the exception leaves
    [_set_key_error] after the reading of the clock, before the update. *)
Lemma set_key_error_overflow (W : world) (doc : Doc.t) (code : Z)
    (message text : json) (cooldown_seconds : option Z) (e : exc)
    (disable : bool) (st : state) :
  slice_status_text message = Ok text ->
  cooldown_end (clock W (ticks st)) cooldown_seconds = Raise e ->
  _set_key_error W doc code message cooldown_seconds disable st =
    (Raise e, {| store := store st; ticks := S (ticks st);
                 calls := calls st; notices := notices st |}).
Proof.
  intros H Hc. unfold _set_key_error, bind, _now, lift. cbn [ticks].
  rewrite H, Hc. reflexivity.
Qed.

Lemma error_update_recorded (code : Z) (text : json) (cooldown_until : option datetime)
    (disable : bool) (now : datetime) (d : Doc.t) :
  error_recorded code text cooldown_until disable now d
    (apply_update (error_update code text cooldown_until disable now) d).
Proof.
  unfold error_recorded, error_update.
  destruct cooldown_until as [t|];
    destruct disable; simpl; repeat split; reflexivity.
Qed.

Lemma set_key_error_store (W : world) (doc : Doc.t) (code : Z) (message text : json)
    (cooldown_seconds : option Z) (cooldown_until : option datetime)
    (disable : bool) (st : state) :
  slice_status_text message = Ok text ->
  cooldown_end (clock W (ticks st)) cooldown_seconds = Ok cooldown_until ->
  Forall2 (fun d d' =>
             if has_key (Doc.guild_id doc) (Doc.name doc) d
             then error_recorded code text cooldown_until disable
                    (clock W (ticks st)) d d'
             else d' = d)
    (store st)
    (store (snd (_set_key_error W doc code message cooldown_seconds disable st))).
Proof.
  intros H Hc. rewrite (set_key_error_run _ _ _ _ _ _ _ _ _ H Hc).
  unfold updated. cbn [snd store].
  apply (update_store_Forall2
           (error_recorded code text cooldown_until disable (clock W (ticks st)))).
  apply error_update_recorded.
Qed.

Lemma rate_limit_cooldown_zero (W : world) (s : string) (q : Q) :
  s <> "" -> float_of_str W s = Some (FFin q) -> int_of_Q q = 0 ->
  rate_limit_cooldown W (Some s) = Ok 0.
Proof.
  intros Hs Hf Hq. unfold rate_limit_cooldown.
  destruct (String.eqb_spec s ""); [contradiction|].
  rewrite Hf. simpl. now rewrite Hq.
Qed.

Lemma handle_rate_limit_zero (W : world) (guild_id : Z) (doc : Doc.t)
    (r : response) (s : string) (q : Q) (kept : json) (st : state) :
  status r = 429 -> retry_after r = Some s -> s <> "" ->
  float_of_str W s = Some (FFin q) -> int_of_Q q = 0 ->
  slice_status_text (extract_error_message (data r) (text r)) = Ok kept ->
  handle_error_response W guild_id doc r st =
    (Ok (Continue (JStr "AI rate limit reached. Retrying with another key.")),
     updated (Doc.guild_id doc) (Doc.name doc)
       (error_update 429 kept None false (clock W (ticks st))) st).
Proof.
  intros Hst Hra Hs Hf Hq Hk. unfold handle_error_response.
  rewrite Hst, Hra, Z.eqb_refl. unfold bind, lift.
  rewrite (rate_limit_cooldown_zero W s q Hs Hf Hq).
  rewrite (set_key_error_run W doc 429 _ kept (Some 0) None false st Hk eq_refl).
  reflexivity.
Qed.

(** C10, as stated, fails in its last part: a negative duration also
    produces a cooldown end. A 429 response with [Retry-After: -5] leaves
    the key with a cooldown end five seconds before the time of the
    error. *)
Lemma negative_cooldown_counterexample :
  let W := Fixtures.world_with
             [ Ok (Fixtures.error_response 429 (JStr "slow down") (Some "-5"));
               Ok (Fixtures.completion "hi") ] in
  let st := Fixtures.state_of Fixtures.pool_two in
  rate_limit_cooldown W (Some "-5") = Ok (-5) /\
  ~ 0 < -5 /\
  exists st' d d',
    _call_openrouter W 1 Fixtures.chat_payload st = (Ok (JStr "hi", JNull), st') /\
    find_key 1 "first" (store st) = Some d /\
    find_key 1 "first" (store st') = Some d' /\
    Doc.last_error_code d' = Some 429 /\
    Doc.cooldown_until d = None /\
    Doc.cooldown_until d' = Some (Fixtures.clock_2026 2 - 5000000).
Proof.
  split; [vm_compute; reflexivity|]. split; [lia|].
  eexists. eexists. eexists.
  split; [vm_compute; reflexivity|].
  split; [vm_compute; reflexivity|].
  split; [vm_compute; reflexivity|].
  split; [vm_compute; reflexivity|].
  split; vm_compute; reflexivity.
Qed.

(** C10, amended. An error recorded with no cooldown duration or with a
    duration of zero seconds writes the error fields and leaves
    [cooldown_until] as it was. Any other duration, positive or negative,
    that can be added to the time of the error sets [cooldown_until] to
    that time plus the duration; one that cannot (a duration outside the
    range of [timedelta], or a sum outside the years 1 to 9999) makes the
    recording raise [OverflowError], and nothing is written. In
    particular a 429 response whose [Retry-After] converts to 0 records the
    error without a cooldown, and the loop goes on. *)
Theorem zero_cooldown_not_recorded (W : world) (doc : Doc.t) (st : state) :
  let now := clock W (ticks st) in
  let recorded code kept cooldown_until disable st' :=
    Forall2 (fun d d' =>
               if has_key (Doc.guild_id doc) (Doc.name doc) d
               then error_recorded code kept cooldown_until disable now d d'
               else d' = d)
      (store st) (store st') in
  (forall (code : Z) (message kept : json) (cooldown_seconds : option Z)
          (disable : bool),
     slice_status_text message = Ok kept ->
     let out := _set_key_error W doc code message cooldown_seconds disable st in
     (cooldown_seconds = None \/ cooldown_seconds = Some 0 ->
      fst out = Ok tt /\ recorded code kept None disable (snd out)) /\
     (forall n, cooldown_seconds = Some n -> n <> 0 ->
        cooldown_representable now n ->
        fst out = Ok tt /\
        recorded code kept (Some (now + n * 1000000)) disable (snd out)) /\
     (forall n, cooldown_seconds = Some n -> n <> 0 ->
        ~ cooldown_representable now n ->
        (exists e, fst out = Raise e /\ exc_class_of e = OverflowError) /\
        store (snd out) = store st))
  /\
  (forall (guild_id : Z) (r : response) (s : string) (q : Q) (kept : json),
     status r = 429 -> retry_after r = Some s -> s <> "" ->
     float_of_str W s = Some (FFin q) -> int_of_Q q = 0 ->
     slice_status_text (extract_error_message (data r) (text r)) = Ok kept ->
     fst (handle_error_response W guild_id doc r st) =
       Ok (Continue (JStr "AI rate limit reached. Retrying with another key.")) /\
     recorded 429 kept None false (snd (handle_error_response W guild_id doc r st)) /\
     Forall2 (fun d d' => Doc.cooldown_until d' = Doc.cooldown_until d)
       (store st) (store (snd (handle_error_response W guild_id doc r st)))).
Proof.
  intros now recorded. split.
  - intros code message kept cooldown_seconds disable Hk out.
    split; [|split].
    + intros H0. pose proof (cooldown_end_absent now _ H0) as Hc.
      unfold out. split.
      * now rewrite (set_key_error_run _ _ _ _ _ _ _ _ _ Hk Hc).
      * now apply set_key_error_store.
    + intros n -> Hn Hr. pose proof (cooldown_end_representable now n Hn Hr) as Hc.
      unfold out. split.
      * now rewrite (set_key_error_run _ _ _ _ _ _ _ _ _ Hk Hc).
      * now apply set_key_error_store.
    + intros n -> Hn Hr.
      destruct (cooldown_end_overflow now n Hn Hr) as [e [Hc He]].
      unfold out. rewrite (set_key_error_overflow _ _ _ _ _ _ _ _ _ Hk Hc).
      cbn [fst snd store]. split; [|reflexivity].
      exists e. split; [reflexivity | exact He].
  - intros guild_id r s q kept Hst Hra Hs Hf Hq Hk.
    rewrite (handle_rate_limit_zero W guild_id doc r s q kept st Hst Hra Hs Hf Hq Hk).
    cbn [fst snd]. split; [reflexivity|].
    assert (HF : recorded 429 kept None false
                   (updated (Doc.guild_id doc) (Doc.name doc)
                      (error_update 429 kept None false now) st)).
    { unfold recorded, updated. cbn [store]. apply update_store_Forall2.
      apply error_update_recorded. }
    split; [exact HF|].
    eapply Forall2_impl; [exact HF|]. intros d d' H. cbn beta in H.
    destruct (has_key (Doc.guild_id doc) (Doc.name doc) d); [|now subst].
    destruct H as [_ [_ [_ [_ [H _]]]]]. exact H.
Qed.

(** A 429 response with [Retry-After: 0.5] on the first key: the error is
    recorded, no cooldown is. *)
Lemma zero_cooldown_not_recorded_witness :
  let W := Fixtures.world_with [] in
  let doc := Fixtures.key_doc "first"
               (Fixtures.stored_secret "c2VjcmV0AAAAAAAAAAAAAHNrLWxpdmUtMQ==")
               None None in
  let st := Fixtures.state_of Fixtures.pool_two in
  let r := Fixtures.error_response 429 (JStr "slow down") (Some "0.5") in
  float_of_str W "0.5" = Some (FFin (5 # 10)) /\
  slice_status_text (extract_error_message (data r) (text r)) = Ok (JStr "slow down") /\
  fst (handle_error_response W 1 doc r st) =
    Ok (Continue (JStr "AI rate limit reached. Retrying with another key.")) /\
  Forall2 (fun d d' => Doc.cooldown_until d' = Doc.cooldown_until d)
    (store st) (store (snd (handle_error_response W 1 doc r st))) /\
  fst (_set_key_error W doc 0 (JStr "Key decryption failed") (Some 0) false st)
    = Ok tt /\
  (exists e,
     fst (_set_key_error W doc 429 (JStr "slow down") (Some (10 ^ 18)) false st)
       = Raise e /\ exc_class_of e = OverflowError).
Proof.
  intros W doc st r.
  assert (Hf : float_of_str W "0.5" = Some (FFin (5 # 10)))
    by (vm_compute; reflexivity).
  assert (Hk : slice_status_text (extract_error_message (data r) (text r))
               = Ok (JStr "slow down")) by (vm_compute; reflexivity).
  destruct (zero_cooldown_not_recorded W doc st) as [H1 H2].
  destruct (H2 1 r "0.5" (5 # 10) (JStr "slow down")
              eq_refl eq_refl ltac:(discriminate) Hf eq_refl Hk)
    as [Hr [_ Hc]].
  destruct (H1 0 (JStr "Key decryption failed") (JStr "Key decryption failed")
              (Some 0) false eq_refl) as [Hs _].
  destruct (H1 429 (JStr "slow down") (JStr "slow down") (Some (10 ^ 18)) false
              eq_refl) as [_ [_ Ho]].
  assert (Hbig : ~ cooldown_representable (clock W (ticks st)) (10 ^ 18)).
  { intros [Hd _]. vm_compute in Hd. destruct Hd as [_ Hd]. apply Hd. reflexivity. }
  split; [exact Hf|]. split; [exact Hk|]. split; [exact Hr|]. split; [exact Hc|].
  split.
  - exact (proj1 (Hs (or_intror eq_refl))).
  - exact (proj1 (Ho (10 ^ 18) eq_refl ltac:(discriminate) Hbig)).
Defined.

(** A 429 response with [Retry-After: 1000000000000000000]: the duration
    is outside the range of [timedelta], the dispatch raises
    [OverflowError], nothing is recorded for the key and the second key,
    which would have answered, is not tried. *)
Example huge_retry_after_raises :
  let W := Fixtures.world_with
             [ Ok (Fixtures.error_response 429 (JStr "slow down")
                     (Some "1000000000000000000"));
               Ok (Fixtures.completion "hi") ] in
  let out := _call_openrouter W 1 Fixtures.chat_payload
               (Fixtures.state_of Fixtures.pool_two) in
  fst out = raise_ OverflowError "Python int too large to convert to C int" /\
  calls (snd out) = ["sk-live-1"] /\
  (Doc.last_error_code <$> find_key 1 "first" (store (snd out))) = Some None /\
  (Doc.cooldown_until <$> find_key 1 "first" (store (snd out))) = Some None.
Proof. vm_compute. repeat split; reflexivity. Qed.

(** ** Dispatcher: decryption failures *)

(** Without the encryption secret in the environment every decryption
    raises the [ValueError] of [_get_secret_key]. *)
Lemma decrypt_secret_unset (W : world) (payload : gmap string string) :
  getenv W ENC_SECRET_ENV = None ->
  decrypt_api_key W payload = raise_ ValueError (ENC_SECRET_ENV +:+ " is not set").
Proof.
  intros H. unfold decrypt_api_key, _get_secret_key. rewrite H. reflexivity.
Qed.

(** A decryption that raises a [ValueError], of whatever origin, ends the
    dispatch at once with the text of the exception: nothing is recorded
    and the candidates that follow are not tried. *)
Lemma loop_value_error_aborts (W : world) (guild_id : Z) (payload : json)
    (candidate : Cand.t) (rest : list Cand.t) (last_error : json)
    (e : exc) (st : state) :
  decrypt_doc_key W (Cand.doc candidate) = Raise e ->
  is_ValueError (exc_class_of e) = true ->
  failover_loop W guild_id payload (candidate :: rest) last_error st =
    (Ok (JNull, JStr (exc_str e)), st).
Proof.
  intros Hd Hv. simpl. unfold bind, attempt. rewrite Hd, Hv. reflexivity.
Qed.

(** A decryption that raises another exception is recorded on the
    credential, which is disabled, and the loop goes on with the next
    candidate. *)
Lemma loop_other_error_advances (W : world) (guild_id : Z) (payload : json)
    (candidate : Cand.t) (rest : list Cand.t) (last_error : json)
    (e : exc) (st : state) :
  decrypt_doc_key W (Cand.doc candidate) = Raise e ->
  is_ValueError (exc_class_of e) = false ->
  failover_loop W guild_id payload (candidate :: rest) last_error st =
    failover_loop W guild_id payload rest (JStr "AI key decryption failed.")
      (updated (Doc.guild_id (Cand.doc candidate)) (Doc.name (Cand.doc candidate))
         (error_update 0 (JStr "Key decryption failed") None true
            (clock W (ticks st))) st).
Proof.
  intros Hd Hv. simpl. unfold bind at 1. unfold attempt. rewrite Hd, Hv.
  unfold bind at 1.
  rewrite (set_key_error_run W _ 0 (JStr "Key decryption failed")
             (JStr "Key decryption failed") None None true st eq_refl eq_refl).
  reflexivity.
Qed.

(** The configuration failure: with the secret unset, the first candidate
    that has a stored secret ends the dispatch. *)
Lemma loop_secret_unset_aborts (W : world) (guild_id : Z) (payload : json)
    (candidate : Cand.t) (rest : list Cand.t) (last_error : json)
    (secret : gmap string string) (st : state) :
  getenv W ENC_SECRET_ENV = None ->
  Doc.encrypted_api_key (Cand.doc candidate) = Some secret ->
  failover_loop W guild_id payload (candidate :: rest) last_error st =
    (Ok (JNull, JStr "LOGIQ_AI_KEY_ENC_SECRET is not set"), st).
Proof.
  intros He Hs.
  apply (loop_value_error_aborts W guild_id payload candidate rest last_error
           {| exc_class_of := ValueError;
              exc_str := "LOGIQ_AI_KEY_ENC_SECRET is not set" |}).
  - unfold decrypt_doc_key. rewrite Hs. now rewrite decrypt_secret_unset.
  - reflexivity.
Qed.

(** A stored nonce that is not valid base64 makes [base64.b64decode]
    raise [binascii.Error], a [ValueError]: the dispatch ends there. *)
Lemma loop_bad_base64_aborts (W : world) (guild_id : Z) (payload : json)
    (candidate : Cand.t) (rest : list Cand.t) (last_error : json)
    (secret : gmap string string) (secret_value nonce msg : string) (st : state) :
  getenv W ENC_SECRET_ENV = Some secret_value -> secret_value <> "" ->
  Doc.encrypted_api_key (Cand.doc candidate) = Some secret ->
  secret !! "nonce" = Some nonce ->
  b64decode W nonce = raise_ BinasciiError msg ->
  failover_loop W guild_id payload (candidate :: rest) last_error st =
    (Ok (JNull, JStr msg), st).
Proof.
  intros He Hne Hs Hn Hb.
  apply (loop_value_error_aborts W guild_id payload candidate rest last_error
           {| exc_class_of := BinasciiError; exc_str := msg |}).
  - unfold decrypt_doc_key. rewrite Hs.
    unfold decrypt_api_key, _get_secret_key, payload_item. rewrite He.
    destruct (String.eqb_spec secret_value ""); [contradiction|].
    simpl. rewrite Hn. simpl. rewrite Hb. reflexivity.
  - reflexivity.
Qed.

(** C3 at a corrupt stored secret. The first key of the pool has a nonce
    that is not valid base64 and the encryption secret is set: the
    dispatch returns the text of [binascii.Error] at once; the key is
    neither marked with an error nor disabled, and the sound key that
    follows is not tried. *)
Theorem corrupt_nonce_aborts_dispatch :
  let W := Fixtures.world_with [ Ok (Fixtures.completion "hi") ] in
  let st := Fixtures.state_of Fixtures.pool_corrupt in
  getenv W ENC_SECRET_ENV = Some "secret" /\
  b64decode W "abc" = raise_ BinasciiError "Incorrect padding" /\
  exists st',
    _call_openrouter W 1 Fixtures.chat_payload st =
      (Ok (JNull, JStr "Incorrect padding"), st') /\
    store st' = Fixtures.pool_corrupt /\
    calls st' = [] /\
    (Doc.enabled <$> find_key 1 "corrupt" (store st')) = Some (Some true) /\
    (Doc.last_error <$> find_key 1 "corrupt" (store st')) = Some None.
Proof.
  split; [vm_compute; reflexivity|]. split; [vm_compute; reflexivity|].
  eexists. split; [vm_compute; reflexivity|].
  split; [vm_compute; reflexivity|].
  split; [vm_compute; reflexivity|].
  split; vm_compute; reflexivity.
Qed.

(** ** Dispatcher: a status outside the handled classes *)

(** A response whose status is not 200, 429, 401 or 402 and is below 500,
    and whose error message can be cut to the stored length: after the
    reservation and the call, the error is recorded with a cooldown of 30
    seconds, the loop stops, and the dispatch returns no text and the
    error message. The candidates that follow are not tried: the call made
    for this candidate is the last one. *)
Lemma unclassified_status_halts (W : world) (guild_id : Z) (payload : json)
    (candidate : Cand.t) (rest : list Cand.t) (last_error : json)
    (api_key : string) (r : response) (kept : json) (st : state) :
  decrypt_doc_key W (Cand.doc candidate) = Ok api_key ->
  request_json W (length (calls st)) api_key payload = Ok r ->
  status r <> 200 -> status r <> 429 -> status r <> 401 -> status r <> 402 ->
  status r < 500 ->
  slice_status_text (extract_error_message (data r) (text r)) = Ok kept ->
  let doc := Cand.doc candidate in
  let st1 := updated (Doc.guild_id doc) (Doc.name doc)
               (usage_update candidate (clock W (ticks st))) st in
  let st2 := called api_key st1 in
  cooldown_representable (clock W (ticks st2))
    DEFAULT_RATE_LIMIT_COOLDOWN_SECONDS ->
  failover_loop W guild_id payload (candidate :: rest) last_error st =
    (Ok (JNull, extract_error_message (data r) (text r)),
     updated (Doc.guild_id doc) (Doc.name doc)
       (error_update (status r) kept
          (Some (clock W (ticks st2)
                 + DEFAULT_RATE_LIMIT_COOLDOWN_SECONDS * 1000000))
          false (clock W (ticks st2)))
       st2).
Proof.
  intros Hd Hreq H200 H429 H401 H402 H500 Hk doc st1 st2 Hfit.
  cbn [failover_loop]. unfold bind at 1. unfold attempt. rewrite Hd.
  unfold attempt_with_key. unfold bind at 1. rewrite update_key_usage_run.
  fold doc. fold st1.
  unfold after_reservation. unfold bind at 1. unfold call_request_json.
  replace (length (calls st1)) with (length (calls st)) by reflexivity.
  rewrite Hreq.
  apply Z.eqb_neq in H200, H429, H401, H402. apply Z.leb_gt in H500.
  rewrite H200. cbn [andb].
  unfold handle_error_response. rewrite H429, H401, H402, H500. cbn [orb].
  unfold bind. fold doc.
  change {| store := store st1; ticks := ticks st1;
            calls := calls st1 ++ [api_key]; notices := notices st1 |}
    with st2.
  assert (H30 : DEFAULT_RATE_LIMIT_COOLDOWN_SECONDS <> 0) by discriminate.
  rewrite (set_key_error_run W doc (status r) _ kept _ _ false st2 Hk
             (cooldown_end_representable _ _ H30 Hfit)).
  reflexivity.
Qed.

(** The same response with an error message that cannot be cut (a number,
    [true] or an object): the exception raised by the cut leaves
    [_set_key_error] and the dispatch; after the reservation and the call
    only the clock has been read once more. *)
Lemma unsliceable_error_message_raises (W : world) (guild_id : Z) (payload : json)
    (candidate : Cand.t) (rest : list Cand.t) (last_error : json)
    (api_key : string) (r : response) (e : exc) (st : state) :
  decrypt_doc_key W (Cand.doc candidate) = Ok api_key ->
  request_json W (length (calls st)) api_key payload = Ok r ->
  status r <> 200 -> status r <> 429 -> status r <> 401 -> status r <> 402 ->
  status r < 500 ->
  slice_status_text (extract_error_message (data r) (text r)) = Raise e ->
  let doc := Cand.doc candidate in
  let st1 := updated (Doc.guild_id doc) (Doc.name doc)
               (usage_update candidate (clock W (ticks st))) st in
  failover_loop W guild_id payload (candidate :: rest) last_error st =
    (Raise e,
     {| store := store st1; ticks := S (ticks st1);
        calls := calls st ++ [api_key]; notices := notices st |}).
Proof.
  intros Hd Hreq H200 H429 H401 H402 H500 Hk doc st1.
  cbn [failover_loop]. unfold bind at 1. unfold attempt. rewrite Hd.
  unfold attempt_with_key. unfold bind at 1. rewrite update_key_usage_run.
  fold doc. fold st1.
  unfold after_reservation. unfold bind at 1. unfold call_request_json.
  replace (length (calls st1)) with (length (calls st)) by reflexivity.
  rewrite Hreq.
  apply Z.eqb_neq in H200, H429, H401, H402. apply Z.leb_gt in H500.
  rewrite H200. cbn [andb].
  unfold handle_error_response. rewrite H429, H401, H402, H500. cbn [orb].
  unfold bind, _set_key_error, bind, _now, lift. rewrite Hk. reflexivity.
Qed.

(** C5 at an error message that is not text. The upstream service answers
    the first key with status 400 and the body
    [{"error": {"message": 5}}]: cutting the message to the stored length
    raises [TypeError] inside [_set_key_error], and the dispatch raises
    instead of returning; the key has its reservation and neither an error
    nor a cooldown. *)
Theorem numeric_error_message_raises :
  let W := Fixtures.world_with
             [ Ok (Fixtures.error_response 400 (JInt 5) None);
               Ok (Fixtures.completion "hi") ] in
  let st := Fixtures.state_of Fixtures.pool_two in
  extract_error_message (data (Fixtures.error_response 400 (JInt 5) None))
    (text (Fixtures.error_response 400 (JInt 5) None)) = JInt 5 /\
  exists st' d',
    _call_openrouter W 1 Fixtures.chat_payload st =
      (raise_ TypeError "'int' object is not subscriptable", st') /\
    calls st' = ["sk-live-1"] /\
    find_key 1 "first" (store st') = Some d' /\
    Doc.minute_window_count d' = Some 1 /\
    Doc.last_error_code d' = None /\
    Doc.cooldown_until d' = None.
Proof.
  split; [vm_compute; reflexivity|].
  eexists. eexists. split; [vm_compute; reflexivity|].
  split; [vm_compute; reflexivity|].
  split; [vm_compute; reflexivity|].
  split; [vm_compute; reflexivity|].
  split; vm_compute; reflexivity.
Qed.

(** The same status with a text message: a cooldown of 30 seconds from the
    time of the error, and the second key is not tried. *)
Example text_error_message_halts :
  let W := Fixtures.world_with
             [ Ok (Fixtures.error_response 400 (JStr "bad request") None);
               Ok (Fixtures.completion "hi") ] in
  exists st' d',
    _call_openrouter W 1 Fixtures.chat_payload (Fixtures.state_of Fixtures.pool_two) =
      (Ok (JNull, JStr "bad request"), st') /\
    calls st' = ["sk-live-1"] /\
    find_key 1 "first" (store st') = Some d' /\
    Doc.last_error_code d' = Some 400 /\
    Doc.cooldown_until d' = Some (Fixtures.clock_2026 2 + 30000000).
Proof.
  eexists. eexists. split; [vm_compute; reflexivity|].
  split; [vm_compute; reflexivity|].
  split; [vm_compute; reflexivity|].
  split; vm_compute; reflexivity.
Qed.

(** A history of five exchanges trimmed to two user turns: the last two
    user turns and the answers after them, in order. *)
Example trim_five_exchanges :
  _trim_messages Fixtures.five_exchanges 2 =
    [ Fixtures.turn "user" 4; Fixtures.turn "assistant" 4;
      Fixtures.turn "user" 5; Fixtures.turn "assistant" 5 ].
Proof. vm_compute. reflexivity. Qed.

(** Three keys answered 429, 500 and 200: the text of the third answer is
    returned; the first two keys are left with a cooldown and the third
    with none. *)
Example failover_429_500_200 :
  let W := Fixtures.world_with
             [ Ok (Fixtures.error_response 429 (JStr "slow down") None);
               Ok (Fixtures.error_response 500 (JStr "oops") None);
               Ok (Fixtures.completion "hi") ] in
  let st := Fixtures.state_of (Fixtures.pool_two ++ [Fixtures.cooled_key]) in
  exists st',
    _call_openrouter W 1 Fixtures.chat_payload st = (Ok (JStr "hi", JNull), st') /\
    List.map (fun d => (Doc.name d, Doc.last_error_code d)) (store st') =
      [("first", Some 429); ("second", Some 500); ("cooled", None)] /\
    (Doc.cooldown_until <$> find_key 1 "first" (store st')) =
      Some (Some (Fixtures.clock_2026 2 + 30000000)) /\
    (Doc.cooldown_until <$> find_key 1 "second" (store st')) =
      Some (Some (Fixtures.clock_2026 4 + 20000000)) /\
    calls st' = ["sk-live-1"; "sk-live-2"; "sk-live-1"].
Proof.
  eexists. split; [vm_compute; reflexivity|].
  split; [vm_compute; reflexivity|].
  split; [vm_compute; reflexivity|].
  split; vm_compute; reflexivity.
Qed.

(** * Further properties *)

(** ** Session trimming: what the trimmed history keeps *)

Lemma user_turns_of_nonneg (l : list Msg.t) : 0 <= user_turns_of l.
Proof. unfold user_turns_of. lia. Qed.

(** For a positive cap the trimmed history is an end part of the history
    that either has exactly [max_turns] user turns and starts with one, or
    is the whole history, with fewer user turns. *)
Lemma trim_messages_end_part (messages : list Msg.t) (max_turns : Z) :
  0 < max_turns ->
  exists dropped,
    messages = dropped ++ _trim_messages messages max_turns /\
    ((user_turns_of (_trim_messages messages max_turns) = max_turns /\
      exists first rest,
        _trim_messages messages max_turns = first :: rest /\
        is_user first = true)
     \/ (dropped = [] /\ user_turns_of messages < max_turns)).
Proof.
  intros H. unfold _trim_messages.
  destruct (Z.leb_spec max_turns 0) as [H0|_]; [lia|].
  destruct (trim_loop_spec max_turns (rev messages) [] 0 H)
    as [taken [rest [E [Et Hc]]]].
  rewrite Et. simpl.
  assert (Em : messages = rev rest ++ rev taken).
  { rewrite <- rev_app_distr, <- E. symmetry. apply rev_involutive. }
  exists (rev rest). split; [exact Em|].
  destruct Hc as [[Hn [pre [m [Ep Hm]]]]|[Hr Hn]].
  - left. split; [rewrite user_turns_of_rev; lia|].
    exists m, (rev pre). split; [|exact Hm].
    rewrite Ep, rev_app_distr. reflexivity.
  - right. split; [now rewrite Hr|].
    rewrite Em, Hr. simpl. rewrite user_turns_of_rev. lia.
Qed.

(** A history that already has the shape of a trimmed one is returned as
    it is. *)
Lemma trim_messages_fixed (messages : list Msg.t) (max_turns : Z) :
  0 < max_turns ->
  (user_turns_of messages = max_turns /\
   exists first rest, messages = first :: rest /\ is_user first = true)
  \/ user_turns_of messages < max_turns ->
  _trim_messages messages max_turns = messages.
Proof.
  intros H Hshape.
  destruct (trim_messages_end_part messages max_turns H)
    as [dropped [E [[Hn _]|[Hd _]]]].
  - destruct dropped as [|d dropped]; [now rewrite E at 2|]. exfalso.
    assert (Hcount : user_turns_of messages =
                     user_turns_of (d :: dropped)
                     + user_turns_of (_trim_messages messages max_turns))
      by (rewrite E at 1; apply user_turns_of_app).
    destruct Hshape as [[Hm [first [rest [Ef Hu]]]]|Hlt].
    + assert (Hd : d = first) by (rewrite Ef in E; simpl in E; now inversion E).
      rewrite (user_turns_of_cons d dropped), Hd, Hu in Hcount.
      pose proof (user_turns_of_nonneg dropped). lia.
    + pose proof (user_turns_of_nonneg (d :: dropped)). lia.
  - rewrite Hd in E. now rewrite E at 2.
Qed.

(** X1. Trimming is idempotent: the history trimmed when it is stored is
    not changed by the trimming done when it is loaded again with the same
    cap. *)
Theorem trim_messages_idempotent (messages : list Msg.t) (max_turns : Z) :
  _trim_messages (_trim_messages messages max_turns) max_turns =
  _trim_messages messages max_turns.
Proof.
  destruct (Z.le_gt_cases max_turns 0) as [H|H].
  - unfold _trim_messages. destruct (Z.leb_spec max_turns 0); [reflexivity|lia].
  - apply trim_messages_fixed; [lia|].
    destruct (trim_messages_end_part messages max_turns) as [dropped [E [Hc|[Hd Hlt]]]];
      [lia | now left |].
    right. rewrite Hd in E. simpl in E. now rewrite <- E.
Qed.

(** X2. The trimmed history never has more user turns than the cap, nor
    more than the history had; with a cap that is not positive it has
    none. *)
Theorem trim_messages_bounded (messages : list Msg.t) (max_turns : Z) :
  user_turns_of (_trim_messages messages max_turns) <= Z.max 0 max_turns /\
  user_turns_of (_trim_messages messages max_turns) <= user_turns_of messages /\
  (length (_trim_messages messages max_turns) <= length messages)%nat.
Proof.
  destruct (Z.le_gt_cases max_turns 0) as [H|H].
  - unfold _trim_messages. destruct (Z.leb_spec max_turns 0); [|lia].
    pose proof (user_turns_of_nonneg messages).
    unfold user_turns_of at 1 2. simpl. lia.
  - destruct (trim_messages_end_part messages max_turns) as [dropped [E Hc]]; [lia|].
    assert (Hcount : user_turns_of messages =
                     user_turns_of dropped
                     + user_turns_of (_trim_messages messages max_turns))
      by (rewrite E at 1; apply user_turns_of_app).
    assert (Hlen : length messages =
                   (length dropped + length (_trim_messages messages max_turns))%nat)
      by (rewrite E at 1; apply length_app).
    pose proof (user_turns_of_nonneg dropped).
    destruct Hc as [[Hn _]|[_ Hlt]]; lia.
Qed.

(** An end part of a list that ends with two given elements ends with
    them too, unless it has fewer than two elements. *)
Lemma end_part_of_two {A : Type} (h d T : list A) (q a : A) :
  h ++ [q; a] = d ++ T ->
  (exists kept, T = kept ++ [q; a] /\ h = d ++ kept) \/ T = [a] \/ T = [].
Proof.
  intros E. induction T as [|x T' _] using rev_ind; [now right; right|].
  change [q; a] with ([q] ++ [a]) in E. rewrite !app_assoc in E.
  apply app_inj_tail in E. destruct E as [E Hx]. subst x.
  induction T' as [|y T'' _] using rev_ind; [now right; left|].
  rewrite app_assoc in E. apply app_inj_tail in E. destruct E as [E Hy]. subst y.
  left. exists T''. split; [now rewrite <- app_assoc | exact E].
Qed.

(** X3. With a positive cap the exchange that was just appended is kept:
    the history ending with a user turn followed by a turn of another
    role is trimmed to a history ending with the same two turns. *)
Theorem trim_messages_keeps_new_exchange (history : list Msg.t)
    (question answer : Msg.t) (max_turns : Z) :
  0 < max_turns -> is_user question = true -> is_user answer = false ->
  exists kept,
    _trim_messages (history ++ [question; answer]) max_turns =
      kept ++ [question; answer] /\
    exists dropped, history = dropped ++ kept.
Proof.
  intros H Hq Ha.
  destruct (trim_messages_end_part (history ++ [question; answer]) max_turns H)
    as [dropped [E Hc]].
  set (T := _trim_messages (history ++ [question; answer]) max_turns) in *.
  destruct (end_part_of_two history dropped T question answer E)
    as [[kept [Ek Eh]]|[Et|Et]].
  - exists kept. split; [exact Ek|]. now exists dropped.
  - exfalso. destruct Hc as [[Hn _]|[Hd Hlt]].
    + rewrite Et, user_turns_of_cons, Ha in Hn. unfold user_turns_of in Hn.
      simpl in Hn. lia.
    + rewrite Hd, Et in E. simpl in E.
      apply (f_equal (@length _)) in E. rewrite length_app in E. simpl in E. lia.
  - exfalso. destruct Hc as [[Hn _]|[Hd Hlt]].
    + rewrite Et in Hn. unfold user_turns_of in Hn. simpl in Hn. lia.
    + rewrite Hd, Et in E. simpl in E.
      apply (f_equal (@length _)) in E. rewrite length_app in E. simpl in E. lia.
Qed.

(** The hypotheses of X3 on the history of five exchanges followed by a
    sixth. *)
Lemma trim_messages_keeps_new_exchange_witness :
  0 < 2 /\
  is_user (Fixtures.turn "user" 6) = true /\
  is_user (Fixtures.turn "assistant" 6) = false /\
  exists kept,
    _trim_messages
      (Fixtures.five_exchanges
       ++ [Fixtures.turn "user" 6; Fixtures.turn "assistant" 6]) 2 =
      kept ++ [Fixtures.turn "user" 6; Fixtures.turn "assistant" 6] /\
    exists dropped, Fixtures.five_exchanges = dropped ++ kept.
Proof.
  split; [lia|]. split; [reflexivity|]. split; [reflexivity|].
  apply trim_messages_keeps_new_exchange; [lia | reflexivity | reflexivity].
Defined.

(** ** Splitting a response into chunks *)

(** The slice taken by an iteration of the loop. *)
Lemma py_slice_chunk {C : Type} (text : list C) (limit start : Z) :
  0 < limit -> 0 <= start < Z.of_nat (length text) ->
  py_slice text start (start + limit) =
    take (Z.to_nat limit) (drop (Z.to_nat start) text).
Proof.
  intros Hl Hs. unfold py_slice, slice_bound.
  destruct (Z.ltb_spec start 0); [lia|].
  destruct (Z.ltb_spec (start + limit) 0); [lia|].
  rewrite (Z.min_l start) by lia.
  destruct (Z.le_gt_cases (start + limit) (Z.of_nat (length text))) as [H1|H1].
  - rewrite Z.min_l by lia. f_equal. lia.
  - rewrite Z.min_r by lia.
    rewrite !take_ge; [reflexivity | rewrite length_drop; lia | rewrite length_drop; lia].
Qed.

(** With a positive limit and enough fuel for the characters left, the
    loop adds chunks that make up the rest of the text, none empty, none
    longer than the limit, and as few as possible. *)
Lemma chunk_loop_spec {C : Type} (text : list C) (limit : Z) (fuel : nat) :
  0 < limit ->
  forall (start : Z) (chunks : list (list C)),
    0 <= start ->
    (Z.to_nat (Z.of_nat (length text) - start) <= fuel)%nat ->
    exists more,
      chunk_loop fuel text limit start chunks = Some (chunks ++ more) /\
      concat more = drop (Z.to_nat start) text /\
      Forall (fun c => c <> [] /\ Z.of_nat (length c) <= limit) more /\
      Z.of_nat (length more) =
        (Z.max 0 (Z.of_nat (length text) - start) + limit - 1) / limit.
Proof.
  intros Hl. induction fuel as [|fuel IH]; intros start chunks Hs Hf.
  - simpl. destruct (Z.ltb_spec start (Z.of_nat (length text))); [lia|].
    exists []. rewrite app_nil_r. repeat split; [|constructor|].
    + rewrite drop_ge by lia. reflexivity.
    + rewrite Z.max_l by lia. simpl. symmetry. apply Z.div_small. lia.
  - simpl. destruct (Z.ltb_spec start (Z.of_nat (length text))) as [Hlt|Hge].
    + destruct (IH (start + limit)
                  (chunks ++ [py_slice text start (start + limit)]))
        as [more [E [Hc [Hall Hn]]]]; [lia | lia |].
      exists (py_slice text start (start + limit) :: more).
      rewrite E, <- app_assoc. split; [reflexivity|].
      rewrite py_slice_chunk in * by lia. split; [|split].
      * simpl. rewrite Hc.
        replace (Z.to_nat (start + limit)) with (Z.to_nat start + Z.to_nat limit)%nat
          by lia.
        rewrite <- drop_drop. apply take_drop.
      * constructor; [|exact Hall]. split.
        -- intros Hnil. apply (f_equal (@length _)) in Hnil.
           rewrite length_take, length_drop in Hnil. simpl in Hnil. lia.
        -- rewrite length_take. lia.
      * simpl length. rewrite Nat2Z.inj_succ, Hn.
        rewrite (Z.max_r 0 (Z.of_nat (length text) - start)) by lia.
        destruct (Z.le_gt_cases (Z.of_nat (length text)) (start + limit)) as [H1|H1].
        -- rewrite Z.max_l by lia.
           rewrite (Z.div_small (0 + limit - 1)) by lia.
           change (Z.succ 0) with 1.
           apply (Z.div_unique _ _ 1 (Z.of_nat (length text) - start - 1)); lia.
        -- rewrite Z.max_r by lia.
           replace (Z.of_nat (length text) - start + limit - 1)
             with ((Z.of_nat (length text) - (start + limit) + limit - 1) + 1 * limit)
             by lia.
           rewrite Z.div_add by lia. lia.
    + exists []. rewrite app_nil_r. repeat split; [|constructor|].
      * rewrite drop_ge by lia. reflexivity.
      * rewrite Z.max_l by lia. simpl. symmetry. apply Z.div_small. lia.
Qed.

(** X4. With a positive limit the split ends (a fuel of the length of the
    text is enough) and loses nothing: the chunks, in order, make up the
    text; there is at least one; none is longer than the limit; none is
    empty unless the text is; and there are as few as the limit allows. *)
Theorem chunk_text_positive_limit {C : Type} (fuel : nat) (text : list C) (limit : Z) :
  0 < limit -> (length text <= fuel)%nat ->
  exists chunks,
    _chunk_text fuel text limit = Some chunks /\
    concat chunks = text /\
    chunks <> [] /\
    Forall (fun c => Z.of_nat (length c) <= limit) chunks /\
    (text <> [] -> Forall (fun c => c <> []) chunks) /\
    Z.of_nat (length chunks) =
      Z.max 1 ((Z.of_nat (length text) + limit - 1) / limit).
Proof.
  intros Hl Hf. unfold _chunk_text.
  destruct (Z.leb_spec (Z.of_nat (length text)) limit) as [Hle|Hgt].
  - exists [text]. split; [reflexivity|]. split; [simpl; apply app_nil_r|].
    split; [discriminate|]. split; [repeat constructor; exact Hle|].
    split; [intros Hne; repeat constructor; exact Hne|].
    simpl length. symmetry. apply Z.max_l.
    apply Z.lt_succ_r. apply Z.div_lt_upper_bound; lia.
  - destruct (chunk_loop_spec text limit fuel Hl 0 []) as [more [E [Hc [Hall Hn]]]];
      [lia | lia |].
    exists more. simpl in E. split; [exact E|]. split; [exact Hc|].
    rewrite Z.sub_0_r, Z.max_r in Hn by lia.
    assert (Hq : 1 <= (Z.of_nat (length text) + limit - 1) / limit).
    { apply Z.div_le_lower_bound; lia. }
    split; [intros ->; simpl in Hn; lia|].
    split; [eapply Forall_impl; [exact Hall|]; now intros c [_ H]|].
    split; [intros _; eapply Forall_impl; [exact Hall|]; now intros c [H _]|].
    rewrite Hn. symmetry. apply Z.max_r. exact Hq.
Qed.

(** A text of ten characters split at four: three chunks. *)
Lemma chunk_text_positive_limit_witness :
  0 < 4 /\ (length [1; 2; 3; 4; 5; 6; 7; 8; 9; 10] <= 10)%nat /\
  _chunk_text 10 [1; 2; 3; 4; 5; 6; 7; 8; 9; 10] 4 =
    Some [[1; 2; 3; 4]; [5; 6; 7; 8]; [9; 10]] /\
  exists chunks,
    _chunk_text 10 [1; 2; 3; 4; 5; 6; 7; 8; 9; 10] 4 = Some chunks /\
    concat chunks = [1; 2; 3; 4; 5; 6; 7; 8; 9; 10] /\
    Z.of_nat (length chunks) = 3.
Proof.
  split; [lia|]. split; [simpl; lia|]. split; [reflexivity|].
  destruct (chunk_text_positive_limit 10 [1; 2; 3; 4; 5; 6; 7; 8; 9; 10] 4)
    as [chunks [E [Hc [_ [_ [_ Hn]]]]]]; [lia | simpl; lia |].
  exists chunks. split; [exact E|]. split; [exact Hc|]. exact Hn.
Defined.

Lemma chunk_loop_diverges {C : Type} (text : list C) (limit : Z) (fuel : nat) :
  limit <= 0 -> text <> [] ->
  forall (start : Z) (chunks : list (list C)),
    start <= 0 -> chunk_loop fuel text limit start chunks = None.
Proof.
  intros Hl Ht. assert (0 < Z.of_nat (length text)) by (destruct text; [congruence|simpl; lia]).
  induction fuel as [|fuel IH]; intros start chunks Hs; simpl;
    destruct (Z.ltb_spec start (Z.of_nat (length text))); try lia.
  - reflexivity.
  - apply IH. lia.
Qed.

(** X5. With a limit that is not positive the split of a text that is not
    empty never ends: [start] never advances past the text, and the loop
    is still running after any number of iterations. The empty text gives
    no chunk at all under a negative limit. *)
Theorem chunk_text_nonpositive_limit {C : Type} (text : list C) (limit : Z) :
  limit <= 0 ->
  (text <> [] -> forall fuel, _chunk_text fuel text limit = None) /\
  (text = [] -> limit < 0 -> forall fuel, _chunk_text fuel text limit = Some []).
Proof.
  intros Hl. split.
  - intros Ht fuel. unfold _chunk_text.
    destruct (Z.leb_spec (Z.of_nat (length text)) limit) as [H|H].
    + destruct text; [congruence | simpl in H; lia].
    + now apply chunk_loop_diverges.
  - intros -> Hneg fuel. unfold _chunk_text.
    change (Z.of_nat (length (@nil C))) with 0.
    destruct (Z.leb_spec 0 limit); [lia|]. destruct fuel; reflexivity.
Qed.

Lemma chunk_text_nonpositive_limit_witness :
  0 <= 0 /\ _chunk_text 1000 [1; 2; 3] 0 = None /\
  _chunk_text 1000 (@nil Z) (-1) = Some [].
Proof.
  split; [lia|].
  destruct (chunk_text_nonpositive_limit [1; 2; 3] 0) as [H _]; [lia|].
  destruct (chunk_text_nonpositive_limit (@nil Z) (-1)) as [_ H']; [lia|].
  split; [apply H; discriminate | apply H'; [reflexivity | lia]].
Defined.

(** ** Sending a response *)

Lemma numbered_embeds_descriptions {C : Type} (start total : Z) (model : string)
    (chunks : list (list C)) :
  List.map embed_description (numbered_embeds start total model chunks) = chunks.
Proof.
  revert start. induction chunks as [|c chunks IH]; intros start; simpl;
    [reflexivity | now rewrite IH].
Qed.

(** X6. A response is always sent in full and in order: at least one embed
    is sent, even for an empty text; the descriptions of the embeds, put
    end to end, are the response; none is longer than 3800 characters; all
    carry the privacy flag of the request. *)
Theorem send_ai_response_complete {C : Type} (fuel : nat) (response_text : list C)
    (model : string) (private : bool) :
  (length response_text <= fuel)%nat ->
  exists sent,
    _send_ai_response fuel response_text model private = Some sent /\
    sent <> [] /\
    concat (List.map (fun s => embed_description (fst s)) sent) = response_text /\
    Forall (fun s => Z.of_nat (length (embed_description (fst s))) <= 3800 /\
                     snd s = private) sent.
Proof.
  intros Hf. unfold _send_ai_response, _chunk_text, EMBED_CHUNK_SIZE.
  destruct (Z.leb_spec (Z.of_nat (length response_text)) 3800) as [Hle|Hgt].
  - eexists. split; [reflexivity|]. split; [discriminate|].
    split; [simpl; apply app_nil_r|]. repeat constructor. exact Hle.
  - destruct (chunk_loop_spec response_text 3800 fuel eq_refl 0 [])
      as [more [E [Hc [Hall Hn]]]]; [lia | lia |].
    simpl in E. rewrite E.
    rewrite Z.sub_0_r, Z.max_r in Hn by lia.
    assert (Hq : 2 <= (Z.of_nat (length response_text) + 3800 - 1) / 3800).
    { apply Z.div_le_lower_bound; lia. }
    destruct more as [|c1 [|c2 more]]; try (simpl in Hn; lia).
    eexists. split; [reflexivity|]. split; [discriminate|]. split.
    + rewrite List.map_map. cbn [fst].
      rewrite numbered_embeds_descriptions. exact Hc.
    + apply Forall_forall. intros [e p] Hin.
      apply list_elem_of_In, in_map_iff in Hin.
      destruct Hin as [e' [Heq Hin]]. inversion Heq; subst e' p. cbn [fst snd].
      split; [|reflexivity].
      assert (Hd : In (embed_description e)
                     (List.map embed_description
                        (numbered_embeds 1 (Z.of_nat (length (c1 :: c2 :: more)))
                           model (c1 :: c2 :: more))))
        by (apply in_map; exact Hin).
      rewrite numbered_embeds_descriptions in Hd.
      rewrite Forall_forall in Hall.
      apply list_elem_of_In in Hd. now destruct (Hall _ Hd).
Qed.

Lemma send_ai_response_complete_witness :
  (length [1; 2; 3] <= 3)%nat /\
  _send_ai_response 3 [1; 2; 3] "some/model" true =
    Some [(Ai_response [1; 2; 3] "some/model", true)] /\
  exists sent,
    _send_ai_response 3 [1; 2; 3] "some/model" true = Some sent /\ sent <> [].
Proof.
  split; [simpl; lia|]. split; [reflexivity|].
  destruct (send_ai_response_complete 3 [1; 2; 3] "some/model" true)
    as [sent [E [Hne _]]]; [simpl; lia|].
  now exists sent.
Defined.

(** ** Concurrency gate: the table of in-flight counts *)

Lemma gate_step_no_idle_entry (m : gmap Z Z) (op : gate_op) :
  no_idle_entry m -> no_idle_entry (gate_step m op).
Proof.
  intros Hm g n. destruct op as [g' c|g']; simpl.
  - unfold _acquire_guild_slot.
    destruct (Z.leb_spec c (default 0 (m !! g'))); simpl; [apply Hm|].
    destruct (Z.eq_dec g' g) as [->|Hne].
    + rewrite lookup_insert_eq. intros [= <-].
      destruct (m !! g) as [k|] eqn:E; simpl; [specialize (Hm g k E)|]; lia.
    + rewrite lookup_insert_ne by exact Hne. apply Hm.
  - unfold _release_guild_slot.
    destruct (Z.eqb_spec (Z.max 0 (default 0 (m !! g') - 1)) 0) as [H0|H0].
    + destruct (Z.eq_dec g' g) as [->|Hne].
      * now rewrite lookup_delete_eq.
      * rewrite lookup_delete_ne by exact Hne. apply Hm.
    + destruct (Z.eq_dec g' g) as [->|Hne].
      * rewrite lookup_insert_eq. intros [= <-]. lia.
      * rewrite lookup_insert_ne by exact Hne. apply Hm.
Qed.

(** X7. Whatever acquisitions and releases are made, for whatever tenants
    and ceilings, starting from the empty table: every count recorded is
    at least one, so a tenant has an entry exactly while it has a request
    in flight. *)
Theorem gate_keeps_no_idle_entry (ops : list gate_op) (guild_id : Z) :
  no_idle_entry (gate_run ops ∅) /\
  (gate_run ops ∅ !! guild_id = None <-> inflight_of (gate_run ops ∅) guild_id = 0).
Proof.
  assert (H : no_idle_entry (gate_run ops ∅)).
  { unfold gate_run.
    assert (Hgen : forall m, no_idle_entry m -> no_idle_entry (fold_left gate_step ops m)).
    { induction ops as [|op ops IH]; intros m Hm; simpl; [exact Hm|].
      apply IH. now apply gate_step_no_idle_entry. }
    apply Hgen. intros g n. rewrite lookup_empty. discriminate. }
  split; [exact H|]. unfold inflight_of.
  destruct (gate_run ops ∅ !! guild_id) as [n|] eqn:E; simpl.
  - specialize (H guild_id n E). split; [discriminate | lia].
  - now split.
Qed.

Lemma gate_step_other_lookup (g : Z) (op : gate_op) (m : gmap Z Z) :
  gate_op_guild op <> g -> gate_step m op !! g = m !! g.
Proof.
  intros Hne. destruct op as [g' c|g']; simpl in *.
  - destruct (acquire_guild_slot_cases g' c m) as [[_ E]|[_ [m' [E [_ Hf]]]]];
      rewrite E; simpl; [reflexivity|]. apply Hf. congruence.
  - apply release_guild_slot_effect. congruence.
Qed.

(** X8. A slot that was granted is given back in full: after a successful
    acquisition for a tenant, any calls made for other tenants, and the
    release, the tenant's entry is what it was before the acquisition (no
    entry if there was none). *)
Theorem acquired_slot_is_returned (guild_id max_concurrent : Z)
    (m : gmap Z Z) (others : list gate_op) :
  no_idle_entry m ->
  fst (_acquire_guild_slot guild_id max_concurrent m) = true ->
  Forall (fun op => gate_op_guild op <> guild_id) others ->
  _release_guild_slot guild_id
    (gate_run others (snd (_acquire_guild_slot guild_id max_concurrent m)))
    !! guild_id = m !! guild_id.
Proof.
  intros Hm Hacq Hothers.
  destruct (acquire_guild_slot_cases guild_id max_concurrent m)
    as [[_ E]|[_ [m' [E [Hn _]]]]]; rewrite E in *; simpl in *; [discriminate|].
  assert (Hrun : gate_run others m' !! guild_id = m' !! guild_id).
  { unfold gate_run. clear E Hn. revert m'.
    induction Hothers as [|op ops Hop _ IH]; intros m'; simpl; [reflexivity|].
    rewrite IH. now apply gate_step_other_lookup. }
  unfold _release_guild_slot. rewrite Hrun.
  unfold inflight_of in Hn. rewrite Hn.
  destruct (m !! guild_id) as [n|] eqn:En; simpl.
  - specialize (Hm guild_id n En).
    destruct (Z.eqb_spec (Z.max 0 (n + 1 - 1)) 0); [lia|].
    rewrite lookup_insert_eq. f_equal. lia.
  - simpl. now rewrite lookup_delete_eq.
Qed.

Lemma acquired_slot_is_returned_witness :
  no_idle_entry {[ 7 := 1 ]} /\
  fst (_acquire_guild_slot 7 2 {[ 7 := 1 ]}) = true /\
  Forall (fun op => gate_op_guild op <> 7) [Acquire 8 1; Release 9] /\
  _release_guild_slot 7
    (gate_run [Acquire 8 1; Release 9] (snd (_acquire_guild_slot 7 2 {[ 7 := 1 ]})))
    !! 7 = ({[ 7 := 1 ]} : gmap Z Z) !! 7.
Proof.
  assert (H1 : no_idle_entry {[ 7 := 1 ]}).
  { intros g n. destruct (Z.eq_dec g 7) as [->|Hne].
    - rewrite lookup_singleton_eq. intros [= <-]. lia.
    - rewrite lookup_singleton_ne by congruence. discriminate. }
  assert (H2 : fst (_acquire_guild_slot 7 2 {[ 7 := 1 ]}) = true)
    by (vm_compute; reflexivity).
  assert (H3 : Forall (fun op => gate_op_guild op <> 7) [Acquire 8 1; Release 9])
    by (repeat constructor; simpl; lia).
  split; [exact H1|]. split; [exact H2|]. split; [exact H3|].
  exact (acquired_slot_is_returned 7 2 {[ 7 := 1 ]} _ H1 H2 H3).
Defined.

(** ** Cooldown tracker: stamping and checking *)




Lemma int_of_Q_le (r : Q) (c : Z) :
  (0 <= r)%Q -> (r <= inject_Z c)%Q -> int_of_Q r <= c.
Proof.
  unfold Qle, int_of_Q, inject_Z. simpl. intros H0 Hc.
  rewrite Z.quot_div_nonneg by lia.
  apply Z.lt_succ_r. apply Z.div_lt_upper_bound; lia.
Qed.

(** With a clock that does not run backwards the time that remains is
    between zero and the cooldown. *)
Lemma cooldown_remaining_bounds (last_ts : option Q) (cooldown_seconds : Z) (now : Q) :
  (forall ts, last_ts = Some ts -> (ts <= now)%Q) ->
  (0 <= _cooldown_remaining last_ts cooldown_seconds now)%Q /\
  (Qlt_bool 0 (_cooldown_remaining last_ts cooldown_seconds now) = true ->
   (_cooldown_remaining last_ts cooldown_seconds now <= inject_Z cooldown_seconds)%Q).
Proof.
  intros Hmono. unfold _cooldown_remaining. destruct last_ts as [ts|].
  - specialize (Hmono ts eq_refl).
    destruct (Qlt_bool 0 (inject_Z cooldown_seconds - (now - ts))) eqn:E.
    + split; [apply Qlt_le_weak; now apply Qlt_bool_iff|]. intros _.
      assert (H0 : (0 <= now - ts)%Q) by now apply Qle_minus_iff in Hmono.
      apply Qopp_le_compat in H0.
      assert (H1 : (inject_Z cooldown_seconds + - (now - ts)
                    <= inject_Z cooldown_seconds + 0)%Q)
        by (apply Qplus_le_r; exact H0).
      rewrite Qplus_0_r in H1. exact H1.
    + split; [apply Qle_refl | discriminate].
  - split; [apply Qle_refl | discriminate].
Qed.

(** X10. With a monotonic clock the wait that the check announces is never
    negative and never more than the cooldown that is not met; cooldowns
    that are not positive never refuse a request. *)
Theorem check_cooldowns_wait_bounded
    (user_cooldowns channel_cooldowns : gmap (Z * Z) Q)
    (guild_id user_id channel_id user_cooldown channel_cooldown : Z)
    (t_user t_channel : Q) :
  (forall ts, user_cooldowns !! (guild_id, user_id) = Some ts -> (ts <= t_user)%Q) ->
  (forall ts, channel_cooldowns !! (guild_id, channel_id) = Some ts ->
              (ts <= t_channel)%Q) ->
  let result := _check_cooldowns user_cooldowns channel_cooldowns guild_id
                  user_id channel_id user_cooldown channel_cooldown
                  t_user t_channel in
  (result = None \/
   (exists r, result = Some (user_cooldown_message r) /\
              0 <= int_of_Q r <= user_cooldown) \/
   (exists r, result = Some (channel_cooldown_message r) /\
              0 <= int_of_Q r <= channel_cooldown))
  /\
  (user_cooldown <= 0 -> channel_cooldown <= 0 -> result = None).
Proof.
  intros Hu Hc result. unfold result, _check_cooldowns.
  destruct (cooldown_remaining_bounds _ user_cooldown t_user Hu) as [Hu0 Hu1].
  destruct (cooldown_remaining_bounds _ channel_cooldown t_channel Hc) as [Hc0 Hc1].
  set (ur := _cooldown_remaining (user_cooldowns !! (guild_id, user_id))
               user_cooldown t_user) in *.
  set (cr := _cooldown_remaining (channel_cooldowns !! (guild_id, channel_id))
               channel_cooldown t_channel) in *.
  destruct (Qlt_bool 0 ur) eqn:Eu.
  - specialize (Hu1 eq_refl). split.
    + right. left. exists ur. split; [reflexivity|]. split.
      * apply int_of_Q_nonneg. now apply Qlt_bool_iff.
      * now apply int_of_Q_le.
    + intros Hneg _. exfalso. apply Qlt_bool_iff in Eu.
      assert (Hle : (ur <= 0)%Q).
      { eapply Qle_trans; [exact Hu1|]. unfold Qle, inject_Z. simpl. lia. }
      exact (Qlt_not_le _ _ Eu Hle).
  - destruct (Qlt_bool 0 cr) eqn:Ec.
    + specialize (Hc1 eq_refl). split.
      * right. right. exists cr. split; [reflexivity|]. split.
        -- apply int_of_Q_nonneg. now apply Qlt_bool_iff.
        -- now apply int_of_Q_le.
      * intros _ Hneg. exfalso. apply Qlt_bool_iff in Ec.
        assert (Hle : (cr <= 0)%Q).
        { eapply Qle_trans; [exact Hc1|]. unfold Qle, inject_Z. simpl. lia. }
        exact (Qlt_not_le _ _ Ec Hle).
    + split; [now left | reflexivity].
Qed.

Lemma check_cooldowns_wait_bounded_witness :
  let user_cooldowns : gmap (Z * Z) Q := {[ (1, 2) := 100%Q ]} in
  (forall ts, user_cooldowns !! (1, 2) = Some ts -> (ts <= 105)%Q) /\
  (forall ts, (∅ : gmap (Z * Z) Q) !! (1, 3) = Some ts -> (ts <= 105)%Q) /\
  (_check_cooldowns user_cooldowns ∅ 1 2 3 10 10 105 105 = None \/
   (exists r, _check_cooldowns user_cooldowns ∅ 1 2 3 10 10 105 105
              = Some (user_cooldown_message r) /\ 0 <= int_of_Q r <= 10) \/
   (exists r, _check_cooldowns user_cooldowns ∅ 1 2 3 10 10 105 105
              = Some (channel_cooldown_message r) /\ 0 <= int_of_Q r <= 10)).
Proof.
  intros user_cooldowns.
  assert (H1 : forall ts, user_cooldowns !! (1, 2) = Some ts -> (ts <= 105)%Q).
  { intros ts. unfold user_cooldowns. rewrite lookup_singleton_eq.
    intros [= <-]. unfold Qle. simpl. lia. }
  assert (H2 : forall ts, (∅ : gmap (Z * Z) Q) !! (1, 3) = Some ts -> (ts <= 105)%Q).
  { intros ts. rewrite lookup_empty. discriminate. }
  split; [exact H1|]. split; [exact H2|].
  exact (proj1 (check_cooldowns_wait_bounded user_cooldowns ∅ 1 2 3 10 10 105 105 H1 H2)).
Defined.

(** ** Eligibility filter: limits, scores and quotas *)

(** The share of a quota that is left, for a positive limit. *)
Lemma headroom_bounds (limit count : Z) :
  0 < limit -> count < limit ->
  (0 < inject_Z (limit - count) / inject_Z limit)%Q /\
  (0 <= count -> (inject_Z (limit - count) / inject_Z limit <= 1)%Q) /\
  (count = 0 -> (inject_Z (limit - count) / inject_Z limit == 1)%Q).
Proof.
  intros Hl Hc. destruct limit as [|p|p]; try lia.
  unfold Qlt, Qle, Qeq, Qdiv, Qmult, Qinv, inject_Z. simpl.
  repeat split; intros; lia.
Qed.

Lemma headroom_monotone (limit limit' count : Z) :
  0 < limit -> limit <= limit' -> 0 <= count ->
  (inject_Z (limit - count) / inject_Z limit
   <= inject_Z (limit' - count) / inject_Z limit')%Q.
Proof.
  intros Hl Hl' Hc. destruct limit as [|p|p]; try lia.
  destruct limit' as [|p'|p']; try lia.
  unfold Qle, Qdiv, Qmult, Qinv, inject_Z. simpl. nia.
Qed.

(** The score in terms of the two shares. *)
Lemma score_of_shares (a b c d : Q) :
  ((4 # 10) * a / b + (6 # 10) * c / d == (4 # 10) * (a / b) + (6 # 10) * (c / d))%Q.
Proof. unfold Qdiv. ring. Qed.

Lemma weighted_shares_le (x x' y y' : Q) :
  (x <= x')%Q -> (y <= y')%Q ->
  ((4 # 10) * x + (6 # 10) * y <= (4 # 10) * x' + (6 # 10) * y')%Q.
Proof.
  intros Hx Hy. apply Qplus_le_compat; apply Qmult_le_l; try reflexivity; assumption.
Qed.

(** X11. Raising the limits of a credential, everything else being equal,
    never makes it ineligible, and never lowers its score when the counts
    of its windows are not negative. *)
Theorem eligibility_monotone_in_limits (doc doc' : Doc.t) (now : datetime)
    (c : Cand.t) :
  Doc.enabled doc' = Doc.enabled doc ->
  Doc.cooldown_until doc' = Doc.cooldown_until doc ->
  Doc.minute_window_started_at doc' = Doc.minute_window_started_at doc ->
  Doc.minute_window_count doc' = Doc.minute_window_count doc ->
  Doc.day_started_at doc' = Doc.day_started_at doc ->
  Doc.day_count doc' = Doc.day_count doc ->
  int_or_0 (Doc.rpm_limit doc) <= int_or_0 (Doc.rpm_limit doc') ->
  int_or_0 (Doc.rpd_limit doc) <= int_or_0 (Doc.rpd_limit doc') ->
  _build_key_candidate doc now = Some c ->
  exists c',
    _build_key_candidate doc' now = Some c' /\
    Cand.minute_count c' = Cand.minute_count c /\
    Cand.day_count c' = Cand.day_count c /\
    (0 <= Cand.minute_count c -> 0 <= Cand.day_count c ->
     (Cand.score c <= Cand.score c')%Q).
Proof.
  intros Hen Hcu Hms Hmc Hds Hdc Hrpm Hrpd Hb.
  assert (Hne : ~ ineligible doc now).
  { intros Hi. apply build_key_candidate_None in Hi. congruence. }
  destruct (build_key_candidate_Some doc now c Hb) as [_ [Hm [Hd [_ Hs]]]].
  unfold ineligible in Hne.
  destruct (_build_key_candidate doc' now) as [c'|] eqn:Hb'.
  - exists c'. split; [reflexivity|].
    destruct (build_key_candidate_Some doc' now c' Hb') as [_ [Hm' [Hd' [_ Hs']]]].
    rewrite Hms, Hmc in Hm'. rewrite Hds, Hdc in Hd'.
    rewrite <- Hm in Hm', Hs. rewrite <- Hd in Hd', Hs.
    rewrite Hms, Hmc, Hds, Hdc, <- Hm, <- Hd in Hs'. cbn [snd] in Hs, Hs'.
    inversion Hm'. inversion Hd'. split; [reflexivity|]. split; [reflexivity|].
    intros Hm0 Hd0. rewrite Hs, Hs', !score_of_shares.
    rewrite <- Hm, <- Hd in Hne. cbn [snd] in Hne.
    apply weighted_shares_le; apply headroom_monotone; lia.
  - exfalso. apply build_key_candidate_None in Hb'. unfold ineligible in Hb'.
    rewrite Hen, Hcu, Hms, Hmc, Hds, Hdc in Hb'. apply Hne.
    destruct Hb' as [H|[H|[H|[H|[H|H]]]]]; [tauto | tauto | right; right; left; lia
      | right; right; right; left; lia | |].
    + destruct (Z.le_gt_cases (int_or_0 (Doc.rpm_limit doc))
                  (snd (_window_state (Doc.minute_window_started_at doc)
                          (Doc.minute_window_count doc) 60 now))); [tauto|].
      destruct (Z.le_gt_cases (int_or_0 (Doc.rpm_limit doc)) 0); [tauto|].
      exfalso. rewrite <- Hm in *. cbn [snd] in *.
      destruct (build_key_candidate_Some doc now c Hb) as [_ _]. lia.
    + destruct (Z.le_gt_cases (int_or_0 (Doc.rpd_limit doc))
                  (snd (_window_state (Doc.day_started_at doc)
                          (Doc.day_count doc) 86400 now))); [tauto|].
      exfalso. lia.
Qed.

Lemma eligibility_monotone_in_limits_witness :
  let doc := Samples.limited_key 10 100 (Some (Fixtures.t2026 - 5000000)) (Some 3)
               (Some (Fixtures.t2026 - 5000000)) (Some 3) in
  let doc' := Samples.limited_key 20 100 (Some (Fixtures.t2026 - 5000000)) (Some 3)
                (Some (Fixtures.t2026 - 5000000)) (Some 3) in
  exists c c',
    _build_key_candidate doc Fixtures.t2026 = Some c /\
    _build_key_candidate doc' Fixtures.t2026 = Some c' /\
    Cand.minute_count c' = Cand.minute_count c /\
    Cand.day_count c' = Cand.day_count c.
Proof.
  intros doc doc'.
  destruct (_build_key_candidate doc Fixtures.t2026) as [c|] eqn:Hb;
    [|vm_compute in Hb; discriminate].
  assert (H1 : int_or_0 (Doc.rpm_limit doc) <= int_or_0 (Doc.rpm_limit doc'))
    by (simpl; lia).
  assert (H2 : int_or_0 (Doc.rpd_limit doc) <= int_or_0 (Doc.rpd_limit doc'))
    by (simpl; lia).
  destruct (eligibility_monotone_in_limits doc doc' Fixtures.t2026 c
              eq_refl eq_refl eq_refl eq_refl eq_refl eq_refl H1 H2 Hb)
    as [c' [Hb' [Hm [Hd _]]]].
  exists c, c'. repeat split; assumption.
Defined.

(** X12. The score of an eligible credential is positive; when the counts
    of its two windows are not negative it is at most 1, and it is 1 when
    both counts are zero, whatever the limits. *)
Theorem candidate_score_range (doc : Doc.t) (now : datetime) (c : Cand.t) :
  _build_key_candidate doc now = Some c ->
  (0 < Cand.score c)%Q /\
  (0 <= Cand.minute_count c -> 0 <= Cand.day_count c -> (Cand.score c <= 1)%Q) /\
  (Cand.minute_count c = 0 -> Cand.day_count c = 0 -> (Cand.score c == 1)%Q).
Proof.
  intros Hb.
  assert (Hne : ~ ineligible doc now).
  { intros Hi. apply build_key_candidate_None in Hi. congruence. }
  destruct (build_key_candidate_Some doc now c Hb) as [_ [Hm [Hd [_ Hs]]]].
  unfold ineligible in Hne. rewrite <- Hm, <- Hd in Hne, Hs. cbn [snd] in Hne, Hs.
  set (rpm := int_or_0 (Doc.rpm_limit doc)) in *.
  set (rpd := int_or_0 (Doc.rpd_limit doc)) in *.
  assert (Hrpm : 0 < rpm) by lia. assert (Hrpd : 0 < rpd) by lia.
  assert (Hmc : Cand.minute_count c < rpm) by lia.
  assert (Hdc : Cand.day_count c < rpd) by lia.
  destruct (headroom_bounds rpm (Cand.minute_count c) Hrpm Hmc) as [Ma [Mb Mc]].
  destruct (headroom_bounds rpd (Cand.day_count c) Hrpd Hdc) as [Da [Db Dc]].
  rewrite score_of_shares in Hs.
  set (x := (inject_Z (rpm - Cand.minute_count c) / inject_Z rpm)%Q) in *.
  set (y := (inject_Z (rpd - Cand.day_count c) / inject_Z rpd)%Q) in *.
  split; [|split].
  - rewrite Hs.
    apply (Qlt_le_trans _ ((4 # 10) * x + 0)%Q).
    + rewrite Qplus_0_r. apply Qmult_lt_0_compat; [reflexivity | exact Ma].
    + apply Qplus_le_compat; [apply Qle_refl|].
      apply Qmult_le_0_compat; [discriminate | apply Qlt_le_weak; exact Da].
  - intros H1 H2. rewrite Hs.
    apply (Qle_trans _ ((4 # 10) * 1 + (6 # 10) * 1)%Q).
    + apply weighted_shares_le; auto.
    + discriminate.
  - intros H1 H2. rewrite Hs, (Mc H1), (Dc H2). reflexivity.
Qed.

Lemma candidate_score_range_witness :
  exists c,
    _build_key_candidate (Samples.limited_key 10 100 None None None None)
      Fixtures.t2026 = Some c /\
    (0 < Cand.score c)%Q.
Proof.
  destruct (_build_key_candidate (Samples.limited_key 10 100 None None None None)
              Fixtures.t2026) as [c|] eqn:Hb; [|vm_compute in Hb; discriminate].
  exists c. split; [reflexivity|].
  exact (proj1 (candidate_score_range _ _ c Hb)).
Defined.

(** The state of a window that started less than its length ago. *)
Lemma window_state_running (start : datetime) (count : option Z)
    (window_seconds : Z) (t : datetime) :
  t - start < window_seconds * 1000000 ->
  _window_state (Some start) count window_seconds t = (start, int_or_0 count).
Proof.
  intros H. unfold _window_state, _ensure_utc.
  destruct (Qle_bool (inject_Z window_seconds) (total_seconds (t - start))) eqn:E;
    [|reflexivity].
  apply window_expired_iff in E. lia.
Qed.

(** X13. A reservation keeps the counts within the limits, and counts
    against the quota: the record written for an eligible candidate holds
    both counts raised by one, neither above its limit, and while both of
    its windows run the credential is refused exactly when a cooldown is
    pending or one of the two reserved counts has reached its limit. *)
Theorem reservation_accounting (d : Doc.t) (selected_at now : datetime)
    (c : Cand.t) :
  _build_key_candidate d selected_at = Some c ->
  let d' := apply_update (usage_update c now) d in
  Doc.minute_window_count d' = Some (Cand.minute_count c + 1) /\
  Doc.day_count d' = Some (Cand.day_count c + 1) /\
  Cand.minute_count c + 1 <= int_or_0 (Doc.rpm_limit d') /\
  Cand.day_count c + 1 <= int_or_0 (Doc.rpd_limit d') /\
  (forall t,
     t - Cand.minute_start c < 60 * 1000000 ->
     t - Cand.day_start c < 86400 * 1000000 ->
     (_build_key_candidate d' t = None <->
      (exists cu, Doc.cooldown_until d = Some cu /\ t < cu) \/
      int_or_0 (Doc.rpm_limit d) <= Cand.minute_count c + 1 \/
      int_or_0 (Doc.rpd_limit d) <= Cand.day_count c + 1)).
Proof.
  intros Hb d'.
  assert (Hne : ~ ineligible d selected_at).
  { intros Hi. apply build_key_candidate_None in Hi. congruence. }
  destruct (build_key_candidate_Some d selected_at c Hb) as [_ [Hm [Hd _]]].
  unfold ineligible in Hne. rewrite <- Hm, <- Hd in Hne. cbn [snd] in Hne.
  destruct d as [g nm key en cu rpm rpd ms mc ds dc lu le lec lea ua].
  cbn [Doc.enabled Doc.cooldown_until Doc.rpm_limit Doc.rpd_limit] in *.
  unfold d', apply_update, usage_update. cbn.
  split; [reflexivity|]. split; [reflexivity|].
  split; [lia|]. split; [lia|].
  intros t Hmt Hdt. rewrite build_key_candidate_None. unfold ineligible.
  cbn [Doc.enabled Doc.cooldown_until Doc.rpm_limit Doc.rpd_limit
       Doc.minute_window_started_at Doc.minute_window_count
       Doc.day_started_at Doc.day_count].
  rewrite (window_state_running _ _ 60 t Hmt), (window_state_running _ _ 86400 t Hdt).
  cbn [snd]. rewrite !int_or_0_Some.
  split.
  - intros [H|[H|[H|[H|[H|H]]]]]; try tauto; try lia.
  - intros [H|[H|H]]; tauto.
Qed.

Lemma reservation_accounting_witness :
  let d := Samples.limited_key 1 100 None None None None in
  exists c,
    _build_key_candidate d Fixtures.t2026 = Some c /\
    _build_key_candidate (apply_update (usage_update c Fixtures.t2026) d)
      (Fixtures.t2026 + 59000000) = None.
Proof.
  intros d.
  destruct (_build_key_candidate d Fixtures.t2026) as [c|] eqn:Hb;
    [|vm_compute in Hb; discriminate].
  exists c. split; [reflexivity|].
  destruct (reservation_accounting d Fixtures.t2026 Fixtures.t2026 c Hb)
    as [_ [_ [_ [_ H]]]].
  assert (Hc : c = {| Cand.doc := d; Cand.score := Cand.score c;
                      Cand.minute_start := Fixtures.t2026; Cand.minute_count := 0;
                      Cand.day_start := Fixtures.t2026; Cand.day_count := 0;
                      Cand.last_used_at := None |}).
  { vm_compute in Hb. injection Hb as <-. reflexivity. }
  apply H.
  - rewrite Hc. cbn [Cand.minute_start]. lia.
  - rewrite Hc. cbn [Cand.day_start]. lia.
  - right. left. rewrite Hc. cbn. lia.
Defined.

(** ** Recorded errors and the filter *)

Lemma cooldown_end_given (now : datetime) (n : Z) (cooldown_until : option datetime) :
  n <> 0 -> cooldown_end now (Some n) = Ok cooldown_until ->
  cooldown_until = Some (now + n * 1000000).
Proof.
  intros Hn H. destruct cooldown_until as [u|].
  - destruct (cooldown_end_Some _ _ _ H) as [m [[= <-] [_ ->]]]. reflexivity.
  - exfalso. revert H. unfold cooldown_end, cooldown_given.
    apply Z.eqb_neq in Hn. rewrite Hn.
    destruct (timedelta_seconds n) as [delta|e]; [|discriminate].
    cbn [bind_result].
    destruct (datetime_add now delta) as [u|e]; discriminate.
Qed.

(** A recording that returns has sliced the message and computed the
    cooldown end. *)
Lemma set_key_error_returns (W : world) (doc : Doc.t) (code : Z) (message : json)
    (cooldown_seconds : option Z) (disable : bool) (st : state) :
  fst (_set_key_error W doc code message cooldown_seconds disable st) = Ok tt ->
  exists kept cooldown_until,
    slice_status_text message = Ok kept /\
    cooldown_end (clock W (ticks st)) cooldown_seconds = Ok cooldown_until.
Proof.
  unfold _set_key_error, bind, _now, lift. cbn [ticks].
  destruct (slice_status_text message) as [kept|e]; [|discriminate].
  destruct (cooldown_end (clock W (ticks st)) cooldown_seconds) as [u|e];
    [|discriminate].
  intros _. exists kept, u. split; reflexivity.
Qed.

(** X14. A recorded error takes the credential out of the pool: after a
    call of [_set_key_error] that returns, the record of the credential is
    refused by the filter at every time when it was disabled, and until
    the end of the cooldown when a positive cooldown was given. *)
Theorem errored_key_not_selected (W : world) (doc : Doc.t) (code : Z)
    (message : json) (cooldown_seconds : option Z) (disable : bool)
    (st : state) :
  fst (_set_key_error W doc code message cooldown_seconds disable st) = Ok tt ->
  let st' := snd (_set_key_error W doc code message cooldown_seconds disable st) in
  let now := clock W (ticks st) in
  forall d', In d' (store st') ->
    has_key (Doc.guild_id doc) (Doc.name doc) d' = true ->
    (disable = true -> forall t, _build_key_candidate d' t = None) /\
    (forall n, cooldown_seconds = Some n -> 0 < n ->
       forall t, t < now + n * 1000000 -> _build_key_candidate d' t = None).
Proof.
  intros Hok st' now d' Hin Hkey.
  destruct (set_key_error_returns _ _ _ _ _ _ _ Hok) as [kept [until [Hk Hc]]].
  pose proof (set_key_error_store W doc code message kept cooldown_seconds
                until disable st Hk Hc) as HF.
  fold st' in HF.
  apply list_elem_of_In, list_elem_of_lookup in Hin. destruct Hin as [i Hi].
  destruct (Forall2_lookup_r _ _ _ _ _ HF Hi) as [d [_ Hd]].
  destruct (has_key (Doc.guild_id doc) (Doc.name doc) d) eqn:Ed.
  - destruct Hd as [_ [_ [_ [_ [Hcu [Hen _]]]]]]. split.
    + intros -> t. apply build_key_candidate_None. left. exact Hen.
    + intros n -> Hn t Ht. apply build_key_candidate_None. right. left.
      rewrite (cooldown_end_given _ n until ltac:(lia) Hc) in Hcu.
      exists (clock W (ticks st) + n * 1000000). split; [exact Hcu | exact Ht].
  - subst d'. congruence.
Qed.

Lemma errored_key_not_selected_witness :
  let W := Fixtures.world_with [] in
  let doc := Samples.limited_key 10 100 None None None None in
  let st' := snd (_set_key_error W doc 429 (JStr "slow down") (Some 30) false
                    (Fixtures.state_of [doc])) in
  exists d', In d' (store st') /\
    has_key 1 "limited" d' = true /\
    _build_key_candidate d' (Fixtures.t2026 + 29000000) = None.
Proof.
  intros W doc st'.
  destruct (store st') as [|d' rest] eqn:Hs; [vm_compute in Hs; discriminate|].
  assert (Hin : In d' (store st')) by (rewrite Hs; left; reflexivity).
  assert (Hkey : has_key 1 "limited" d' = true).
  { unfold st' in Hs.
    rewrite (set_key_error_run W doc 429 (JStr "slow down") (JStr "slow down")
               (Some 30) (Some (Fixtures.t2026 + 30000000)) false
               (Fixtures.state_of [doc]) eq_refl eq_refl) in Hs.
    cbn in Hs. injection Hs as <- _. reflexivity. }
  exists d'. split; [left; reflexivity|]. split; [exact Hkey|].
  assert (H30 : 0 < 30) by lia.
  assert (Ht : Fixtures.t2026 + 29000000
               < clock W (ticks (Fixtures.state_of [doc])) + 30 * 1000000)
    by (vm_compute; reflexivity).
  exact (proj2 (errored_key_not_selected W doc 429 (JStr "slow down")
                  (Some 30) false (Fixtures.state_of [doc])
                  eq_refl d' Hin Hkey) 30 eq_refl H30 _ Ht).
Defined.

(** ** Effects of a dispatch *)

Lemma same_credential_set_field (d : Doc.t) (u : field_update) :
  same_credential d (set_field d u).
Proof. destruct u; repeat split. Qed.

Lemma same_credential_trans (d1 d2 d3 : Doc.t) :
  same_credential d1 d2 -> same_credential d2 d3 -> same_credential d1 d3.
Proof.
  unfold same_credential. intros [? [? [? [? ?]]]] [? [? [? [? ?]]]].
  repeat split; congruence.
Qed.

Lemma same_credential_apply_update (update : list field_update) (d : Doc.t) :
  same_credential d (apply_update update d).
Proof.
  unfold apply_update. revert d.
  induction update as [|u update IH]; intros d; simpl.
  - repeat split.
  - eapply same_credential_trans; [apply same_credential_set_field | apply IH].
Qed.

Lemma store_frame_refl (g : Z) (docs : list Doc.t) : store_frame g docs docs.
Proof.
  unfold store_frame. induction docs; constructor; auto.
  split; [repeat split | reflexivity].
Qed.

Lemma store_frame_trans (g : Z) (l1 l2 l3 : list Doc.t) :
  store_frame g l1 l2 -> store_frame g l2 l3 -> store_frame g l1 l3.
Proof.
  unfold store_frame. intros H. revert l3.
  induction H as [|d1 d2 l1 l2 [Hs Hd] _ IH]; intros l3 H23;
    inversion H23 as [|? d3 ? l3' [Hs' Hd'] H23']; subst; constructor.
  - split; [eapply same_credential_trans; eassumption|].
    intros Hg. rewrite Hd' by (destruct Hs as [-> _]; exact Hg). auto.
  - apply IH. assumption.
Qed.

Lemma store_frame_update (g : Z) (name : string) (update : list field_update)
    (docs : list Doc.t) :
  store_frame g docs
    (List.map (fun d => if has_key g name d then apply_update update d else d) docs).
Proof.
  unfold store_frame. induction docs as [|d docs IH]; simpl; constructor; auto.
  unfold has_key. destruct (Z.eqb_spec (Doc.guild_id d) g) as [Hg|Hg]; simpl.
  - destruct (String.eqb (Doc.name d) name).
    + split; [apply same_credential_apply_update | intros; contradiction].
    + split; [repeat split | reflexivity].
  - split; [repeat split | reflexivity].
Qed.

Lemma extended_by_refl {A : Type} (n : nat) (l : list A) : extended_by n l l.
Proof. exists []. rewrite app_nil_r. split; [reflexivity | simpl; lia]. Qed.

Lemma extended_by_trans {A : Type} (n m : nat) (l1 l2 l3 : list A) :
  extended_by n l1 l2 -> extended_by m l2 l3 -> extended_by (n + m) l1 l3.
Proof.
  intros [e1 [-> H1]] [e2 [-> H2]]. exists (e1 ++ e2).
  rewrite <- app_assoc. split; [reflexivity|]. rewrite length_app. lia.
Qed.

Lemma extended_by_weaken {A : Type} (n m : nat) (l l' : list A) :
  (n <= m)%nat -> extended_by n l l' -> extended_by m l l'.
Proof. intros H [e [-> He]]. exists e. split; [reflexivity | lia]. Qed.

Lemma effect_refl (g : Z) (st : state) : effect g 0 0 st st.
Proof.
  repeat split; [apply store_frame_refl | apply extended_by_refl
                 | apply extended_by_refl | lia].
Qed.

Lemma effect_trans (g : Z) (n1 k1 n2 k2 : nat) (s1 s2 s3 : state) :
  effect g n1 k1 s1 s2 -> effect g n2 k2 s2 s3 ->
  effect g (n1 + n2) (k1 + k2) s1 s3.
Proof.
  intros [F1 [C1 [N1 T1]]] [F2 [C2 [N2 T2]]]. repeat split.
  - eapply store_frame_trans; eassumption.
  - eapply extended_by_trans; eassumption.
  - eapply extended_by_trans; eassumption.
  - lia.
Qed.

Lemma effect_weaken (g : Z) (n k n' k' : nat) (s s' : state) :
  (n <= n')%nat -> (k <= k')%nat -> effect g n k s s' -> effect g n' k' s s'.
Proof.
  intros Hn Hk [F [C [N T]]]. repeat split; auto.
  - eapply extended_by_weaken; eassumption.
  - eapply extended_by_weaken; eassumption.
Qed.

Lemma within_ret {A : Type} (g : Z) (n k : nat) (a : A) :
  run_within (effect g n k) (ret a).
Proof. intros st. apply (effect_weaken g 0 0); [lia | lia | apply effect_refl]. Qed.

Lemma within_throw {A : Type} (g : Z) (n k : nat) (e : exc) :
  run_within (effect g n k) (@throw A e).
Proof. intros st. apply (effect_weaken g 0 0); [lia | lia | apply effect_refl]. Qed.

Lemma within_lift {A : Type} (g : Z) (n k : nat) (r : result A) :
  run_within (effect g n k) (lift r).
Proof. intros st. apply (effect_weaken g 0 0); [lia | lia | apply effect_refl]. Qed.

Lemma within_bind {A B : Type} (g : Z) (n1 k1 n2 k2 : nat) (m : M A) (f : A -> M B) :
  run_within (effect g n1 k1) m ->
  (forall a, run_within (effect g n2 k2) (f a)) ->
  run_within (effect g (n1 + n2) (k1 + k2)) (bind m f).
Proof.
  intros Hm Hf st. unfold bind. specialize (Hm st).
  destruct (m st) as [[a|e] st1]; cbn [snd] in *.
  - eapply effect_trans; [exact Hm | apply Hf].
  - eapply effect_weaken; [| | exact Hm]; lia.
Qed.

Lemma within_weaken {A : Type} (g : Z) (n k n' k' : nat) (m : M A) :
  (n <= n')%nat -> (k <= k')%nat ->
  run_within (effect g n k) m -> run_within (effect g n' k') m.
Proof. intros Hn Hk H st. eapply effect_weaken; [exact Hn | exact Hk | apply H]. Qed.

Lemma within_now (W : world) (g : Z) : run_within (effect g 0 0) (_now W).
Proof.
  intros st. repeat split; cbn;
    [apply store_frame_refl | apply extended_by_refl | apply extended_by_refl | lia].
Qed.

Lemma within_list_keys (g guild_id : Z) :
  run_within (effect g 0 0) (list_ai_api_keys guild_id).
Proof. intros st. apply effect_refl. Qed.

Lemma within_update (g : Z) (name : string) (update : list field_update) :
  run_within (effect g 0 0) (update_ai_api_key g name update).
Proof.
  intros st. repeat split; cbn;
    [apply store_frame_update | apply extended_by_refl | apply extended_by_refl | lia].
Qed.

Lemma within_call (W : world) (g : Z) (api_key : string) (payload : json) :
  run_within (effect g 1 0) (call_request_json W api_key payload).
Proof.
  intros st. repeat split; cbn;
    [apply store_frame_refl | | apply extended_by_refl | lia].
  exists [api_key]. split; [reflexivity | simpl; lia].
Qed.

Lemma within_notify (W : world) (g guild_id : Z) (key_name : string) (code : Z) :
  run_within (effect g 0 1) (notify_key_disabled W guild_id key_name code).
Proof.
  intros st. unfold notify_key_disabled.
  assert (Hsame : effect g 0 1 st st).
  { apply (effect_weaken g 0 0); [lia | lia | apply effect_refl]. }
  destruct (bot_get_guild W (length (calls st)) guild_id) as [gd|]; [|exact Hsame].
  unfold _log_to_ai_channel.
  destruct (resolve_log_channel W (length (calls st)) guild_id gd "ai")
    as [[c|]|e]; [|exact Hsame|exact Hsame].
  destruct (channel_send c (key_name, code)); [|exact Hsame|exact Hsame].
  repeat split; cbn;
    [apply store_frame_refl | apply extended_by_refl | | lia].
  exists [(key_name, code)]. split; [reflexivity | simpl; lia].
Qed.

Lemma within_update_key_usage (W : world) (doc : Doc.t) (candidate : Cand.t) :
  run_within (effect (Doc.guild_id doc) 0 0) (_update_key_usage W doc candidate).
Proof.
  unfold _update_key_usage.
  apply (within_bind _ 0 0 0 0); [apply within_now | intros now; apply within_update].
Qed.

Lemma within_set_key_error (W : world) (doc : Doc.t) (code : Z) (message : json)
    (cooldown_seconds : option Z) (disable : bool) :
  run_within (effect (Doc.guild_id doc) 0 0)
    (_set_key_error W doc code message cooldown_seconds disable).
Proof.
  unfold _set_key_error.
  apply (within_bind _ 0 0 0 0); [apply within_now | intros now].
  apply (within_bind _ 0 0 0 0); [apply within_lift | intros text].
  apply (within_bind _ 0 0 0 0); [apply within_lift | intros cooldown_until].
  apply within_update.
Qed.

Lemma within_handle_error_response (W : world) (guild_id : Z) (doc : Doc.t)
    (r : response) :
  run_within (effect (Doc.guild_id doc) 0 1)
    (handle_error_response W guild_id doc r).
Proof.
  unfold handle_error_response.
  destruct (status r =? 429).
  { apply (within_bind _ 0 0 0 1); [apply within_lift | intros cooldown].
    apply (within_bind _ 0 0 0 1); [apply within_set_key_error | intros _].
    apply within_ret. }
  destruct ((status r =? 401) || (status r =? 402)).
  { apply (within_bind _ 0 0 0 1); [apply within_set_key_error | intros _].
    apply (within_bind _ 0 1 0 0); [|intros _; apply within_ret].
    destruct (guild_id =? 0); [apply within_ret | apply within_notify]. }
  destruct (500 <=? status r);
    (apply (within_bind _ 0 0 0 1); [apply within_set_key_error | intros _];
     apply within_ret).
Qed.

Lemma within_after_reservation (W : world) (guild_id : Z) (payload : json)
    (candidate : Cand.t) (api_key : string) :
  run_within (effect (Doc.guild_id (Cand.doc candidate)) 1 1)
    (after_reservation W guild_id payload candidate api_key).
Proof.
  unfold after_reservation.
  apply (within_bind _ 1 0 0 1); [apply within_call | intros [r|e]].
  - destruct ((status r =? 200) && truthy (data r)).
    + destruct (completion_content (data r)) as [content|e]; [apply within_ret|].
      destruct (is_lookup_error (exc_class_of e)); [|apply within_throw].
      apply (within_bind _ 0 0 0 1); [apply within_set_key_error | intros _].
      apply within_ret.
    + apply within_handle_error_response.
  - apply (within_bind _ 0 0 0 1); [apply within_set_key_error | intros _].
    apply within_ret.
Qed.

Lemma within_attempt (W : world) (guild_id : Z) (payload : json)
    (candidate : Cand.t) :
  run_within (effect (Doc.guild_id (Cand.doc candidate)) 1 1)
    (attempt W guild_id payload candidate).
Proof.
  unfold attempt.
  destruct (decrypt_doc_key W (Cand.doc candidate)) as [api_key|e].
  - unfold attempt_with_key.
    apply (within_bind _ 0 0 1 1);
      [apply within_update_key_usage | intros _; apply within_after_reservation].
  - destruct (is_ValueError (exc_class_of e)); [apply within_ret|].
    apply (within_bind _ 0 0 1 1); [apply within_set_key_error | intros _].
    apply within_ret.
Qed.

Lemma within_failover_loop (W : world) (guild_id : Z) (payload : json)
    (candidates : list Cand.t) (last_error : json) :
  Forall (fun c => Doc.guild_id (Cand.doc c) = guild_id) candidates ->
  run_within (effect guild_id (length candidates) (length candidates))
    (failover_loop W guild_id payload candidates last_error).
Proof.
  intros H. revert last_error.
  induction H as [|c rest Hc _ IH]; intros last_error; simpl.
  - apply within_ret.
  - apply (within_bind _ 1 1 (length rest) (length rest));
      [rewrite <- Hc; apply within_attempt | intros [e|e|r]];
      [apply IH | apply within_ret | apply within_ret].
Qed.

(** The documents of the candidates of a tenant are documents of that
    tenant. *)
Lemma selected_candidates_of_guild (guild_id : Z) (docs : list Doc.t) (now : datetime) :
  Forall (fun c => Doc.guild_id (Cand.doc c) = guild_id)
    (select_key_candidates
       (List.filter (fun d => Doc.guild_id d =? guild_id) docs) now).
Proof.
  apply List.Forall_forall. intros c Hc.
  assert (H : exists c', In c' (select_key_candidates
                 (List.filter (fun d => Doc.guild_id d =? guild_id) docs) now)
              /\ Cand.doc c' = Cand.doc c) by (exists c; auto).
  apply select_key_candidates_eligible in H. destruct H as [H _].
  apply List.filter_In in H. destruct H as [_ H]. lia.
Qed.

Lemma within_call_openrouter (W : world) (guild_id : Z) (payload : json) :
  run_within (effect guild_id MAX_KEY_ATTEMPTS MAX_KEY_ATTEMPTS)
    (_call_openrouter W guild_id payload).
Proof.
  intros st. unfold _call_openrouter, _select_key_candidates, bind, list_ai_api_keys,
    _now, ret. cbn [fst snd].
  set (st1 := {| store := store st; ticks := S (ticks st);
                 calls := calls st; notices := notices st |}).
  assert (H01 : effect guild_id 0 0 st st1).
  { repeat split; cbn;
      [apply store_frame_refl | apply extended_by_refl | apply extended_by_refl | lia]. }
  pose proof (selected_candidates_of_guild guild_id (store st)
                (clock W (ticks st))) as Hg.
  destruct (select_key_candidates _ _) as [|c rest] eqn:Hsel.
  - cbn [snd]. eapply effect_weaken; [| |exact H01]; lia.
  - assert (Ht : Forall (fun c => Doc.guild_id (Cand.doc c) = guild_id)
                   (take MAX_KEY_ATTEMPTS (c :: rest))).
    { apply List.Forall_forall. intros x Hx. rewrite List.Forall_forall in Hg.
      apply Hg. apply list_elem_of_In. apply list_elem_of_In in Hx.
      exact (subseteq_take _ _ _ Hx). }
    pose proof (within_failover_loop W guild_id payload _
                  (JStr "OpenRouter request failed.") Ht st1) as H.
    apply (effect_trans _ 0 0 _ _ _ _ _ H01) in H.
    eapply effect_weaken; [| |exact H]; cbn [Nat.add]; rewrite length_take; lia.
Qed.

(** X15. A dispatch makes at most [MAX_KEY_ATTEMPTS] upstream calls and
    emits at most as many notifications, whatever the pool, the upstream
    answers and the failures on the way (an exception that leaves the
    dispatcher included). *)
Theorem dispatch_calls_bounded (W : world) (guild_id : Z) (payload : json)
    (st : state) :
  let st' := snd (_call_openrouter W guild_id payload st) in
  exists (new_calls : list string) (new_notices : list (string * Z)),
    calls st' = calls st ++ new_calls /\
    (length new_calls <= MAX_KEY_ATTEMPTS)%nat /\
    notices st' = notices st ++ new_notices /\
    (length new_notices <= MAX_KEY_ATTEMPTS)%nat.
Proof.
  intros st'.
  destruct (within_call_openrouter W guild_id payload st)
    as [_ [[cs [Hc Hcn]] [[ns [Hn Hnn]] _]]].
  exists cs, ns. unfold st'. repeat split; assumption.
Qed.

(** X16. A dispatch never adds, removes or reorders a stored credential,
    never changes the identity, the secret or the limits of one, and
    leaves the credentials of every other tenant exactly as they were. *)
Theorem dispatch_store_frame (W : world) (guild_id : Z) (payload : json)
    (st : state) :
  let st' := snd (_call_openrouter W guild_id payload st) in
  length (store st') = length (store st) /\
  forall (i : nat) (d : Doc.t),
    store st !! i = Some d ->
    exists d',
      store st' !! i = Some d' /\
      Doc.guild_id d' = Doc.guild_id d /\
      Doc.name d' = Doc.name d /\
      Doc.encrypted_api_key d' = Doc.encrypted_api_key d /\
      Doc.rpm_limit d' = Doc.rpm_limit d /\
      Doc.rpd_limit d' = Doc.rpd_limit d /\
      (Doc.guild_id d <> guild_id -> d' = d).
Proof.
  intros st'.
  destruct (within_call_openrouter W guild_id payload st) as [HF _].
  fold st' in HF. unfold store_frame in HF. split.
  - symmetry. eapply Forall2_length. exact HF.
  - intros i d Hi.
    destruct (Forall2_lookup_l _ _ _ _ _ HF Hi) as [d' [Hi' [[H1 [H2 [H3 [H4 H5]]]] H6]]].
    exists d'. repeat split; assumption.
Qed.

(** ** Outcomes of a dispatch *)

(** X17. When no credential of the tenant passes the filter the dispatch
    answers with the fixed text and does nothing else: no secret is read,
    no call is made, the store is as it was. *)
Theorem dispatch_without_eligible_key (W : world) (guild_id : Z) (payload : json)
    (st : state) :
  (forall d, In d (store st) -> Doc.guild_id d = guild_id ->
             ineligible d (clock W (ticks st))) ->
  _call_openrouter W guild_id payload st =
    (Ok (JNull, JStr "No available AI keys. Ask an admin to add or enable keys."),
     {| store := store st; ticks := S (ticks st);
        calls := calls st; notices := notices st |}).
Proof.
  intros H. unfold _call_openrouter, _select_key_candidates, bind,
    list_ai_api_keys, _now, ret. cbn [fst snd ticks store].
  destruct (select_key_candidates _ _) as [|c rest] eqn:Hsel; [reflexivity|].
  exfalso.
  assert (Hc : exists c', In c' (select_key_candidates
                 (List.filter (fun d => Doc.guild_id d =? guild_id) (store st))
                 (clock W (ticks st))) /\ Cand.doc c' = Cand.doc c).
  { exists c. rewrite Hsel. split; [left|]; reflexivity. }
  apply select_key_candidates_eligible in Hc. destruct Hc as [Hin Hne].
  apply List.filter_In in Hin. destruct Hin as [Hin Hg].
  apply Hne, H; [exact Hin | lia].
Qed.

Lemma dispatch_without_eligible_key_witness :
  let doc := Fixtures.key_doc "resting" (Fixtures.stored_secret "AAAA") None
               (Some (Fixtures.t2026 + 60000000)) in
  _call_openrouter (Fixtures.world_with []) 1 Fixtures.chat_payload
    (Fixtures.state_of [doc]) =
    (Ok (JNull, JStr "No available AI keys. Ask an admin to add or enable keys."),
     {| store := [doc]; ticks := 1; calls := []; notices := [] |}).
Proof.
  intros doc.
  apply (dispatch_without_eligible_key (Fixtures.world_with []) 1
           Fixtures.chat_payload (Fixtures.state_of [doc])).
  intros d [<-|[]] _. right. left.
  exists (Fixtures.t2026 + 60000000). split; [reflexivity|].
  vm_compute. reflexivity.
Defined.

(** One iteration with a credential that decrypts and an upstream that
    cannot be reached. *)
Lemma attempt_transport_failure (W : world) (guild_id : Z) (payload : json)
    (candidate : Cand.t) (api_key : string) (e : exc) (st : state) :
  decrypt_doc_key W (Cand.doc candidate) = Ok api_key ->
  request_json W (length (calls st)) api_key payload = Raise e ->
  let doc := Cand.doc candidate in
  let st1 := updated (Doc.guild_id doc) (Doc.name doc)
               (usage_update candidate (clock W (ticks st))) st in
  let st2 := called api_key st1 in
  cooldown_representable (clock W (ticks st2))
    DEFAULT_SERVER_ERROR_COOLDOWN_SECONDS ->
  attempt W guild_id payload candidate st =
    (Ok (Continue (JStr "OpenRouter request failed. Please try again.")),
     updated (Doc.guild_id doc) (Doc.name doc)
       (error_update 0 (JStr "OpenRouter request failed")
          (Some (clock W (ticks st2)
                 + DEFAULT_SERVER_ERROR_COOLDOWN_SECONDS * 1000000))
          false (clock W (ticks st2)))
       st2).
Proof.
  intros Hd Hreq doc st1 st2 Hfit.
  assert (H20 : DEFAULT_SERVER_ERROR_COOLDOWN_SECONDS <> 0) by discriminate.
  unfold attempt. rewrite Hd.
  unfold attempt_with_key. unfold bind at 1. rewrite update_key_usage_run.
  fold doc. fold st1.
  unfold after_reservation. unfold bind at 1. unfold call_request_json.
  replace (length (calls st1)) with (length (calls st)) by reflexivity.
  rewrite Hreq. unfold bind. fold doc.
  change {| store := store st1; ticks := ticks st1;
            calls := calls st1 ++ [api_key]; notices := notices st1 |}
    with st2.
  rewrite (set_key_error_run W doc 0 (JStr "OpenRouter request failed")
             (JStr "OpenRouter request failed") _ _ false st2 eq_refl
             (cooldown_end_representable _ _ H20 Hfit)).
  reflexivity.
Qed.

Lemma loop_upstream_outage (W : world) (guild_id : Z) (payload : json)
    (candidates : list Cand.t) (last_error : json) (st : state) :
  (forall n key, exists e, request_json W n key payload = Raise e) ->
  Forall (fun c => exists key, decrypt_doc_key W (Cand.doc c) = Ok key) candidates ->
  (forall n, (ticks st < n <= ticks st + 2 * length candidates)%nat ->
             cooldown_representable (clock W n)
               DEFAULT_SERVER_ERROR_COOLDOWN_SECONDS) ->
  let out := failover_loop W guild_id payload candidates last_error st in
  fst out = Ok (JNull, match candidates with
                       | [] => last_error
                       | _ => JStr "OpenRouter request failed. Please try again."
                       end) /\
  length (calls (snd out)) = (length (calls st) + length candidates)%nat /\
  notices (snd out) = notices st.
Proof.
  intros Hreq Hdec. revert last_error st.
  induction Hdec as [|c rest [key Hkey] _ IH]; intros last_error st Hclock.
  - cbn. repeat split. lia.
  - destruct (Hreq (length (calls st)) key) as [e He].
    cbn [length] in Hclock.
    pose proof (attempt_transport_failure W guild_id payload c key e st Hkey He
                  (Hclock (S (ticks st)) ltac:(lia)))
      as Ha. cbv zeta in Ha.
    match type of Ha with
    | _ = (_, ?s) =>
        assert (Heq : failover_loop W guild_id payload (c :: rest) last_error st =
                      failover_loop W guild_id payload rest
                        (JStr "OpenRouter request failed. Please try again.") s)
          by (cbn [failover_loop]; unfold bind at 1; rewrite Ha; reflexivity);
        specialize (IH (JStr "OpenRouter request failed. Please try again.") s)
    end.
    cbv zeta in IH |- *. rewrite Heq.
    destruct IH as [I1 [I2 I3]];
      [intros n Hn; apply Hclock; cbn [updated called ticks] in Hn; lia|].
    split; [|split].
    + rewrite I1. destruct rest; reflexivity.
    + rewrite I2. cbn [updated called calls]. rewrite length_app.
      cbn [length]. lia.
    + rewrite I3. reflexivity.
Qed.

(** X18. When the upstream service cannot be reached, and the stored
    secrets decrypt, a dispatch with an eligible credential tries the best
    candidates in turn, [MAX_KEY_ATTEMPTS] of them at most, emits no
    notification and answers that the request failed. The clock is taken
    to leave room for the cooldown of 20 seconds, that is not to read the
    last seconds of the year 9999. *)
Theorem upstream_outage_reported (W : world) (guild_id : Z) (payload : json)
    (st : state) :
  (forall n key, exists e, request_json W n key payload = Raise e) ->
  (forall d, In d (store st) -> Doc.guild_id d = guild_id ->
             exists key, decrypt_doc_key W d = Ok key) ->
  (exists d, In d (store st) /\ Doc.guild_id d = guild_id /\
             ~ ineligible d (clock W (ticks st))) ->
  (forall n, (ticks st < n <= ticks st + 1 + 2 * MAX_KEY_ATTEMPTS)%nat ->
             cooldown_representable (clock W n)
               DEFAULT_SERVER_ERROR_COOLDOWN_SECONDS) ->
  let out := _call_openrouter W guild_id payload st in
  let eligible :=
    select_key_candidates
      (List.filter (fun d => Doc.guild_id d =? guild_id) (store st))
      (clock W (ticks st)) in
  fst out = Ok (JNull, JStr "OpenRouter request failed. Please try again.") /\
  length (calls (snd out))
    = (length (calls st) + Nat.min MAX_KEY_ATTEMPTS (length eligible))%nat /\
  notices (snd out) = notices st.
Proof.
  intros Hreq Hdec [d0 [Hin0 [Hg0 Hne0]]] Hclock out eligible.
  assert (Hall : Forall (fun c => exists key, decrypt_doc_key W (Cand.doc c) = Ok key)
                   eligible).
  { apply List.Forall_forall. intros c Hc.
    assert (H : exists c', In c' eligible /\ Cand.doc c' = Cand.doc c)
      by (exists c; auto).
    apply select_key_candidates_eligible in H. destruct H as [H _].
    apply List.filter_In in H. destruct H as [H Hg]. apply Hdec; [exact H | lia]. }
  assert (Hsome : exists c, In c eligible /\ Cand.doc c = d0).
  { apply select_key_candidates_eligible. split; [|exact Hne0].
    apply List.filter_In. split; [exact Hin0 | lia]. }
  unfold out, _call_openrouter, _select_key_candidates, bind, list_ai_api_keys,
    _now, ret. cbn [fst snd ticks store]. fold eligible.
  destruct eligible as [|c rest] eqn:He.
  { destruct Hsome as [c [[] _]]. }
  assert (Ht : Forall (fun c => exists key, decrypt_doc_key W (Cand.doc c) = Ok key)
                 (take MAX_KEY_ATTEMPTS (c :: rest))).
  { apply List.Forall_forall. intros x Hx. rewrite List.Forall_forall in Hall.
    apply Hall. apply list_elem_of_In. apply list_elem_of_In in Hx.
    exact (subseteq_take _ _ _ Hx). }
  assert (Hroom : forall n,
             (S (ticks st) < n
              <= S (ticks st) + 2 * length (take MAX_KEY_ATTEMPTS (c :: rest)))%nat ->
             cooldown_representable (clock W n)
               DEFAULT_SERVER_ERROR_COOLDOWN_SECONDS).
  { intros n Hn. apply Hclock. rewrite length_take in Hn.
    unfold MAX_KEY_ATTEMPTS in *. lia. }
  destruct (loop_upstream_outage W guild_id payload _
              (JStr "OpenRouter request failed.")
              {| store := store st; ticks := S (ticks st);
                 calls := calls st; notices := notices st |} Hreq Ht Hroom)
    as [H1 [H2 H3]].
  split; [|split].
  - rewrite H1. reflexivity.
  - rewrite H2. cbn [calls]. rewrite length_take. reflexivity.
  - rewrite H3. reflexivity.
Qed.

Lemma upstream_outage_reported_witness :
  let out := _call_openrouter (Fixtures.world_with []) 1 Fixtures.chat_payload
               (Fixtures.state_of Fixtures.pool_two) in
  fst out = Ok (JNull, JStr "OpenRouter request failed. Please try again.") /\
  notices (snd out) = [].
Proof.
  intros out.
  assert (Hreq : forall n key, exists e,
             request_json (Fixtures.world_with []) n key Fixtures.chat_payload
             = Raise e).
  { intros n key. eexists. cbn. unfold Fixtures.scripted.
    destruct n; reflexivity. }
  assert (Hdec : forall d, In d (store (Fixtures.state_of Fixtures.pool_two)) ->
             Doc.guild_id d = 1 ->
             exists key, decrypt_doc_key (Fixtures.world_with []) d = Ok key).
  { intros d [<-|[<-|[]]] _; eexists; vm_compute; reflexivity. }
  assert (Hel : exists d, In d (store (Fixtures.state_of Fixtures.pool_two)) /\
             Doc.guild_id d = 1 /\
             ~ ineligible d (clock (Fixtures.world_with [])
                               (ticks (Fixtures.state_of Fixtures.pool_two)))).
  { eexists. split; [left; reflexivity|]. split; [reflexivity|].
    intros Hi. apply build_key_candidate_None in Hi. vm_compute in Hi.
    discriminate. }
  assert (Hclock : forall n,
             (ticks (Fixtures.state_of Fixtures.pool_two) < n
              <= ticks (Fixtures.state_of Fixtures.pool_two) + 1
                 + 2 * MAX_KEY_ATTEMPTS)%nat ->
             cooldown_representable (clock (Fixtures.world_with []) n)
               DEFAULT_SERVER_ERROR_COOLDOWN_SECONDS).
  { intros n Hn. cbn in Hn. unfold cooldown_representable.
    cbn [clock Fixtures.world_with PyRef.make_world].
    unfold Fixtures.clock_2026, Fixtures.t2026, datetime_min_utc, datetime_max_utc,
      DEFAULT_SERVER_ERROR_COOLDOWN_SECONDS.
    split; [split; vm_compute; discriminate | lia]. }
  destruct (upstream_outage_reported (Fixtures.world_with []) 1
              Fixtures.chat_payload (Fixtures.state_of Fixtures.pool_two)
              Hreq Hdec Hel Hclock) as [H1 [_ H3]].
  split; [exact H1 | exact H3].
Defined.

(** One iteration with a credential that decrypts: the reservation, then
    the rest of the iteration. *)
Lemma loop_reserves_first (W : world) (guild_id : Z) (payload : json)
    (candidate : Cand.t) (rest : list Cand.t) (last_error : json)
    (api_key : string) (st : state) :
  decrypt_doc_key W (Cand.doc candidate) = Ok api_key ->
  failover_loop W guild_id payload (candidate :: rest) last_error st =
    (let! s := after_reservation W guild_id payload candidate api_key in
     match s with
     | Continue e => failover_loop W guild_id payload rest e
     | Break e => ret (JNull, e)
     | Return r => ret r
     end)
      (updated (Doc.guild_id (Cand.doc candidate)) (Doc.name (Cand.doc candidate))
         (usage_update candidate (clock W (ticks st))) st).
Proof.
  intros Hd. cbn [failover_loop]. unfold bind at 1. unfold attempt. rewrite Hd.
  unfold attempt_with_key. unfold bind at 1. rewrite update_key_usage_run.
  unfold bind. reflexivity.
Qed.

(** The upstream call of an iteration. *)
Lemma after_reservation_answered (W : world) (guild_id : Z) (payload : json)
    (candidate : Cand.t) (api_key : string) (r : response) (st : state) :
  request_json W (length (calls st)) api_key payload = Ok r ->
  after_reservation W guild_id payload candidate api_key st =
    (if (status r =? 200) && truthy (data r)
     then match completion_content (data r) with
          | Ok content => ret (Return (content, JNull))
          | Raise e =>
              if is_lookup_error (exc_class_of e) then
                let last_error :=
                  JStr "OpenRouter response missing completion content." in
                do! _set_key_error W (Cand.doc candidate) (status r) last_error
                      (Some DEFAULT_SERVER_ERROR_COOLDOWN_SECONDS) false in
                ret (Continue last_error)
              else throw e
          end
     else handle_error_response W guild_id (Cand.doc candidate) r)
      (called api_key st).
Proof.
  intros Hreq. unfold after_reservation. unfold bind at 1.
  unfold call_request_json. rewrite Hreq. reflexivity.
Qed.

(** The message taken from a response without usable data is the start of
    the body, or a fixed text when the body is empty. *)
Lemma extract_error_message_no_data (data : json) (text : string) :
  truthy data = false ->
  extract_error_message data text =
    JStr (if String.eqb text "" then "OpenRouter error"
          else String.substring 0 MAX_STATUS_TEXT text).
Proof.
  intros H. unfold extract_error_message.
  destruct data as [|b|z|f|s|l|items]; try (destruct (String.eqb text ""); reflexivity).
  destruct items; [|discriminate]. simpl.
  destruct (String.eqb text ""); reflexivity.
Qed.

(** X19. A response with status 200 whose body is empty or is not JSON is
    not retried with another key: the credential gets the 30 seconds
    cooldown of the unclassified errors, the loop stops, and the start of
    the body (or a fixed text for an empty body) is returned as the
    error. Only a clock that reads the last half minute of the year 9999
    leaves no room for the cooldown: there the recording raises
    [OverflowError] and nothing is written. *)
Theorem unusable_200_body_halts (W : world) (guild_id : Z) (payload : json)
    (candidate : Cand.t) (rest : list Cand.t) (last_error : json)
    (api_key : string) (r : response) (st : state) :
  decrypt_doc_key W (Cand.doc candidate) = Ok api_key ->
  request_json W (length (calls st)) api_key payload = Ok r ->
  status r = 200 -> truthy (data r) = false ->
  let doc := Cand.doc candidate in
  let st1 := updated (Doc.guild_id doc) (Doc.name doc)
               (usage_update candidate (clock W (ticks st))) st in
  let st2 := called api_key st1 in
  let now := clock W (ticks st2) in
  let message := if String.eqb (text r) "" then "OpenRouter error"
                 else String.substring 0 MAX_STATUS_TEXT (text r) in
  (cooldown_representable now DEFAULT_RATE_LIMIT_COOLDOWN_SECONDS ->
   failover_loop W guild_id payload (candidate :: rest) last_error st =
     (Ok (JNull, JStr message),
      updated (Doc.guild_id doc) (Doc.name doc)
        (error_update 200 (JStr (String.substring 0 MAX_STATUS_TEXT message))
           (Some (now + DEFAULT_RATE_LIMIT_COOLDOWN_SECONDS * 1000000)) false now)
        st2)) /\
  (~ cooldown_representable now DEFAULT_RATE_LIMIT_COOLDOWN_SECONDS ->
   exists e,
     failover_loop W guild_id payload (candidate :: rest) last_error st =
       (Raise e, {| store := store st2; ticks := S (ticks st2);
                    calls := calls st2; notices := notices st2 |}) /\
     exc_class_of e = OverflowError).
Proof.
  intros Hd Hreq H200 Hdata doc st1 st2 now message.
  assert (Heq : failover_loop W guild_id payload (candidate :: rest) last_error st =
                match _set_key_error W doc 200 (JStr message)
                        (Some DEFAULT_RATE_LIMIT_COOLDOWN_SECONDS) false st2 with
                | (Ok _, st') => (Ok (JNull, JStr message), st')
                | (Raise e, st') => (Raise e, st')
                end).
  { rewrite (loop_reserves_first _ _ _ _ _ _ _ _ Hd). fold doc. fold st1.
    unfold bind at 1.
    rewrite (after_reservation_answered W guild_id payload candidate api_key r st1)
      by exact Hreq.
    fold st2. rewrite Hdata, andb_false_r.
    unfold handle_error_response. rewrite H200.
    cbn [Z.eqb Pos.eqb orb Z.leb Z.compare Pos.compare Pos.compare_cont].
    rewrite (extract_error_message_no_data _ _ Hdata). fold message. fold doc.
    unfold bind.
    destruct (_set_key_error W doc 200 (JStr message)
                (Some DEFAULT_RATE_LIMIT_COOLDOWN_SECONDS) false st2)
      as [[[]|e] st']; reflexivity. }
  rewrite Heq.
  assert (H30 : DEFAULT_RATE_LIMIT_COOLDOWN_SECONDS <> 0) by discriminate.
  split.
  - intros Hfit.
    rewrite (set_key_error_run W doc 200 (JStr message)
               (JStr (String.substring 0 MAX_STATUS_TEXT message)) _ _ false st2
               eq_refl (cooldown_end_representable _ _ H30 Hfit)).
    reflexivity.
  - intros Hno.
    destruct (cooldown_end_overflow now _ H30 Hno) as [e [Hc He]].
    exists e. split; [|exact He].
    rewrite (set_key_error_overflow W doc 200 (JStr message)
               (JStr (String.substring 0 MAX_STATUS_TEXT message)) _ e false st2
               eq_refl Hc).
    reflexivity.
Qed.

Lemma unusable_200_body_halts_witness :
  let W := Fixtures.world_with
             [ Ok (Samples.plain_response 200 "<html>"); Ok (Fixtures.completion "hi") ] in
  fst (failover_loop W 1 Fixtures.chat_payload
         [Samples.first_candidate; Samples.first_candidate]
         (JStr "OpenRouter request failed.") (Fixtures.state_of Fixtures.pool_two))
  = Ok (JNull, JStr "<html>").
Proof.
  intros W.
  pose proof (unusable_200_body_halts W 1 Fixtures.chat_payload
                Samples.first_candidate [Samples.first_candidate]
                (JStr "OpenRouter request failed.") "sk-live-1"
                (Samples.plain_response 200 "<html>")
                (Fixtures.state_of Fixtures.pool_two)
                ltac:(vm_compute; reflexivity) eq_refl eq_refl eq_refl) as H.
  cbv zeta in H. destruct H as [H _]. rewrite H; [reflexivity|].
  split; split; vm_compute; discriminate.
Defined.

(** X20. A 429 response whose [Retry-After] header reads as an infinite
    number makes the dispatch raise [OverflowError]: the conversion to an
    integer fails outside the [except ValueError], after the reservation
    and the call, and no error and no cooldown is recorded for the key. *)
Theorem infinite_retry_after_raises (W : world) (guild_id : Z) (payload : json)
    (candidate : Cand.t) (rest : list Cand.t) (last_error : json)
    (api_key : string) (r : response) (s : string) (negative : bool) (st : state) :
  decrypt_doc_key W (Cand.doc candidate) = Ok api_key ->
  request_json W (length (calls st)) api_key payload = Ok r ->
  status r = 429 -> retry_after r = Some s -> s <> "" ->
  float_of_str W s = Some (FInf negative) ->
  let doc := Cand.doc candidate in
  let st1 := updated (Doc.guild_id doc) (Doc.name doc)
               (usage_update candidate (clock W (ticks st))) st in
  failover_loop W guild_id payload (candidate :: rest) last_error st =
    (raise_ OverflowError "cannot convert float infinity to integer",
     called api_key st1).
Proof.
  intros Hd Hreq H429 Hra Hs Hf doc st1.
  rewrite (loop_reserves_first _ _ _ _ _ _ _ _ Hd). fold doc. fold st1.
  unfold bind at 1.
  rewrite (after_reservation_answered W guild_id payload candidate api_key r st1)
    by exact Hreq.
  rewrite H429. cbn [Z.eqb Pos.eqb andb].
  unfold handle_error_response. rewrite H429. cbn [Z.eqb Pos.eqb].
  unfold bind at 1. unfold lift, rate_limit_cooldown. rewrite Hra.
  apply String.eqb_neq in Hs. rewrite Hs, Hf. reflexivity.
Qed.

Lemma infinite_retry_after_raises_witness :
  let W := Fixtures.world_with
             [ Ok (Fixtures.error_response 429 (JStr "slow down") (Some "inf")) ] in
  fst (failover_loop W 1 Fixtures.chat_payload [Samples.first_candidate]
         (JStr "OpenRouter request failed.") (Fixtures.state_of Fixtures.pool_two))
  = raise_ OverflowError "cannot convert float infinity to integer".
Proof.
  intros W.
  assert (Hs : "inf" <> "") by discriminate.
  pose proof (infinite_retry_after_raises W 1 Fixtures.chat_payload
                Samples.first_candidate [] (JStr "OpenRouter request failed.")
                "sk-live-1"
                (Fixtures.error_response 429 (JStr "slow down") (Some "inf"))
                "inf" false (Fixtures.state_of Fixtures.pool_two)
                ltac:(vm_compute; reflexivity) eq_refl eq_refl eq_refl Hs
                ltac:(vm_compute; reflexivity)) as H.
  cbv zeta in H. rewrite H. reflexivity.
Defined.

(** X21. A 401 or 402 response disables the credential without a
    cooldown, in every case. The operator notification is attempted for a
    tenant id other than 0 whose guild is in the cache: it is sent, naming
    the key and the status, when a log channel is resolved and the sending
    returns; nothing is sent when no channel is resolved or the sending is
    forbidden. In all these cases the loop passes on to the next candidate.
    An exception raised by the reading of the configuration, by the fetch
    of the channel or by the sending leaves the dispatcher, and the other
    candidates are not tried. *)
Theorem unauthorized_key_disabled (W : world) (guild_id : Z) (payload : json)
    (candidate : Cand.t) (rest : list Cand.t) (last_error : json)
    (api_key : string) (r : response) (kept : json) (st : state) :
  decrypt_doc_key W (Cand.doc candidate) = Ok api_key ->
  request_json W (length (calls st)) api_key payload = Ok r ->
  status r = 401 \/ status r = 402 ->
  slice_status_text (extract_error_message (data r) (text r)) = Ok kept ->
  let doc := Cand.doc candidate in
  let st1 := updated (Doc.guild_id doc) (Doc.name doc)
               (usage_update candidate (clock W (ticks st))) st in
  let st2 := called api_key st1 in
  let st3 := updated (Doc.guild_id doc) (Doc.name doc)
               (error_update (status r) kept None true (clock W (ticks st2))) st2 in
  let n := length (calls st3) in
  let next := failover_loop W guild_id payload rest
                (JStr "AI key disabled due to authorization or credit error.") in
  let log_channel :=
    match bot_get_guild W n guild_id with
    | Some g => resolve_log_channel W n guild_id g "ai"
    | None => Ok None
    end in
  failover_loop W guild_id payload (candidate :: rest) last_error st =
    if guild_id =? 0 then next st3
    else match log_channel with
         | Ok None => next st3
         | Ok (Some c) =>
             match channel_send c (Doc.name doc, status r) with
             | Sent => next (notified (Doc.name doc) (status r) st3)
             | Send_forbidden => next st3
             | Send_raises e => (Raise e, st3)
             end
         | Raise e => (Raise e, st3)
         end.
Proof.
  intros Hd Hreq Hst Hk doc st1 st2 st3 n next log_channel.
  rewrite (loop_reserves_first _ _ _ _ _ _ _ _ Hd). fold doc. fold st1.
  unfold bind at 1.
  rewrite (after_reservation_answered W guild_id payload candidate api_key r st1)
    by exact Hreq.
  fold st2. fold doc.
  assert (H200 : (status r =? 200) = false) by (destruct Hst as [-> | ->]; reflexivity).
  assert (H429 : (status r =? 429) = false) by (destruct Hst as [-> | ->]; reflexivity).
  assert (H40x : (status r =? 401) || (status r =? 402) = true)
    by (destruct Hst as [-> | ->]; reflexivity).
  rewrite H200. cbn [andb].
  unfold handle_error_response. rewrite H429, H40x.
  unfold bind at 1.
  rewrite (set_key_error_run W doc (status r) _ kept None None true st2 Hk eq_refl).
  fold st3. unfold bind at 1.
  destruct (guild_id =? 0); [reflexivity|].
  unfold notify_key_disabled, log_channel, n.
  destruct (bot_get_guild W (length (calls st3)) guild_id) as [g|]; [|reflexivity].
  unfold _log_to_ai_channel.
  destruct (resolve_log_channel W (length (calls st3)) guild_id g "ai")
    as [[c|]|e]; [|reflexivity|reflexivity].
  cbn [fst snd].
  destruct (channel_send c (Doc.name doc, status r)); reflexivity.
Qed.

Lemma unauthorized_key_disabled_witness :
  let W := Fixtures.world_with
             [ Ok (Fixtures.error_response 401 (JStr "No auth") None) ] in
  let out := failover_loop W 1 Fixtures.chat_payload [Samples.first_candidate]
               (JStr "OpenRouter request failed.")
               (Fixtures.state_of Fixtures.pool_two) in
  fst out = Ok (JNull, JStr "AI key disabled due to authorization or credit error.")
  /\ notices (snd out) = [("first", 401)].
Proof.
  intros W out.
  pose proof (unauthorized_key_disabled W 1 Fixtures.chat_payload
                Samples.first_candidate [] (JStr "OpenRouter request failed.")
                "sk-live-1" (Fixtures.error_response 401 (JStr "No auth") None)
                (JStr "No auth") (Fixtures.state_of Fixtures.pool_two)
                ltac:(vm_compute; reflexivity) eq_refl (or_introl eq_refl) eq_refl)
    as H.
  cbv zeta in H. unfold out. rewrite H. split; reflexivity.
Defined.

(** A configuration that cannot be read: the key answered with 401 is
    disabled, no notification is sent, the exception leaves the dispatcher
    and the second key, which would have answered, is not tried. *)
Example notification_failure_leaves_dispatcher :
  let W := Samples.world_on_platform
             [ Ok (Fixtures.error_response 401 (JStr "No auth") None);
               Ok (Fixtures.completion "hi") ]
             (fun _ _ => Some PyRef.ref_guild)
             (fun _ _ => raise_ ClientError "database unreachable") in
  let out := _call_openrouter W 1 Fixtures.chat_payload
               (Fixtures.state_of Fixtures.pool_two) in
  fst out = raise_ ClientError "database unreachable" /\
  calls (snd out) = ["sk-live-1"] /\
  notices (snd out) = [] /\
  (Doc.enabled <$> find_key 1 "first" (store (snd out))) = Some (Some false).
Proof. vm_compute. repeat split; reflexivity. Qed.

(** X22. A completion ends the dispatch at once: the content of the first
    choice is returned with no error, after one reservation and one call;
    nothing more is written to the store and the other candidates are not
    tried. *)
Theorem completion_returned (W : world) (guild_id : Z) (payload : json)
    (candidate : Cand.t) (rest : list Cand.t) (last_error : json)
    (api_key : string) (r : response) (content : json) (st : state) :
  decrypt_doc_key W (Cand.doc candidate) = Ok api_key ->
  request_json W (length (calls st)) api_key payload = Ok r ->
  status r = 200 -> truthy (data r) = true ->
  completion_content (data r) = Ok content ->
  let doc := Cand.doc candidate in
  failover_loop W guild_id payload (candidate :: rest) last_error st =
    (Ok (content, JNull),
     called api_key
       (updated (Doc.guild_id doc) (Doc.name doc)
          (usage_update candidate (clock W (ticks st))) st)).
Proof.
  intros Hd Hreq H200 Hdata Hc doc.
  rewrite (loop_reserves_first _ _ _ _ _ _ _ _ Hd). fold doc.
  unfold bind at 1.
  rewrite (after_reservation_answered W guild_id payload candidate api_key r _)
    by exact Hreq.
  rewrite H200, Hdata, Hc. reflexivity.
Qed.

Lemma completion_returned_witness :
  let W := Fixtures.world_with [ Ok (Fixtures.completion "hi") ] in
  let out := failover_loop W 1 Fixtures.chat_payload
               [Samples.first_candidate; Samples.first_candidate]
               (JStr "OpenRouter request failed.")
               (Fixtures.state_of Fixtures.pool_two) in
  fst out = Ok (JStr "hi", JNull) /\ calls (snd out) = ["sk-live-1"].
Proof.
  intros W out.
  pose proof (completion_returned W 1 Fixtures.chat_payload
                Samples.first_candidate [Samples.first_candidate]
                (JStr "OpenRouter request failed.")
                "sk-live-1" (Fixtures.completion "hi") (JStr "hi")
                (Fixtures.state_of Fixtures.pool_two)
                ltac:(vm_compute; reflexivity) eq_refl eq_refl eq_refl eq_refl)
    as H.
  cbv zeta in H. unfold out. rewrite H. split; reflexivity.
Defined.

(** ** Encryption of the stored secrets *)

(** X23. What [encrypt_api_key] stores, [decrypt_api_key] reads back: when
    the library functions invert each other on the values at hand (base64
    on the nonce and on the ciphertext, the secret box, UTF-8 on the key),
    encryption returns a payload with the two fields [nonce] and
    [ciphertext] and nothing else, and its decryption is the API key. *)
Theorem encrypt_decrypt_round_trip (W : world) (E : encoder) (api_key : string)
    (box_key ciphertext : list Byte.byte) :
  _get_secret_key W = Ok box_key ->
  let nonce := random_bytes E PyRef.NONCE_SIZE in
  secretbox_encrypt E box_key (utf8_encode E api_key) nonce = Ok ciphertext ->
  b64decode W (b64encode E nonce) = Ok nonce ->
  b64decode W (b64encode E ciphertext) = Ok ciphertext ->
  secretbox_decrypt W box_key ciphertext nonce = Ok (utf8_encode E api_key) ->
  utf8_decode W (utf8_encode E api_key) = Ok api_key ->
  exists payload,
    encrypt_api_key W E api_key = Ok payload /\
    dom payload = ({[ "nonce"; "ciphertext" ]} : gset string) /\
    decrypt_api_key W payload = Ok api_key.
Proof.
  intros Hkey nonce Henc Hn Hc Hdec Hutf.
  exists ({[ "nonce" := b64encode E nonce;
             "ciphertext" := b64encode E ciphertext ]} : gmap string string).
  split; [|split].
  - unfold encrypt_api_key. rewrite Hkey. cbn [bind_result]. fold nonce.
    rewrite Henc. reflexivity.
  - rewrite dom_insert_L, dom_singleton_L. reflexivity.
  - unfold decrypt_api_key. rewrite Hkey. cbn [bind_result].
    unfold payload_item.
    rewrite lookup_insert_eq. cbn [bind_result]. rewrite Hn. cbn [bind_result].
    rewrite lookup_insert_ne by discriminate. rewrite lookup_singleton_eq.
    cbn [bind_result]. rewrite Hc. cbn [bind_result]. rewrite Hdec.
    cbn [bind_result]. exact Hutf.
Qed.

Lemma encrypt_decrypt_round_trip_witness :
  exists payload,
    encrypt_api_key (Fixtures.world_with []) PyRefEncode.make_encoder "sk-live-1"
      = Ok payload /\
    decrypt_api_key (Fixtures.world_with []) payload = Ok "sk-live-1".
Proof.
  destruct (encrypt_decrypt_round_trip (Fixtures.world_with [])
              PyRefEncode.make_encoder "sk-live-1"
              (PyRef.ref_sha256 "secret")
              (take PyRef.MACBYTES (PyRef.ref_sha256 "secret")
               ++ list_byte_of_string "sk-live-1")
              ltac:(vm_compute; reflexivity) ltac:(vm_compute; reflexivity)
              ltac:(vm_compute; reflexivity) ltac:(vm_compute; reflexivity)
              ltac:(vm_compute; reflexivity) ltac:(vm_compute; reflexivity))
    as [payload [H1 [_ H2]]].
  exists payload. split; assumption.
Defined.

(** ** Thread archive duration *)

Lemma min_by_least (key : Z -> Z) (rest : list Z) (best : Z) :
  In (min_by key best rest) (best :: rest) /\
  forall v, In v (best :: rest) -> key (min_by key best rest) <= key v.
Proof.
  revert best. induction rest as [|x rest IH]; intros best; simpl.
  - split; [now left|]. intros v [<-|[]]. lia.
  - destruct (Z.ltb_spec (key x) (key best)) as [Hlt|Hge].
    + destruct (IH x) as [Hin Hmin]. split.
      * right. exact Hin.
      * intros v [<-|Hv]; [|apply Hmin; exact Hv].
        specialize (Hmin x (or_introl eq_refl)). lia.
    + destruct (IH best) as [Hin Hmin]. split.
      * destruct Hin as [Hin|Hin]; [now left | right; now right].
      * intros v [<-|[<-|Hv]].
        -- apply Hmin. now left.
        -- specialize (Hmin best (or_introl eq_refl)). lia.
        -- apply Hmin. now right.
Qed.

(** X24. Whatever the order in which the set is iterated, the duration
    chosen for a thread is one of the supported ones (60 and 1440 minutes,
    4320 and 10080 with the matching guild feature), none of the supported
    durations is nearer to the target, and a target that is itself
    supported is returned as it is. *)
Theorem resolve_auto_archive_duration_nearest (iteration : list Z -> list Z)
    (features : list string) (target_minutes : Z) :
  (forall l, Permutation (iteration l) l) ->
  exists r,
    _resolve_auto_archive_duration iteration features target_minutes = Some r /\
    In r (supported_durations features) /\
    (forall v, In v (supported_durations features) ->
               Z.abs (r - target_minutes) <= Z.abs (v - target_minutes)) /\
    (In target_minutes (supported_durations features) -> r = target_minutes).
Proof.
  intros Hperm. unfold _resolve_auto_archive_duration.
  specialize (Hperm (supported_durations features)).
  destruct (iteration (supported_durations features)) as [|x rest] eqn:Hit.
  - apply Permutation_nil in Hperm. discriminate.
  - cbn [py_min].
    destruct (min_by_least (fun value => Z.abs (value - target_minutes)) rest x)
      as [Hin Hmin].
    exists (min_by (fun value => Z.abs (value - target_minutes)) x rest).
    split; [reflexivity|].
    assert (Hall : forall v, In v (supported_durations features) ->
               Z.abs (min_by (fun value => Z.abs (value - target_minutes)) x rest
                      - target_minutes) <= Z.abs (v - target_minutes)).
    { intros v Hv. apply Hmin. eapply Permutation_in; [symmetry; exact Hperm | exact Hv]. }
    split; [eapply Permutation_in; [exact Hperm | exact Hin]|].
    split; [exact Hall|].
    intros Ht. specialize (Hall _ Ht). lia.
Qed.

Lemma resolve_auto_archive_duration_nearest_witness :
  exists r,
    _resolve_auto_archive_duration (fun l => l) ["SEVEN_DAY_THREAD_ARCHIVE"] 9000
      = Some r /\
    In r (supported_durations ["SEVEN_DAY_THREAD_ARCHIVE"]).
Proof.
  destruct (resolve_auto_archive_duration_nearest (fun l => l)
              ["SEVEN_DAY_THREAD_ARCHIVE"] 9000 (fun l => Permutation_refl l))
    as [r [H1 [H2 _]]].
  exists r. split; assumption.
Defined.

(** ** Usage windows *)

(** X25. Advancing a window is idempotent: the state that
    [_window_state] returns at [now], stored and advanced again at the
    same instant, is returned unchanged, for every window length. *)
Theorem window_state_idempotent (start : option datetime) (count : option Z)
    (window_seconds : Z) (now : datetime) :
  let advanced := _window_state start count window_seconds now in
  _window_state (Some (fst advanced)) (Some (snd advanced)) window_seconds now
  = advanced.
Proof.
  cbv zeta. unfold _window_state, _ensure_utc.
  destruct start as [s|].
  - destruct (Qle_bool (inject_Z window_seconds) (total_seconds (now - s))) eqn:E;
      cbn [fst snd].
    + destruct (Qle_bool (inject_Z window_seconds) (total_seconds (now - now)));
        reflexivity.
    + rewrite E. rewrite int_or_0_Some. reflexivity.
  - cbn [fst snd].
    destruct (Qle_bool (inject_Z window_seconds) (total_seconds (now - now)));
      reflexivity.
Qed.

(** ** Fingerprints *)

Lemma substring_length (s : string) (n m : nat) :
  (n + m <= String.length s)%nat -> String.length (String.substring n m s) = m.
Proof.
  revert n m. induction s as [|c s IH]; intros n m H; simpl in H.
  - assert (n = 0%nat) by lia. assert (m = 0%nat) by lia. subst. reflexivity.
  - destruct n as [|n]; destruct m as [|m]; simpl.
    + reflexivity.
    + f_equal. apply IH. simpl. lia.
    + apply IH. lia.
    + apply IH. lia.
Qed.

Lemma substring_whole (s : string) : String.substring 0 (String.length s) s = s.
Proof. induction s as [|c s IH]; simpl; [reflexivity | now rewrite IH]. Qed.

Lemma substring_end_part (s : string) (n : nat) :
  (n <= String.length s)%nat ->
  exists front, s = front +:+ String.substring n (String.length s - n) s.
Proof.
  revert n. induction s as [|c s IH]; intros n H; simpl in H.
  - exists "". assert (n = 0%nat) by lia. subst. reflexivity.
  - destruct n as [|n].
    + exists "". rewrite Nat.sub_0_r, substring_whole. reflexivity.
    + destruct (IH n ltac:(lia)) as [front Hf]. exists (String c front).
      change (String c s
              = String c (front +:+ String.substring n (String.length s - n) s)).
      f_equal. exact Hf.
Qed.

Lemma hex_of_bytes_length (b : list Byte.byte) :
  String.length (hex_of_bytes b) = (2 * length b)%nat.
Proof.
  unfold hex_of_bytes. induction b as [|x b IH]; [reflexivity|].
  cbn [flat_map app string_of_list_ascii String.length length]. rewrite IH. lia.
Qed.

Lemma append_length (a b : string) :
  String.length (a +:+ b) = (String.length a + String.length b)%nat.
Proof. induction a as [|c a IH]; simpl; [reflexivity | now rewrite IH]. Qed.

(** X26. For a digest of at least four bytes a fingerprint is the first
    eight hexadecimal characters of the digest, a colon, and the end part
    of the key of four characters, or the whole key when it is shorter (a
    key of up to four characters is shown in full); it has at most
    thirteen characters. *)
Theorem fingerprint_api_key_shape (W : world) (api_key : string) :
  (4 <= length (sha256 W api_key))%nat ->
  exists digest last4 front,
    fingerprint_api_key W api_key = digest +:+ ":" +:+ last4 /\
    digest = String.substring 0 8 (hex_of_bytes (sha256 W api_key)) /\
    String.length digest = 8%nat /\
    api_key = front +:+ last4 /\
    String.length last4 = Nat.min 4 (String.length api_key) /\
    (String.length (fingerprint_api_key W api_key) <= 13)%nat.
Proof.
  intros Hd. unfold fingerprint_api_key.
  set (digest := String.substring 0 8 (hex_of_bytes (sha256 W api_key))).
  assert (Hlen : String.length digest = 8%nat).
  { apply substring_length. rewrite hex_of_bytes_length. lia. }
  destruct (Nat.leb_spec 4 (String.length api_key)) as [H4|H4].
  - destruct (substring_end_part api_key (String.length api_key - 4) ltac:(lia))
      as [front Hf].
    replace (String.length api_key - (String.length api_key - 4))%nat with 4%nat
      in Hf by lia.
    assert (Hl : String.length
                   (String.substring (String.length api_key - 4) 4 api_key) = 4%nat)
      by (apply substring_length; lia).
    exists digest, (String.substring (String.length api_key - 4) 4 api_key), front.
    repeat split; try assumption; try reflexivity.
    + rewrite Hl. lia.
    + rewrite !append_length, Hlen, Hl. simpl. lia.
  - exists digest, api_key, "". repeat split; try assumption; try reflexivity.
    + lia.
    + rewrite !append_length, Hlen. simpl. lia.
Qed.

Lemma fingerprint_api_key_shape_witness :
  String.length (fingerprint_api_key (Fixtures.world_with []) "sk-live-1") = 13%nat.
Proof.
  destruct (fingerprint_api_key_shape (Fixtures.world_with []) "sk-live-1"
              ltac:(vm_compute; lia))
    as [digest [last4 [front [H1 [H2 [H3 [H4 [H5 H6]]]]]]]].
  rewrite H1, !append_length, H3, H5. reflexivity.
Defined.
